(** * Portfolio_Backend: session cache, prompt assembly, escalation and FAQ lookup

    A shallow embedding of the Python services of the chat backend
    ([app/utils/prompts.py], [app/services/escalation_handler.py],
    [app/services/faq_handler.py], [app/services/llm_integration.py],
    [app/services/session_manager.py], [app/config.py]) together with the
    properties of its specification.

    Conventions of the embedding.
    - A Python [str] is a Rocq [string], each character being the code point
      of that number: the texts whose code points are all below 256.
      [str.lower], [str.isspace] and [str.strip] are those of Python on that
      range.
    - The escalation detector is the one function whose answer depends on
      how Python folds code points beyond that range; it is embedded over
      lists of code points as well (module [Unicode]), and the two
      embeddings agree on the texts below 256.
    - A [datetime] is an integer number of microseconds, a [timedelta] too;
      the store keeps a [datetime] in milliseconds.
    - Code that may raise returns an [Outcome]; code that reads the clock,
      the store or the cache lock runs in the monad [M] over a [World]. *)

From Stdlib Require Import ZArith NArith QArith Ascii String List Lia Bool.
From stdpp Require Import base gmap strings list sorting.

Local Open Scope Z_scope.
Local Open Scope stdpp_scope.
#[local] Arguments String.append !s1 s2 : simpl nomatch.

(** ** Outcomes of Python code *)

Inductive Exn :=
  | IndexError
  | KeyError (key : string)
  | TypeError
  | ValueError (msg : string)
  | DuplicateKeyError
  | StoreUnavailable
  | ModelCallFailed.

(** [Hang] is a task that waits for ever (an [asyncio.Lock] it already
    holds: the lock is not reentrant). *)
Inductive Outcome (A : Type) :=
  | Ret (a : A)
  | Raise (e : Exn)
  | Hang.
Arguments Ret {A} a.
Arguments Raise {A} e.
Arguments Hang {A}.

Definition obind {A B} (o : Outcome A) (k : A -> Outcome B) : Outcome B :=
  match o with
  | Ret a => k a
  | Raise e => Raise e
  | Hang => Hang
  end.

(** ** Python strings *)

Module Py.

Definition LF : string := String (ascii_of_nat 10) EmptyString.

Definition is_upper (c : ascii) : bool :=
  let n := nat_of_ascii c in (65 <=? n)%nat && (n <=? 90)%nat.

Definition is_lower (c : ascii) : bool :=
  let n := nat_of_ascii c in (97 <=? n)%nat && (n <=? 122)%nat.

(** The capital letters of the code points 128 to 255: U+00C0 to U+00DE,
    the multiplication sign U+00D7 apart. *)
Definition is_upper_latin1 (c : ascii) : bool :=
  let n := nat_of_ascii c in
  (192 <=? n)%nat && (n <=? 222)%nat && negb (n =? 215)%nat.

(** The lower case of one character: below 256 every capital letter has
    its small letter 32 places further. *)
Definition lower_char (c : ascii) : ascii :=
  if is_upper c || is_upper_latin1 c
  then ascii_of_nat (nat_of_ascii c + 32) else c.

Definition upper_char (c : ascii) : ascii :=
  if is_lower c then ascii_of_nat (nat_of_ascii c - 32) else c.

(** [s.lower()] *)
Fixpoint lower (s : string) : string :=
  match s with
  | EmptyString => EmptyString
  | String c s' => String (lower_char c) (lower s')
  end.

(** [s.capitalize()], as the client uses it: on the names of the roles,
    which are ASCII. *)
Definition capitalize (s : string) : string :=
  match s with
  | EmptyString => EmptyString
  | String c s' => String (upper_char c) (lower s')
  end.

(** [c.isspace()], which is also the class [\s] of [re]: below 256, TAB to
    CR, FS to US, the blank, NEL (133) and the no-break space (160). *)
Definition isspace (c : ascii) : bool :=
  let n := nat_of_ascii c in
  ((9 <=? n)%nat && (n <=? 13)%nat) || ((28 <=? n)%nat && (n <=? 32)%nat)
  || (n =? 133)%nat || (n =? 160)%nat.

Fixpoint lstrip (s : string) : string :=
  match s with
  | EmptyString => EmptyString
  | String c s' => if isspace c then lstrip s' else s
  end.

Fixpoint rstrip (s : string) : string :=
  match s with
  | EmptyString => EmptyString
  | String c s' =>
      match rstrip s' with
      | EmptyString => if isspace c then EmptyString else String c EmptyString
      | t => String c t
      end
  end.

(** [s.strip()] *)
Definition strip (s : string) : string := rstrip (lstrip s).

(** [s.startswith(p)] *)
Fixpoint startswith (p s : string) : bool :=
  match p, s with
  | EmptyString, _ => true
  | String a p', String b s' => Ascii.eqb a b && startswith p' s'
  | String _ _, EmptyString => false
  end.

(** [p in s] *)
Fixpoint contains (p s : string) : bool :=
  startswith p s ||
  match s with
  | EmptyString => false
  | String _ s' => contains p s'
  end.

(** [sep.join(parts)] *)
Fixpoint join (sep : string) (parts : list string) : string :=
  match parts with
  | [] => EmptyString
  | [x] => x
  | x :: rest => x +:+ sep +:+ join sep rest
  end.

(** [range(0, n, 2)] *)
Definition range_step2 (n : nat) : list nat :=
  map (fun k => (2 * k)%nat) (seq 0 (Nat.div2 (n + 1))).

(** [l[i]] *)
Definition index {A} (l : list A) (i : nat) : Outcome A :=
  match l !! i with
  | Some x => Ret x
  | None => Raise IndexError
  end.

(** [s.split("\n")] *)
Fixpoint split_lf (s : string) : list string :=
  match s with
  | EmptyString => [EmptyString]
  | String c s' =>
      if Ascii.eqb c (ascii_of_nat 10) then EmptyString :: split_lf s'
      else
        match split_lf s' with
        | [] => [String c EmptyString]
        | x :: rest => String c x :: rest
        end
  end.

End Py.

(** ** [app/utils/prompts.py] *)

Module Prompts.

Definition ESCALATION_TRIGGER_PHRASES : list string :=
  [ "i'm unable to answer";
    "i don't know";
    "please contact support";
    "escalate";
    "sorry, i cannot assist with that";
    "not sure";
    "could you please clarify";
    "unable to help";
    "can't help";
    "try to help";
    "clarify or rephrase your question:";
    "do not have that information";
    "i'm here to assist specifically with questions about himanshu";
    "for other topics, i may have limited knowledge";
    "please clarify or ask about himanshu" ].

(** The characters that are not literals in a regular expression. *)
Definition regex_special (c : ascii) : bool :=
  existsb (Ascii.eqb c)
    (list_ascii_of_string ".^$*+?{}[]\|()").

Definition is_literal_regex (p : string) : bool :=
  negb (existsb regex_special (list_ascii_of_string p)).

(** A pattern compiled with [re.IGNORECASE] from a phrase without special
    characters: a literal, compared letter by letter after lowering. That
    is what the pattern does on the texts below 256; the module [Unicode]
    below has it on any text. *)
Record Pattern := { pattern_source : string }.

Definition re_compile_ignorecase (p : string) : Pattern :=
  {| pattern_source := p |}.

Fixpoint match_here (p s : string) : bool :=
  match p, s with
  | EmptyString, _ => true
  | String a p', String b s' =>
      Ascii.eqb (Py.lower_char a) (Py.lower_char b) && match_here p' s'
  | String _ _, EmptyString => false
  end.

(** [pattern.search(s)], as a truth value *)
Fixpoint search_from (p s : string) : bool :=
  match_here p s ||
  match s with
  | EmptyString => false
  | String _ s' => search_from p s'
  end.

Definition pattern_search (pat : Pattern) (s : string) : bool :=
  search_from (pattern_source pat) s.

Definition ESCALATION_TRIGGER_PATTERNS : list Pattern :=
  map re_compile_ignorecase ESCALATION_TRIGGER_PHRASES.

Definition fallback_indicators : list string :=
  ["sorry"; "unable to help"; "expertise is limited"; "please clarify"].

(** [is_unsatisfactory]: the verdict and the lines printed on standard
    output. *)
Definition is_unsatisfactory (response_text : string) : bool * list string :=
  if existsb (fun pattern => pattern_search pattern response_text)
       ESCALATION_TRIGGER_PATTERNS
  then (true, [])
  else
    let lowered := Py.lower response_text in
    if existsb (fun indicator => Py.contains indicator lowered)
         fallback_indicators
    then (false,
          ["Potential fallback response detected for escalation: "
             +:+ response_text])
    else (false, []).

Definition PERSONAL_PROFILE_CONTENT : string :=
  Py.LF +:+
  "Himanshu Chitoria is a Computer Science student at VIT Bhopal and pursuing a part-time Bachelor of Science in Data Science at IIT Madras. " +:+ Py.LF +:+
  "Specializes in full-stack web development, healthcare technology, and cybersecurity." +:+ Py.LF +:+
  "Skills: Python, JavaScript (React.js, Next.js), Node.js, REST APIs, MongoDB, AWS, TensorFlow, OpenCV." +:+ Py.LF +:+
  "Internships at IDEMIA, Hitachi, ValU5Healthcare involving facial recognition, AWS automation, secure healthcare APIs." +:+ Py.LF +:+
  "Notable projects: DevSync (real-time collaboration), FinSave (AI finance tracker), TrendHire (AI resume optimizer)." +:+ Py.LF +:+
  "Certifications in Data Fundamentals (IBM), Cloud Computing (NPTEL), Python Essentials (Vityarthi), and Networking (Google)." +:+ Py.LF +:+
  "Fluent in Hindi, English, and Japanese." +:+ Py.LF.

Definition system_content : string :=
  "You are the personal assistant of Himanshu Chitoria, a Computer Science student at VIT Bhopal and part-time Data Science student at IIT Madras. " +:+
  "Only answer questions related to Himanshu's skills, projects, internships, certifications, education, and interests based on the knowledge below. " +:+
  "Do NOT discuss yourself or any AI model information. Politely decline unrelated questions." +:+ Py.LF +:+
  "Knowledge base:" +:+ Py.LF +:+ PERSONAL_PROFILE_CONTENT.

(** A message is the dict [{"role": ..., "content": ...}]. *)
Record Message := { role : string; content : string }.

(** One round of the loop over [range(0, len(conversation_history), 2)]. *)
Definition prompt_step (conversation_history : list string)
    (messages : Outcome (list Message)) (i : nat) : Outcome (list Message) :=
  obind messages (fun messages =>
  obind (Py.index conversation_history i) (fun user_msg =>
  if (i + 1 <? length conversation_history)%nat then
    obind (Py.index conversation_history (i + 1)) (fun assistant_msg =>
    Ret (messages ++ [ {| role := "user"; content := user_msg |};
                       {| role := "assistant"; content := assistant_msg |} ]))
  else
    Ret (messages ++ [ {| role := "user"; content := user_msg |} ]))).

Definition build_conversational_prompt (user_query : string)
    (conversation_history : list string) : Outcome (list Message) :=
  let messages := [ {| role := "system"; content := system_content |} ] in
  obind (fold_left (prompt_step conversation_history)
           (Py.range_step2 (length conversation_history)) (Ret messages))
    (fun messages =>
       Ret (messages ++ [ {| role := "user"; content := user_query |} ])).

(** [SUMMARY_PROMPT_TEMPLATE.format(knowledge_base=..., conversation=...)] *)
Definition build_summary_prompt (conversation : string) : string :=
  "You are the personal assistant of Himanshu Chitoria. Use the following knowledge base about Himanshu to answer all questions accurately, " +:+
  "reflecting his skills, education, and projects:" +:+ Py.LF +:+
  PERSONAL_PROFILE_CONTENT +:+ Py.LF +:+ Py.LF +:+
  "Please provide a concise and clear summary of the following conversation:" +:+ Py.LF +:+
  conversation.

(** [NEXT_ACTIONS_PROMPT_TEMPLATE.format(response=...)] *)
Definition build_next_actions_prompt (response : string) : string :=
  "You are assisting users interested in Himanshu Chitoria's skills and projects. " +:+
  "Based on this response, suggest 3 actionable next steps for users to engage with Himanshu professionally:" +:+ Py.LF +:+
  response.

End Prompts.

(** ** [is_unsatisfactory] over any text

    The patterns are compiled with [re.IGNORECASE], which also takes a few
    code points beyond 255 for ASCII letters; the detector is embedded here
    over the lists of code points, with the part of the tables of Python
    that the trigger phrases (ASCII, in lower case) can meet. *)

Module Unicode.

Local Open Scope N_scope.

(** A [str] of Python: its code points. *)
Definition str := list N.

(** The text of a [string]. *)
Definition of_string (s : string) : str :=
  map N_of_ascii (list_ascii_of_string s).

Definition is_ascii_upper (c : N) : bool := (65 <=? c) && (c <=? 90).

Definition is_ascii_lower (c : N) : bool := (97 <=? c) && (c <=? 122).

(** [_sre.unicode_iscased] on ASCII: the letters. *)
Definition iscased (c : N) : bool := is_ascii_upper c || is_ascii_lower c.

(** [_sre.unicode_tolower], where its value is a code point of ASCII: on
    ASCII itself, on U+0130 (capital I with a dot above, whose lower case is
    i) and on U+212A (the Kelvin sign, whose lower case is k). No other code
    point has a lower case in ASCII. *)
Definition tolower_ascii (c : N) : option N :=
  if is_ascii_upper c then Some (c + 32)
  else if c <? 128 then Some c
  else if c =? 304 then Some 105
  else if c =? 8490 then Some 107
  else None.

(** The table [_equivalences] of [sre_compile] at the ASCII letters: the
    code points that are taken for a letter without having it as their
    lower case, U+0131 (i without dot) for i and U+017F (long s) for s. *)
Definition fixes (lo : N) : list N :=
  if lo =? 105 then [305] else if lo =? 115 then [383] else [].

(** What the literal [p] of a pattern compiled with [re.IGNORECASE] accepts.
    A literal that is not cased accepts itself. A letter accepts the code
    points whose lower case is its own lower case [lo] or one of the
    equivalents of [lo]: the engine tests [lower(c) in (lo,) + fixes[lo]],
    and an equivalent listed above is its own lower case. (The phrases are
    ASCII: a literal beyond ASCII is taken as not cased.) *)
Definition literal_ignorecase (p c : N) : bool :=
  if iscased p then
    let lo := if is_ascii_upper p then p + 32 else p in
    match tolower_ascii c with
    | Some l => l =? lo
    | None => existsb (N.eqb c) (fixes lo)
    end
  else c =? p.

Fixpoint match_here (p s : str) : bool :=
  match p, s with
  | [], _ => true
  | a :: p', b :: s' => literal_ignorecase a b && match_here p' s'
  | _ :: _, [] => false
  end.

(** [pattern.search(s)], as a truth value *)
Fixpoint search_from (p s : str) : bool :=
  match_here p s ||
  match s with
  | [] => false
  | _ :: s' => search_from p s'
  end.

Definition pattern_search (pat : Prompts.Pattern) (s : str) : bool :=
  search_from (of_string (Prompts.pattern_source pat)) s.

(** [s.startswith(p)] *)
Fixpoint startswith (p s : str) : bool :=
  match p, s with
  | [], _ => true
  | a :: p', b :: s' => (b =? a) && startswith p' s'
  | _ :: _, [] => false
  end.

(** [p in s] *)
Fixpoint contains (p s : str) : bool :=
  startswith p s ||
  match s with
  | [] => false
  | _ :: s' => contains p s'
  end.

Section WithLower.

(** [str.lower], of which nothing is assumed. *)
Variable lower : str -> str.

(** [is_unsatisfactory]: the verdict and the lines printed on standard
    output. *)
Definition is_unsatisfactory (response_text : str) : bool * list str :=
  if existsb (fun pattern => pattern_search pattern response_text)
       Prompts.ESCALATION_TRIGGER_PATTERNS
  then (true, [])
  else
    let lowered := lower response_text in
    if existsb (fun indicator => contains (of_string indicator) lowered)
         Prompts.fallback_indicators
    then (false,
          [of_string "Potential fallback response detected for escalation: "
             ++ response_text])
    else (false, []).

End WithLower.

End Unicode.

(** ** [app/services/escalation_handler.py] *)

Module EscalationHandler.

Definition NO_REPLY : string := "<No reply>".

Definition note_header (user_query : string) : list string :=
  [ "=== Escalation Alert ===";
    "An AI customer support escalation has been triggered.";
    EmptyString;
    "User Query:";
    user_query;
    EmptyString;
    "Conversation Context (most recent messages last):" ].

Definition note_footer : list string :=
  [ "Recommended Action: Escalate this issue to a human customer support agent.";
    "=======================" ].

(** One round of the loop over [range(0, len(conversation_history), 2)]. *)
Definition note_step (conversation_history : list string)
    (note_lines : Outcome (list string)) (i : nat) : Outcome (list string) :=
  obind note_lines (fun note_lines =>
  obind (Py.index conversation_history i) (fun user_msg =>
  obind (if (i + 1 <? length conversation_history)%nat
         then Py.index conversation_history (i + 1)
         else Ret NO_REPLY) (fun bot_msg =>
  Ret (note_lines ++ [ "User: " +:+ user_msg; "Bot: " +:+ bot_msg; EmptyString ])))).

Definition escalation_note_lines (user_query : string)
    (conversation_history : list string) : Outcome (list string) :=
  obind (fold_left (note_step conversation_history)
           (Py.range_step2 (length conversation_history))
           (Ret (note_header user_query)))
    (fun note_lines => Ret (note_lines ++ note_footer)).

Definition create_escalation_note (user_query : string)
    (conversation_history : list string) : Outcome string :=
  obind (escalation_note_lines user_query conversation_history)
    (fun note_lines => Ret (Py.join Py.LF note_lines)).

End EscalationHandler.

(** ** [app/services/faq_handler.py] *)

Module FAQHandler.

(** The JSON object of [faqs.json]: question to answer, keys in the order
    of the file. *)
Definition Dict := list (string * string).

Definition keys (d : Dict) : list string := map fst d.

(** [d.get(k)] *)
Fixpoint get (d : Dict) (k : string) : option string :=
  match d with
  | [] => None
  | (k', v) :: rest => if String.eqb k' k then Some v else get rest k
  end.

(** [d[k]] *)
Definition getitem (d : Dict) (k : string) : Outcome string :=
  match get d k with
  | Some v => Ret v
  | None => Raise (KeyError k)
  end.

Record Handler := {
  faq_data : Dict;
  question_list : list string;
  initialized : bool
}.

Definition __init__ : Handler :=
  {| faq_data := []; question_list := []; initialized := false |}.

(** The [try] block that reads the file: [file] is what [open],
    [json.load] and [keys()] give, [None] when one of them raises. *)
Definition load (file : option Dict) (self : Handler) : Handler :=
  match file with
  | Some d => {| faq_data := d; question_list := keys d; initialized := true |}
  | None => {| faq_data := []; question_list := []; initialized := initialized self |}
  end.

Definition initialize (file : option Dict) (self : Handler) : Handler :=
  if negb (initialized self) then load file self else self.

Definition THRESHOLD : Q := 75 # 1.

Section WithScorer.

(** [process.extractOne(query, choices, scorer=fuzz.token_set_ratio)] on
    a list of choices that is not empty: the best choice, its score (out
    of 100) and its index. *)
Variable extractOne : string -> list string -> string * Q * nat.

Definition get_faq_answer (file : option Dict) (self : Handler)
    (query : string) : Outcome (option string) * Handler :=
  let self := if negb (initialized self) then load file self else self in
  let query_trimmed := Py.strip query in
  match find (fun key => String.eqb (Py.lower key) (Py.lower query_trimmed))
          (keys (faq_data self)) with
  | Some key => (obind (getitem (faq_data self) key) (fun a => Ret (Some a)), self)
  | None =>
      match question_list self with
      | [] => (Ret None, self)
      | _ :: _ =>
          let '(best_match, score, _) :=
            extractOne query_trimmed (question_list self) in
          if Qle_bool THRESHOLD score
          then (Ret (get (faq_data self) best_match), self)
          else (Ret None, self)
      end
  end.

End WithScorer.

End FAQHandler.

(** ** [app/services/llm_integration.py] *)

Module LLMClient.

Inductive Event :=
  | EvCall (attempt : nat)
  | EvSleep (delay : Q)
  | EvPrint (line : string).

(** What one call of [generate_content] does: it answers, with a text or
    with [None] as [response.text], or it raises. *)
Inductive CallResult :=
  | Responded (text : option string)
  | Failed (e : Exn).

Record Client := { max_retries : nat; retry_delay : Q }.

(** [LLMClient(api_key=...)], as [get_llm_client] builds it. *)
Definition __init__ : Client := {| max_retries := 3; retry_delay := 2 # 1 |}.

(** The loop of [_retry_api_call] over the attempts that are left. *)
Fixpoint retry_loop (func : nat -> CallResult) (max_retries : nat)
    (attempts : list nat) (delay : Q) : Outcome (option string) * list Event :=
  match attempts with
  | [] => (Ret None, [])
  | attempt :: rest =>
      match func attempt with
      | Responded result => (Ret result, [EvCall attempt])
      | Failed e =>
          if (attempt <? max_retries)%nat then
            let '(r, log) := retry_loop func max_retries rest (Qmult delay (2 # 1)) in
            (r, EvCall attempt :: EvSleep delay :: log)
          else (Raise e, [EvCall attempt])
      end
  end.

Definition _retry_api_call (self : Client) (func : nat -> CallResult)
    : Outcome (option string) * list Event :=
  retry_loop func (max_retries self) (seq 1 (max_retries self)) (retry_delay self).

Record Reply := { text : string; escalated : bool }.

Definition ESCALATED_TEXT : string :=
  "Your query has been escalated to a human agent for assistance.".

Definition APOLOGY : string :=
  "Sorry, I'm having trouble processing your request at the moment.".

Definition render (m : Prompts.Message) : string :=
  Py.capitalize (Prompts.role m) +:+ ": " +:+ Prompts.content m.

(** [generate_response]; [model prompt attempt] is the behaviour of the
    model on the given prompt at the given attempt. *)
Definition generate_response (self : Client)
    (model : string -> nat -> CallResult)
    (user_query : string) (conversation_history : list string)
    : Outcome Reply * list Event :=
  match Prompts.build_conversational_prompt user_query conversation_history with
  | Ret messages =>
      let prompt := Py.join Py.LF (map render messages) in
      match _retry_api_call self (model prompt) with
      | (Ret (Some response_text), log) =>
          let '(verdict, printed) := Prompts.is_unsatisfactory response_text in
          if verdict
          then (Ret {| text := ESCALATED_TEXT; escalated := true |},
                log ++ map EvPrint printed)
          else (Ret {| text := response_text; escalated := false |},
                log ++ map EvPrint printed)
      | (Ret None, log) =>
          (* [pattern.search(None)] raises TypeError, caught below *)
          (Ret {| text := APOLOGY; escalated := false |}, log)
      | (Raise _, log) => (Ret {| text := APOLOGY; escalated := false |}, log)
      | (Hang, log) => (Hang, log)
      end
  | Raise e => (Raise e, [])
  | Hang => (Hang, [])
  end.

(** The fallback texts of [summarize_session]. *)
Definition NO_SUMMARY : string := "No summary available.".
Definition SUMMARY_FAILED : string := "Unable to generate summary at this time.".

(** [x or default] on an optional string: [None] and the empty string are
    false. *)
Definition or_default (x : option string) (default : string) : string :=
  match x with
  | Some (String c s) => String c s
  | _ => default
  end.

(** [summarize_session]: the inner [call] gives [response.text or "No
    summary available."]; the result is [None] only when the loop of
    [_retry_api_call] makes no round. *)
Definition summarize_session (self : Client)
    (model : string -> nat -> CallResult) (conversation : string)
    : Outcome (option string) * list Event :=
  let prompt := Prompts.build_summary_prompt conversation in
  let call := fun attempt =>
    match model prompt attempt with
    | Responded t => Responded (Some (or_default t NO_SUMMARY))
    | Failed e => Failed e
    end in
  match _retry_api_call self call with
  | (Ret r, log) => (Ret r, log)
  | (Raise _, log) => (Ret (Some SUMMARY_FAILED), log)
  | (Hang, log) => (Hang, log)
  end.

(** [[s.strip() for s in suggested.split("\n") if s.strip()]] *)
Definition suggestion_lines (suggested : string) : list string :=
  map Py.strip
    (List.filter (fun s => negb (String.eqb (Py.strip s) EmptyString))
       (Py.split_lf suggested)).


End LLMClient.

(** ** [app/config.py] *)

Module Config.

Record Settings := { session_expiration_minutes : Z }.

(** The default of [Field(1440, env="SESSION_EXPIRATION_MINUTES")]. *)
Definition default_settings : Settings :=
  {| session_expiration_minutes := 1440 |}.

End Config.

(** ** [app/services/session_manager.py] *)

Module SessionManager.

Definition timedelta_days (d : Z) : Z := d * 86400000000.
Definition timedelta_minutes (m : Z) : Z := m * 60000000.

Record Session := {
  session_id : string;
  created_at : Z;
  query_history : list string
}.

(** A document of [sessions_collection], under its [_id]; a key that the
    document does not have is [None]. *)
Record SessionDoc := {
  doc_created_at : option Z;
  doc_last_active_at : option Z;
  doc_conversation_history : option (list string);
  doc_contextual_memory : option (list string)
}.

(** A document of [conversations_collection]. *)
Record ConversationDoc := {
  conv_session_id : string;
  conv_user_query : option string;
  conv_bot_response : option string;
  conv_timestamp : Z
}.

Inductive Event :=
  | Acquire
  | Release
  | CacheMutation
  | StoreOp (name : string).

(** What the process reads from outside: the successive values of
    [datetime.utcnow()] and of [uuid4()], and whether the n-th call to the
    store fails with a connectivity error. *)
Record Env := {
  clock : nat -> Z;
  uuids : nat -> string;
  faults : nat -> bool
}.

Record World := {
  _sessions : gmap string Session;
  _lock : bool;
  _expiration_delta : Z;
  sessions_collection : gmap string SessionDoc;
  conversations_collection : list ConversationDoc;
  env : Env;
  clock_reads : nat;
  uuid_reads : nat;
  store_calls : nat;
  trace : list Event
}.

Definition set_sessions (f : gmap string Session -> gmap string Session)
    (w : World) : World :=
  {| _sessions := f (_sessions w); _lock := _lock w;
     _expiration_delta := _expiration_delta w;
     sessions_collection := sessions_collection w;
     conversations_collection := conversations_collection w;
     env := env w; clock_reads := clock_reads w; uuid_reads := uuid_reads w;
     store_calls := store_calls w; trace := trace w |}.

Definition set_lock (b : bool) (w : World) : World :=
  {| _sessions := _sessions w; _lock := b;
     _expiration_delta := _expiration_delta w;
     sessions_collection := sessions_collection w;
     conversations_collection := conversations_collection w;
     env := env w; clock_reads := clock_reads w; uuid_reads := uuid_reads w;
     store_calls := store_calls w; trace := trace w |}.

Definition set_sessions_collection
    (f : gmap string SessionDoc -> gmap string SessionDoc) (w : World) : World :=
  {| _sessions := _sessions w; _lock := _lock w;
     _expiration_delta := _expiration_delta w;
     sessions_collection := f (sessions_collection w);
     conversations_collection := conversations_collection w;
     env := env w; clock_reads := clock_reads w; uuid_reads := uuid_reads w;
     store_calls := store_calls w; trace := trace w |}.

Definition set_conversations_collection
    (f : list ConversationDoc -> list ConversationDoc) (w : World) : World :=
  {| _sessions := _sessions w; _lock := _lock w;
     _expiration_delta := _expiration_delta w;
     sessions_collection := sessions_collection w;
     conversations_collection := f (conversations_collection w);
     env := env w; clock_reads := clock_reads w; uuid_reads := uuid_reads w;
     store_calls := store_calls w; trace := trace w |}.

Definition set_clock_reads (n : nat) (w : World) : World :=
  {| _sessions := _sessions w; _lock := _lock w;
     _expiration_delta := _expiration_delta w;
     sessions_collection := sessions_collection w;
     conversations_collection := conversations_collection w;
     env := env w; clock_reads := n; uuid_reads := uuid_reads w;
     store_calls := store_calls w; trace := trace w |}.

Definition set_uuid_reads (n : nat) (w : World) : World :=
  {| _sessions := _sessions w; _lock := _lock w;
     _expiration_delta := _expiration_delta w;
     sessions_collection := sessions_collection w;
     conversations_collection := conversations_collection w;
     env := env w; clock_reads := clock_reads w; uuid_reads := n;
     store_calls := store_calls w; trace := trace w |}.

Definition set_store_calls (n : nat) (w : World) : World :=
  {| _sessions := _sessions w; _lock := _lock w;
     _expiration_delta := _expiration_delta w;
     sessions_collection := sessions_collection w;
     conversations_collection := conversations_collection w;
     env := env w; clock_reads := clock_reads w; uuid_reads := uuid_reads w;
     store_calls := n; trace := trace w |}.

Definition log (e : Event) (w : World) : World :=
  {| _sessions := _sessions w; _lock := _lock w;
     _expiration_delta := _expiration_delta w;
     sessions_collection := sessions_collection w;
     conversations_collection := conversations_collection w;
     env := env w; clock_reads := clock_reads w; uuid_reads := uuid_reads w;
     store_calls := store_calls w; trace := trace w ++ [e] |}.

(** [SessionManager()] in a process with the given settings and store: the
    expiration window is the constant of [__init__], ten years. *)
Definition __init__ (settings : Config.Settings)
    (sessions : gmap string SessionDoc) (conversations : list ConversationDoc)
    (e : Env) : World :=
  {| _sessions := ∅; _lock := false;
     _expiration_delta := timedelta_days (365 * 10);
     sessions_collection := sessions;
     conversations_collection := conversations;
     env := e; clock_reads := 0; uuid_reads := 0; store_calls := 0;
     trace := [] |}.

(** *** The monad of the coroutines *)

Definition M (A : Type) : Type := World -> Outcome A * World.

Definition ret {A} (a : A) : M A := fun w => (Ret a, w).

Definition raise {A} (e : Exn) : M A := fun w => (Raise e, w).

Definition bind {A B} (m : M A) (k : A -> M B) : M B := fun w =>
  match m w with
  | (Ret a, w') => k a w'
  | (Raise e, w') => (Raise e, w')
  | (Hang, w') => (Hang, w')
  end.

Notation "x <- m ;; k" := (bind m (fun x => k))
  (at level 100, m at next level, right associativity).
Notation "m ;;; k" := (bind m (fun _ => k))
  (at level 100, right associativity).

(** [async with self._lock: body]. The lock is not reentrant: a task that
    asks for it while it is held waits, and waits for ever when the holder
    is the task itself. The lock is released when the body returns or
    raises. *)
Definition with_lock {A} (body : M A) : M A := fun w =>
  if _lock w then (Hang, w)
  else
    match body (log Acquire (set_lock true w)) with
    | (Hang, w') => (Hang, w')
    | (r, w') => (r, log Release (set_lock false w'))
    end.

(** [datetime.utcnow()] *)
Definition utcnow : M Z := fun w =>
  (Ret (clock (env w) (clock_reads w)), set_clock_reads (S (clock_reads w)) w).

(** [str(uuid4())] *)
Definition uuid4 : M string := fun w =>
  (Ret (uuids (env w) (uuid_reads w)), set_uuid_reads (S (uuid_reads w)) w).

(** A call to the store: it is recorded, and fails when the environment
    says so. *)
Definition store_call {A} (name : string) (action : M A) : M A := fun w =>
  let n := store_calls w in
  let w' := set_store_calls (S n) (log (StoreOp name) w) in
  if faults (env w) n then (Raise StoreUnavailable, w') else action w'.

(** *** The cache [self._sessions] *)

Definition cache_get (session_id : string) : M (option Session) := fun w =>
  (Ret (_sessions w !! session_id), w).

Definition cache_set (session_id : string) (s : Session) : M unit := fun w =>
  (Ret tt, log CacheMutation (set_sessions (insert session_id s) w)).

Definition cache_del (session_id : string) : M unit := fun w =>
  (Ret tt, log CacheMutation (set_sessions (delete session_id) w)).

Definition append_history (x : string) (s : Session) : Session :=
  {| session_id := session_id s; created_at := created_at s;
     query_history := query_history s ++ [x] |}.

(** [session.query_history.append(x)] on the session object that the cache
    holds under [session_id]. *)
Definition history_append (session_id : string) (x : string) : M unit := fun w =>
  (Ret tt, log CacheMutation (set_sessions (alter (append_history x) session_id) w)).

(** *** The store *)

(** The store keeps a [datetime] as a number of milliseconds: what a
    [datetime] of Python has below the millisecond is dropped when the
    document is written. *)
Definition bson_datetime (t : Z) : Z := t / 1000 * 1000.

(** The documents as the store keeps them. *)
Definition bson_session_doc (doc : SessionDoc) : SessionDoc :=
  {| doc_created_at := bson_datetime <$> doc_created_at doc;
     doc_last_active_at := bson_datetime <$> doc_last_active_at doc;
     doc_conversation_history := doc_conversation_history doc;
     doc_contextual_memory := doc_contextual_memory doc |}.

Definition bson_conversation_doc (doc : ConversationDoc) : ConversationDoc :=
  {| conv_session_id := conv_session_id doc;
     conv_user_query := conv_user_query doc;
     conv_bot_response := conv_bot_response doc;
     conv_timestamp := bson_datetime (conv_timestamp doc) |}.

Definition sessions_insert_one (id : string) (doc : SessionDoc) : M unit :=
  store_call "sessions.insert_one" (fun w =>
    match sessions_collection w !! id with
    | Some _ => (Raise DuplicateKeyError, w)
    | None =>
        (Ret tt, set_sessions_collection (insert id (bson_session_doc doc)) w)
    end).

Definition sessions_find_one (id : string) : M (option SessionDoc) :=
  store_call "sessions.find_one" (fun w =>
    (Ret (sessions_collection w !! id), w)).

Definition set_last_active_at (t : Z) (doc : SessionDoc) : SessionDoc :=
  {| doc_created_at := doc_created_at doc;
     doc_last_active_at := Some t;
     doc_conversation_history := doc_conversation_history doc;
     doc_contextual_memory := doc_contextual_memory doc |}.

(** [update_one({"_id": id}, {"$set": {"last_active_at": t}})] *)
Definition sessions_update_last_active (id : string) (t : Z) : M unit :=
  store_call "sessions.update_one" (fun w =>
    (Ret tt,
     set_sessions_collection
       (alter (set_last_active_at (bson_datetime t)) id) w)).

Definition sessions_delete_one (id : string) : M unit :=
  store_call "sessions.delete_one" (fun w =>
    (Ret tt, set_sessions_collection (delete id) w)).

Definition conversations_insert_one (doc : ConversationDoc) : M unit :=
  store_call "conversations.insert_one" (fun w =>
    (Ret tt,
     set_conversations_collection (fun l => l ++ [bson_conversation_doc doc]) w)).

Definition of_session (id : string) (doc : ConversationDoc) : bool :=
  String.eqb (conv_session_id doc) id.

Fixpoint insert_by_timestamp (d : ConversationDoc) (l : list ConversationDoc)
    : list ConversationDoc :=
  match l with
  | [] => [d]
  | x :: rest =>
      if conv_timestamp d <=? conv_timestamp x then d :: l
      else x :: insert_by_timestamp d rest
  end.

(** [.sort("timestamp")], ascending; entries of the same timestamp are
    left in the order in which the collection holds them (the store makes no
    promise about them, and no property below depends on it). *)
Definition sort_by_timestamp (l : list ConversationDoc) : list ConversationDoc :=
  fold_right insert_by_timestamp [] l.

(** [find({"session_id": id}).sort("timestamp").to_list(length=None)] *)
Definition conversations_find_sorted (id : string) : M (list ConversationDoc) :=
  store_call "conversations.find" (fun w =>
    (Ret (sort_by_timestamp (List.filter (of_session id) (conversations_collection w))), w)).

Definition conversations_delete_many (id : string) : M unit :=
  store_call "conversations.delete_many" (fun w =>
    (Ret tt,
     set_conversations_collection
       (List.filter (fun d => negb (of_session id d))) w)).

(** *** The operations *)

Definition create_session : M Session :=
  with_lock (
    session_id <- uuid4 ;;
    now <- utcnow ;;
    let session :=
      {| session_id := session_id; created_at := now; query_history := [] |} in
    cache_set session_id session ;;;
    let session_doc :=
      {| doc_created_at := Some now; doc_last_active_at := Some now;
         doc_conversation_history := Some [];
         doc_contextual_memory := None |} in
    sessions_insert_one session_id session_doc ;;;
    ret session).

Definition delete_session (session_id : string) : M unit :=
  with_lock (
    session <- cache_get session_id ;;
    match session with
    | Some _ => cache_del session_id
    | None => ret tt
    end) ;;;
  sessions_delete_one session_id ;;;
  conversations_delete_many session_id.

(** One round of the loop that rebuilds the history from the entries. *)
Definition history_step (history : list string) (entry : ConversationDoc)
    : list string :=
  let history :=
    match conv_user_query entry with
    | Some q => history ++ [q]
    | None => history
    end in
  match conv_bot_response entry with
  | Some r => history ++ [r]
  | None => history
  end.

Definition get_session (session_id : string) : M (option Session) :=
  (* the first block returns [Some result] when it returns from the function *)
  returned <- with_lock (
    session <- cache_get session_id ;;
    match session with
    | Some session =>
        now <- utcnow ;;
        expiration_delta <- (fun w => (Ret (_expiration_delta w), w)) ;;
        if now - created_at session >? expiration_delta then
          delete_session session_id ;;;
          ret (Some None)
        else ret (Some (Some session))
    | None => ret None
    end) ;;
  match returned with
  | Some result => ret result
  | None =>
      session_doc <- sessions_find_one session_id ;;
      match session_doc with
      | None => ret None
      | Some session_doc =>
          conversation_docs <- conversations_find_sorted session_id ;;
          let history := fold_left history_step conversation_docs [] in
          match doc_created_at session_doc with
          | None => raise (KeyError "created_at")
          | Some created =>
              let loaded_session :=
                {| session_id := session_id; created_at := created;
                   query_history := history |} in
              with_lock (cache_set session_id loaded_session) ;;;
              ret (Some loaded_session)
          end
      end
  end.

Definition add_to_conversation (session_id user_query bot_response : string)
    : M unit :=
  with_lock (
    session <- cache_get session_id ;;
    match session with
    | Some _ => ret tt
    | None =>
        session <- get_session session_id ;;
        match session with
        | Some _ => ret tt
        | None => raise (ValueError "Session not found")
        end
    end ;;;
    history_append session_id user_query ;;;
    history_append session_id bot_response) ;;;
  now <- utcnow ;;
  let conversation_doc :=
    {| conv_session_id := session_id;
       conv_user_query := Some user_query;
       conv_bot_response := Some bot_response;
       conv_timestamp := now |} in
  conversations_insert_one conversation_doc ;;;
  now <- utcnow ;;
  sessions_update_last_active session_id now.

(** A sequence of turns, one [add_to_conversation] each. *)
Fixpoint add_turns (session_id : string) (turns : list (string * string))
    : M unit :=
  match turns with
  | [] => ret tt
  | (user_query, bot_response) :: rest =>
      add_to_conversation session_id user_query bot_response ;;;
      add_turns session_id rest
  end.

(** The session leaves the cache and stays in the store (the process
    starts again, or the entry is dropped). *)
Definition evict (session_id : string) (w : World) : World :=
  set_sessions (delete session_id) w.

(** No call to the store between an [Acquire] and its [Release]. *)
Fixpoint no_store_under_lock (held : bool) (tr : list Event) : bool :=
  match tr with
  | [] => true
  | Acquire :: rest => no_store_under_lock true rest
  | Release :: rest => no_store_under_lock false rest
  | CacheMutation :: rest => no_store_under_lock held rest
  | StoreOp _ :: rest => negb held && no_store_under_lock held rest
  end.

(** Every mutation of the cache between an [Acquire] and its [Release]. *)
Fixpoint cache_under_lock (held : bool) (tr : list Event) : bool :=
  match tr with
  | [] => true
  | Acquire :: rest => cache_under_lock true rest
  | Release :: rest => cache_under_lock false rest
  | CacheMutation :: rest => held && cache_under_lock held rest
  | StoreOp _ :: rest => cache_under_lock held rest
  end.

(** *** The other operations *)

Definition hang {A} : M A := fun w => (Hang, w).

Definition empty_doc : SessionDoc :=
  {| doc_created_at := None; doc_last_active_at := None;
     doc_conversation_history := None; doc_contextual_memory := None |}.

Definition set_contextual_memory (items : list string) (doc : SessionDoc)
    : SessionDoc :=
  {| doc_created_at := doc_created_at doc;
     doc_last_active_at := doc_last_active_at doc;
     doc_conversation_history := doc_conversation_history doc;
     doc_contextual_memory := Some items |}.

(** [update_one({"_id": id}, {"$set": {"contextual_memory": items}},
    upsert=True)]: a document that does not exist is created, with its
    [_id] and the memory only. *)
Definition sessions_upsert_contextual_memory (id : string) (items : list string)
    : M unit :=
  store_call "sessions.update_one" (fun w =>
    (Ret tt,
     set_sessions_collection
       (fun m =>
          match m !! id with
          | Some doc => <[id := set_contextual_memory items doc]> m
          | None => <[id := set_contextual_memory items empty_doc]> m
          end) w)).

Definition get_contextual_memory (session_id : string) : M (list string) :=
  memories_docs <- sessions_find_one session_id ;;
  match memories_docs with
  | None => ret []
  | Some doc =>
      match doc_contextual_memory doc with
      | None => ret []
      | Some memory => ret memory
      end
  end.

Definition store_contextual_memory (session_id : string)
    (memory_items : list string) : M unit :=
  sessions_upsert_contextual_memory session_id memory_items.

Definition store_session_summary (session_id summary_text : string) : M unit :=
  existing_memory <- get_contextual_memory session_id ;;
  let updated_memory := existing_memory ++ ["Summary: " +:+ summary_text] in
  store_contextual_memory session_id updated_memory.

Definition get_conversation_history (session_id : string) : M (list string) :=
  session <- with_lock (cache_get session_id) ;;
  match session with
  | Some session => ret (query_history session)
  | None =>
      conversation_docs <- conversations_find_sorted session_id ;;
      ret (fold_left history_step conversation_docs [])
  end.

End SessionManager.

(** ** [app/utils/helpers.py] *)

Module Helpers.





Inductive Event :=
  | EvCall (attempt : nat)
  | EvSleep (delay_sec : Z).

(** The loop of [async_repeat_retry] over the attempts that are left; a call
    gives its value or raises. *)
Fixpoint repeat_loop {A} (func : nat -> Exn + A) (retries : nat)
    (attempts : list nat) (delay_sec : Z) : Outcome (option A) * list Event :=
  match attempts with
  | [] => (Ret None, [])
  | attempt :: rest =>
      match func attempt with
      | inr result => (Ret (Some result), [EvCall attempt])
      | inl e =>
          if (attempt =? retries - 1)%nat then (Raise e, [EvCall attempt])
          else
            let '(r, log) := repeat_loop func retries rest delay_sec in
            (r, EvCall attempt :: EvSleep delay_sec :: log)
      end
  end.

Definition async_repeat_retry {A} (func : nat -> Exn + A) (retries : nat)
    (delay_sec : Z) : Outcome (option A) * list Event :=
  repeat_loop func retries (seq 0 retries) delay_sec.

End Helpers.

(** ** [app/api/routes.py] *)

Module Routes.

Import SessionManager.

Record QueryRequest := {
  query : string;
  request_session_id : option string
}.

Record QueryResponse := {
  response : string;
  response_session_id : string;
  response_escalated : bool
}.

(** What the handler gives to the framework: its value, or the
    [HTTPException] it raises. *)
Inductive Http (A : Type) :=
  | Ok (a : A)
  | HTTPException (status_code : nat) (detail : string).
Arguments Ok {A} a.
Arguments HTTPException {A} status_code detail.

(** The answer of a handler, the calls and sleeps of the model client, and
    the notes handed to [notify_support_team] in tasks of their own. *)
Record Handled := {
  reply : Http QueryResponse;
  llm_log : list LLMClient.Event;
  notified : list string
}.

Definition BOT_GREETING : string :=
  "Hello! How can I assist you today? (This model is still under development, so please excuse any limitations. If found some bug, please escalate the issue by simply asking to escalate.)".

(** [if faq_answer:] *)
Definition truthy (x : option string) : bool :=
  match x with
  | Some (String _ _) => true
  | _ => false
  end.

Definition lift {A} (o : Outcome A) : M A := fun w => (o, w).

Section WithCollaborators.

(** The scorer of the FAQ handler, the content of the FAQ file as the
    handler of this request finds it, and the behaviour of the model. *)
Variable extractOne : string -> list string -> string * Q * nat.
Variable faq_file : option FAQHandler.Dict.
Variable model : string -> nat -> LLMClient.CallResult.

Definition handle_query (request : QueryRequest) : M Handled :=
  session <-
    match request_session_id request with
    | Some session_id_str => get_session session_id_str
    | None => s <- create_session ;; ret (Some s)
    end ;;
  match session with
  | None =>
      ret {| reply := HTTPException 404 "Session not found.";
             llm_log := []; notified := [] |}
  | Some session =>
      faq_answer <-
        lift (fst (FAQHandler.get_faq_answer extractOne faq_file
                     FAQHandler.__init__ (query request))) ;;
      if truthy faq_answer then
        let response_text := default EmptyString faq_answer in
        add_to_conversation (session_id session) (query request) response_text ;;;
        ret {| reply := Ok {| response := response_text;
                              response_session_id := session_id session;
                              response_escalated := false |};
               llm_log := []; notified := [] |}
      else
        conversation_history <- get_conversation_history (session_id session) ;;
        contextual_memory <- get_contextual_memory (session_id session) ;;
        let full_context := contextual_memory ++ conversation_history in
        let '(llm_outcome, log) :=
          LLMClient.generate_response LLMClient.__init__ model
            (query request) full_context in
        llm_result <- lift llm_outcome ;;
        if LLMClient.escalated llm_result then
          escalation_note <-
            lift (EscalationHandler.create_escalation_note (query request)
                    conversation_history) ;;
          add_to_conversation (session_id session) (query request) escalation_note ;;;
          ret {| reply := Ok {| response := escalation_note;
                                response_session_id := session_id session;
                                response_escalated := true |};
                 llm_log := log; notified := [escalation_note] |}
        else
          add_to_conversation (session_id session) (query request)
            (LLMClient.text llm_result) ;;;
          ret {| reply := Ok {| response := LLMClient.text llm_result;
                                response_session_id := session_id session;
                                response_escalated := false |};
                 llm_log := log; notified := [] |}
  end.

End WithCollaborators.

(** [create_session_with_greeting]: the identifier of the new session. *)
Definition create_session_with_greeting : M string :=
  session <- create_session ;;
  add_to_conversation (session_id session) EmptyString BOT_GREETING ;;;
  ret (session_id session).

End Routes.

(** * Vocabulary of the specification *)

(** [mid] occurs in [s] *)
Definition occurs (mid s : string) : Prop :=
  exists pre post, s = pre +:+ mid +:+ post.

(** [p] occurs in [s] up to the case of the letters *)
Definition occurs_ignorecase (p s : string) : Prop :=
  exists mid, occurs mid s /\ Py.lower mid = Py.lower p.

(** The code point that [re.IGNORECASE] compares with the letters of a
    phrase written in ASCII and in lower case: a capital of ASCII stands for
    its small letter, U+0130 and U+0131 stand for i, U+017F for s, U+212A for
    k, and any other code point for itself. *)
Definition fold (c : N) : N :=
  if ((65 <=? c) && (c <=? 90))%N then (c + 32)%N
  else if ((c =? 304) || (c =? 305))%N then 105%N
  else if (c =? 383)%N then 115%N
  else if (c =? 8490)%N then 107%N
  else c.

(** A text of code points below 128 without capitals, as every trigger
    phrase is. *)
Definition plain_phrase (p : Unicode.str) : bool :=
  forallb (fun a => (a <? 128)%N && negb (Unicode.is_ascii_upper a)) p.


(** The role of the item at position [i] of a history: the user speaks
    first, the assistant answers. *)
Definition role_of_index (i : nat) : string :=
  if Nat.even i then "user" else "assistant".

Definition message_of_index (i : nat) (x : string) : Prompts.Message :=
  {| Prompts.role := role_of_index i; Prompts.content := x |}.

(** A flat history cut in pairs, the reply of a last message that has none
    being the sentinel. *)
Fixpoint pairs_with_sentinel (h : list string) : list (string * string) :=
  match h with
  | [] => []
  | [x] => [(x, EscalationHandler.NO_REPLY)]
  | x :: y :: rest => (x, y) :: pairs_with_sentinel rest
  end.

Definition render_pair (p : string * string) : list string :=
  [ "User: " +:+ fst p; "Bot: " +:+ snd p; EmptyString ].

(** A loop over the pairs of a list, as a recursion on the list. *)
Fixpoint by_pairs {B} (g2 : string -> string -> list B) (g1 : string -> list B)
    (h : list string) : list B :=
  match h with
  | [] => []
  | [x] => g1 x
  | x :: y :: rest => g2 x y ++ by_pairs g2 g1 rest
  end.

(** The text handed to the model for a query and a history. *)
Definition prompt_text (user_query : string) (h : list string) : string :=
  Py.join Py.LF
    (map LLMClient.render
       ({| Prompts.role := "system"; Prompts.content := Prompts.system_content |}
          :: imap message_of_index h
          ++ [ {| Prompts.role := "user"; Prompts.content := user_query |} ])).

(** Calls separated by sleeps, each sleep twice as long as the one before. *)
Fixpoint backoff_log (attempts : list nat) (delay : Q) : list LLMClient.Event :=
  match attempts with
  | [] => []
  | [a] => [LLMClient.EvCall a]
  | a :: rest =>
      LLMClient.EvCall a :: LLMClient.EvSleep delay
        :: backoff_log rest (Qmult delay (2 # 1))
  end.

(** What [generate_response] makes of the answer of the model: the text of
    the model when the detector accepts it, the escalation text when it does
    not, the apology when the answer has no text; and what it lets the
    detector print. *)
Definition reply_for (answer : option string) : LLMClient.Reply :=
  match answer with
  | Some response_text =>
      if fst (Prompts.is_unsatisfactory response_text)
      then {| LLMClient.text := LLMClient.ESCALATED_TEXT; LLMClient.escalated := true |}
      else {| LLMClient.text := response_text; LLMClient.escalated := false |}
  | None => {| LLMClient.text := LLMClient.APOLOGY; LLMClient.escalated := false |}
  end.

Definition printed_for (answer : option string) : list LLMClient.Event :=
  match answer with
  | Some response_text =>
      map LLMClient.EvPrint (snd (Prompts.is_unsatisfactory response_text))
  | None => []
  end.

(** A handler keeps the list of its questions in step with its data. *)
Definition handler_wf (self : FAQHandler.Handler) : Prop :=
  FAQHandler.question_list self = FAQHandler.keys (FAQHandler.faq_data self).

(** The store answers every call. *)
Definition healthy (e : SessionManager.Env) : Prop :=
  forall n, SessionManager.faults e n = false.

Definition later (a b : SessionManager.ConversationDoc) : Prop :=
  SessionManager.conv_timestamp a < SessionManager.conv_timestamp b.

Definition not_later (a b : SessionManager.ConversationDoc) : Prop :=
  SessionManager.conv_timestamp a <= SessionManager.conv_timestamp b.

(** The times that [n] turns in a row read on the clock for their entries,
    the first turn making the reading number [first]: a turn reads the clock
    twice, for its entry and then for [last_active_at]. *)
Definition turn_times (e : SessionManager.Env) (first n : nat) : list Z :=
  map (fun i => SessionManager.clock e (first + 2 * i)) (seq 0 n).

(** A time in microseconds, cut to the millisecond. *)
Definition cut_to_milliseconds (t : Z) : Z := t / 1000 * 1000.

(** The turns, each with the timestamp that the store keeps for it. *)
Definition stamped_turns (e : SessionManager.Env) (first : nat)
    (turns : list (string * string)) : list ((string * string) * Z) :=
  zip turns (map cut_to_milliseconds (turn_times e first (length turns))).

Definition by_stamp (a b : (string * string) * Z) : Prop := snd a <= snd b.

(** The entry of a turn in the store, and back. *)
Definition entry_of_turn (sid : string) (x : (string * string) * Z)
    : SessionManager.ConversationDoc :=
  {| SessionManager.conv_session_id := sid;
     SessionManager.conv_user_query := Some (fst (fst x));
     SessionManager.conv_bot_response := Some (snd (fst x));
     SessionManager.conv_timestamp := snd x |}.

Definition turn_of_entry (d : SessionManager.ConversationDoc)
    : (string * string) * Z :=
  ((default EmptyString (SessionManager.conv_user_query d),
    default EmptyString (SessionManager.conv_bot_response d)),
   SessionManager.conv_timestamp d).

(** The entries of a session in the store, in the order of their insertion. *)
Definition stored_entries (sid : string) (w : SessionManager.World)
    : list SessionManager.ConversationDoc :=
  List.filter (SessionManager.of_session sid) (SessionManager.conversations_collection w).

(** The history of a flat list of turns. *)
Definition flatten_turns (turns : list (string * string)) : list string :=
  flat_map (fun t => [fst t; snd t]) turns.


(** A coroutine that leaves the expiration window of the manager alone. *)
Definition keeps_window {A} (m : SessionManager.M A) : Prop :=
  forall w,
    SessionManager._expiration_delta (snd (m w)) = SessionManager._expiration_delta w.

(** *** Shapes of texts *)

(** Every character of [s] passes the test [P]. *)
Fixpoint string_forall (P : ascii -> bool) (s : string) : bool :=
  match s with
  | EmptyString => true
  | String c s' => P c && string_forall P s'
  end.

(** [s] does not begin with white space. *)
Definition starts_clean (s : string) : bool :=
  match s with
  | EmptyString => true
  | String c _ => negb (Py.isspace c)
  end.

(** [s] does not end with white space. *)
Fixpoint ends_clean (s : string) : bool :=
  match s with
  | EmptyString => true
  | String c EmptyString => negb (Py.isspace c)
  | String _ s' => ends_clean s'
  end.


Definition is_lf (c : ascii) : bool := Ascii.eqb c (ascii_of_nat 10).

(** Calls separated by sleeps that all last [delay_sec]. *)
Fixpoint steady_log (attempts : list nat) (delay_sec : Z) : list Helpers.Event :=
  match attempts with
  | [] => []
  | [a] => [Helpers.EvCall a]
  | a :: rest =>
      Helpers.EvCall a :: Helpers.EvSleep delay_sec :: steady_log rest delay_sec
  end.

(** The function fails at every attempt from [a] to [b - 1]. *)
Definition fails_between {A} (func : nat -> Exn + A) (a b : nat) : Prop :=
  forall j, (a <= j < b)%nat -> exists e, func j = inl e.

Definition model_fails_between (func : nat -> LLMClient.CallResult) (a b : nat)
    : Prop :=
  forall j, (a <= j < b)%nat -> exists e, func j = LLMClient.Failed e.

(** A coroutine that, when it returns or raises, leaves the cache lock as
    it found it. *)
Definition lock_neutral {A} (m : SessionManager.M A) : Prop :=
  forall w,
    fst (m w) <> Hang ->
    SessionManager._lock (snd (m w)) = SessionManager._lock w.

(** The contextual memory that a document of the store holds. *)
Definition memory_of (doc : option SessionManager.SessionDoc) : list string :=
  match doc with
  | Some d => default [] (SessionManager.doc_contextual_memory d)
  | None => []
  end.

(** The history that the store holds for a session: its entries by
    timestamp, each one as its query then its response. *)
Definition stored_history (sid : string) (w : SessionManager.World) : list string :=
  fold_left SessionManager.history_step
    (SessionManager.sort_by_timestamp (stored_entries sid w)) [].

(** Several summaries stored one after the other. *)
Fixpoint store_summaries (sid : string) (summaries : list string)
    : SessionManager.M unit :=
  match summaries with
  | [] => SessionManager.ret tt
  | t :: rest =>
      SessionManager.bind (SessionManager.store_session_summary sid t)
        (fun _ => store_summaries sid rest)
  end.

(** What [handle_query] leaves behind when it has answered a query in the
    session [s], starting from the world [w1] in which the session was
    resolved: an answer for that session, the lock free, the pair (query,
    response) appended to the history of the session in the cache, and one
    new entry with that pair in the store. *)
Definition turn_persisted (request : Routes.QueryRequest)
    (s : SessionManager.Session) (w1 : SessionManager.World)
    (handled : Routes.Handled) (w' : SessionManager.World) : Prop :=
  exists resp,
    Routes.reply handled = Routes.Ok resp /\
    Routes.response_session_id resp = SessionManager.session_id s /\
    SessionManager._lock w' = false /\
    SessionManager._sessions w' !! SessionManager.session_id s =
      Some {| SessionManager.session_id := SessionManager.session_id s;
              SessionManager.created_at := SessionManager.created_at s;
              SessionManager.query_history :=
                SessionManager.query_history s
                ++ [Routes.query request; Routes.response resp] |} /\
    exists t,
      SessionManager.conversations_collection w' =
        SessionManager.conversations_collection w1 ++
        [ {| SessionManager.conv_session_id := SessionManager.session_id s;
             SessionManager.conv_user_query := Some (Routes.query request);
             SessionManager.conv_bot_response := Some (Routes.response resp);
             SessionManager.conv_timestamp := t |} ].

(** How the answer of [handle_query] came about, for the FAQ answer [faq]
    of the query: from the FAQ without the model, from the model, or as an
    escalation note that is also handed to the support team. *)
Definition answer_explained (request : Routes.QueryRequest)
    (s : SessionManager.Session) (faq : option string)
    (handled : Routes.Handled) : Prop :=
  exists resp,
    Routes.reply handled = Routes.Ok resp /\
    if Routes.truthy faq then
      faq = Some (Routes.response resp) /\
      Routes.response_escalated resp = false /\
      Routes.llm_log handled = [] /\
      Routes.notified handled = []
    else if Routes.response_escalated resp then
      EscalationHandler.create_escalation_note (Routes.query request)
        (SessionManager.query_history s) = Ret (Routes.response resp) /\
      Routes.notified handled = [Routes.response resp]
    else
      Routes.notified handled = [].

(** *** Sample inputs *)

(** A process whose clock ticks one microsecond at a reading, whose store
    fails at the calls that [down] names, and whose store is empty. *)
Definition sample_env (down : nat -> bool) : SessionManager.Env :=
  {| SessionManager.clock := fun n => Z.of_nat n;
     SessionManager.uuids := fun _ => "s1";
     SessionManager.faults := down |}.

Definition sample_world (down : nat -> bool) : SessionManager.World :=
  SessionManager.__init__ Config.default_settings ∅ [] (sample_env down).

(** A process whose clock is read every millisecond, from 7 microseconds
    after the origin of the times, and whose store answers and is empty. *)
Definition steady_env : SessionManager.Env :=
  {| SessionManager.clock := fun n => 1000 * Z.of_nat n + 7;
     SessionManager.uuids := fun _ => "s1";
     SessionManager.faults := fun _ => false |}.

Definition steady_world : SessionManager.World :=
  SessionManager.__init__ Config.default_settings ∅ [] steady_env.

(** The same, after the session "s1" has been created. *)
Definition sample_world_with_session (down : nat -> bool) : SessionManager.World :=
  snd (SessionManager.create_session (sample_world down)).

Definition sample_session : SessionManager.Session :=
  {| SessionManager.session_id := "s1";
     SessionManager.created_at := 0;
     SessionManager.query_history := [] |}.

Definition sample_faq : FAQHandler.Dict :=
  [ ("What are your skills?", "Python and JavaScript.");
    ("Where do you study?", "VIT Bhopal.") ].

(** A scorer that picks the first choice, with the given score. *)
Definition sample_scorer (score : Q) (query : string) (choices : list string)
    : string * Q * nat :=
  (hd EmptyString choices, score, 0%nat).

(** A model that fails twice and then answers. *)
Definition slow_model (attempt : nat) : LLMClient.CallResult :=
  if (attempt <? 3)%nat then LLMClient.Failed ModelCallFailed
  else LLMClient.Responded (Some "ok").

(** A function that fails twice and then gives 7. *)
Definition slow_function (attempt : nat) : Exn + Z :=
  if (attempt <? 2)%nat then inl ModelCallFailed else inr 7.

Definition sample_doc : SessionManager.SessionDoc :=
  {| SessionManager.doc_created_at := Some 0;
     SessionManager.doc_last_active_at := Some 0;
     SessionManager.doc_conversation_history := Some [];
     SessionManager.doc_contextual_memory := None |}.

Definition sample_request (sid : option string) : Routes.QueryRequest :=
  {| Routes.query := "Where do you study?"; Routes.request_session_id := sid |}.

(** A model that fails at every attempt. *)
Definition failing_model (prompt : string) (attempt : nat) : LLMClient.CallResult :=
  LLMClient.Failed ModelCallFailed.

(** * Properties *)

(** ** Strings *)

Lemma append_empty_r (s : string) : s +:+ EmptyString = s.
Proof. induction s as [|c s IH]; simpl; [reflexivity | now rewrite IH]. Qed.

Lemma append_assoc (a b c : string) : (a +:+ b) +:+ c = a +:+ b +:+ c.
Proof. induction a as [|x a IH]; simpl; [reflexivity | now rewrite IH]. Qed.

Lemma lower_nil_inv (s : string) : Py.lower s = EmptyString -> s = EmptyString.
Proof. destruct s; simpl; [reflexivity | discriminate]. Qed.

Lemma startswith_spec (p s : string) :
  Py.startswith p s = true <-> exists post, s = p +:+ post.
Proof.
  revert s; induction p as [|a p IH]; intros s; simpl.
  - split; [intros _; now exists s | reflexivity].
  - destruct s as [|b s].
    + split; [discriminate | intros [post H]; discriminate].
    + rewrite andb_true_iff, Ascii.eqb_eq, IH. split.
      * intros [-> [post ->]]. now exists post.
      * intros [post H]. injection H as -> ->. split; [reflexivity | now exists post].
Qed.

Lemma contains_spec (p s : string) : Py.contains p s = true <-> occurs p s.
Proof.
  unfold occurs. induction s as [|c s IH].
  - simpl. rewrite orb_false_r, startswith_spec. split.
    + intros [post H]. now exists EmptyString, post.
    + intros [pre [post H]]. destruct pre; [now exists post | discriminate].
  - cbn [Py.contains]. rewrite orb_true_iff, startswith_spec, IH. split.
    + intros [[post H] | [pre [post H]]].
      * now exists EmptyString, post.
      * exists (String c pre), post. simpl. now rewrite H.
    + intros [pre [post H]]. destruct pre as [|c' pre].
      * left. now exists post.
      * right. injection H as _ H. now exists pre, post.
Qed.

Lemma match_here_spec (p s : string) :
  Prompts.match_here p s = true <->
  exists mid post, s = mid +:+ post /\ Py.lower mid = Py.lower p.
Proof.
  revert s; induction p as [|a p IH]; intros s; simpl.
  - split; [intros _; now exists EmptyString, s | reflexivity].
  - destruct s as [|b s].
    + split; [discriminate |].
      intros [mid [post [H1 H2]]]. destruct mid; simpl in *; discriminate.
    + rewrite andb_true_iff, Ascii.eqb_eq, IH. split.
      * intros [Hc [mid [post [-> Hl]]]].
        exists (String b mid), post. simpl. now rewrite Hc, Hl.
      * intros [mid [post [H1 H2]]]. destruct mid as [|m mid]; [discriminate|].
        simpl in H1, H2. injection H1 as -> ->. injection H2 as H2 H3.
        split; [now rewrite H2 | now exists mid, post].
Qed.

Lemma search_from_spec (p s : string) :
  Prompts.search_from p s = true <-> occurs_ignorecase p s.
Proof.
  unfold occurs_ignorecase, occurs. induction s as [|c s IH].
  - simpl. rewrite orb_false_r, match_here_spec. split.
    + intros [mid [post [H1 H2]]]. exists mid. split; [now exists EmptyString, post | assumption].
    + intros [mid [[pre [post H1]] H2]]. destruct pre; [| discriminate].
      now exists mid, post.
  - cbn [Prompts.search_from]. rewrite orb_true_iff, match_here_spec, IH. split.
    + intros [[mid [post [H1 H2]]] | [mid [[pre [post H1]] H2]]].
      * exists mid. split; [now exists EmptyString, post | assumption].
      * exists mid. split; [| assumption].
        exists (String c pre), post. simpl. now rewrite H1.
    + intros [mid [[pre [post H1]] H2]]. destruct pre as [|c' pre].
      * left. now exists mid, post.
      * right. injection H1 as _ H1. exists mid. split; [now exists pre, post | assumption].
Qed.

(** ** The escalation detector *)

(** Every trigger phrase is a regular expression without special characters
    and is written in lower case. *)
Lemma trigger_phrases_literal :
  forallb (fun p => Prompts.is_literal_regex p && String.eqb (Py.lower p) p)
    Prompts.ESCALATION_TRIGGER_PHRASES = true.
Proof. vm_compute. reflexivity. Qed.

Lemma some_pattern_matches (s : string) :
  existsb (fun pattern => Prompts.pattern_search pattern s)
    Prompts.ESCALATION_TRIGGER_PATTERNS = true <->
  exists p, In p Prompts.ESCALATION_TRIGGER_PHRASES /\ occurs_ignorecase p s.
Proof.
  unfold Prompts.ESCALATION_TRIGGER_PATTERNS.
  rewrite existsb_exists. split.
  - intros [pat [Hin Hs]]. apply in_map_iff in Hin as [p [<- Hin]].
    exists p. split; [assumption |]. now apply search_from_spec.
  - intros [p [Hin Hs]]. exists (Prompts.re_compile_ignorecase p). split.
    + now apply in_map.
    + now apply search_from_spec.
Qed.

(** The verdict is true exactly when a trigger phrase occurs in the text up
    to case. *)
Lemma is_unsatisfactory_verdict (s : string) :
  fst (Prompts.is_unsatisfactory s) = true <->
  exists p, In p Prompts.ESCALATION_TRIGGER_PHRASES /\ occurs_ignorecase p s.
Proof.
  rewrite <- some_pattern_matches. unfold Prompts.is_unsatisfactory.
  destruct (existsb _ Prompts.ESCALATION_TRIGGER_PATTERNS).
  - simpl. tauto.
  - destruct (existsb _ Prompts.fallback_indicators); simpl; split; discriminate.
Qed.

(** What the detector prints: nothing, or one line when no trigger phrase
    matches and a fallback indicator occurs in the lowered text. *)
Lemma is_unsatisfactory_stdout (s : string) :
  snd (Prompts.is_unsatisfactory s) =
    if negb (fst (Prompts.is_unsatisfactory s)) &&
       existsb (fun indicator => Py.contains indicator (Py.lower s))
         Prompts.fallback_indicators
    then ["Potential fallback response detected for escalation: " +:+ s]
    else [].
Proof.
  unfold Prompts.is_unsatisfactory.
  destruct (existsb _ Prompts.ESCALATION_TRIGGER_PATTERNS); [reflexivity |].
  destruct (existsb _ Prompts.fallback_indicators); reflexivity.
Qed.


(** *** The detector over any text *)

Lemma bool_eq_of_iff (a b : bool) : (a = true <-> b = true) -> a = b.
Proof. destruct a, b; intros [H1 H2]; auto; symmetry; auto. Qed.

Lemma existsb_ext_in {A} (f g : A -> bool) (l : list A) :
  (forall x, In x l -> f x = g x) -> existsb f l = existsb g l.
Proof.
  induction l as [|x l IH]; intros H; [reflexivity |]. cbn [existsb].
  rewrite (H x) by now left. rewrite IH; [reflexivity |].
  intros y Hy. apply H. now right.
Qed.

Lemma existsb_map {A B} (f : B -> bool) (g : A -> B) (l : list A) :
  existsb f (map g l) = existsb (fun x => f (g x)) l.
Proof. induction l as [|x l IH]; [reflexivity |]. cbn [map existsb]. now rewrite IH. Qed.

Lemma fixes_cases (l : N) :
  (l = 105%N /\ Unicode.fixes l = [305%N]) \/
  (l = 115%N /\ Unicode.fixes l = [383%N]) \/
  (l <> 105%N /\ l <> 115%N /\ Unicode.fixes l = []).
Proof.
  unfold Unicode.fixes.
  destruct (N.eqb_spec l 105%N) as [-> | H1]; [now left |].
  destruct (N.eqb_spec l 115%N) as [-> | H2]; [right; now left |].
  right. right. repeat split; assumption.
Qed.

(** How a code point folds: a capital of ASCII; another code point of
    ASCII; a code point beyond ASCII whose lower case is an ASCII letter; an
    equivalent of an ASCII letter; any other code point. *)
Lemma fold_cases (c : N) :
  ((65 <= c <= 90)%N /\ Unicode.tolower_ascii c = Some (c + 32)%N /\
   fold c = (c + 32)%N) \/
  ((c < 128)%N /\ Unicode.is_ascii_upper c = false /\
   Unicode.tolower_ascii c = Some c /\ fold c = c) \/
  ((128 <= c)%N /\ (97 <= fold c <= 122)%N /\
   Unicode.tolower_ascii c = Some (fold c)) \/
  ((128 <= c)%N /\ (97 <= fold c <= 122)%N /\ Unicode.tolower_ascii c = None /\
   forall l, In c (Unicode.fixes l) <-> l = fold c) \/
  ((128 <= c)%N /\ Unicode.tolower_ascii c = None /\
   (forall l, ~ In c (Unicode.fixes l)) /\ fold c = c).
Proof.
  destruct (N.eq_dec c 304%N) as [-> | H1].
  { right. right. left. cbv. repeat split; discriminate. }
  destruct (N.eq_dec c 8490%N) as [-> | H2].
  { right. right. left. cbv. repeat split; discriminate. }
  destruct (N.eq_dec c 305%N) as [-> | H3].
  { right. right. right. left.
    split; [lia |]. split; [cbv; split; discriminate |]. split; [reflexivity |].
    intros l. change (fold 305) with 105%N.
    destruct (fixes_cases l) as [[-> ->] | [[-> ->] | [Ha [_ ->]]]]; cbn [In].
    - split; [reflexivity | now left].
    - split; [intros [H | []]; discriminate H | discriminate].
    - split; [intros [] | congruence]. }
  destruct (N.eq_dec c 383%N) as [-> | H4].
  { right. right. right. left.
    split; [lia |]. split; [cbv; split; discriminate |]. split; [reflexivity |].
    intros l. change (fold 383) with 115%N.
    destruct (fixes_cases l) as [[-> ->] | [[-> ->] | [_ [Hb ->]]]]; cbn [In].
    - split; [intros [H | []]; discriminate H | discriminate].
    - split; [reflexivity | now left].
    - split; [intros [] | congruence]. }
  assert (Hfold : fold c = if Unicode.is_ascii_upper c then (c + 32)%N else c).
  { unfold fold, Unicode.is_ascii_upper.
    destruct ((65 <=? c)%N && (c <=? 90)%N); [reflexivity |].
    apply N.eqb_neq in H1, H2, H3, H4. now rewrite H1, H2, H3, H4. }
  assert (Hlow : Unicode.tolower_ascii c =
                 if Unicode.is_ascii_upper c then Some (c + 32)%N
                 else if (c <? 128)%N then Some c else None).
  { unfold Unicode.tolower_ascii.
    apply N.eqb_neq in H1, H2. now rewrite H1, H2. }
  destruct (Unicode.is_ascii_upper c) eqn:Hup.
  - left. split; [| split; assumption].
    unfold Unicode.is_ascii_upper in Hup. apply andb_true_iff in Hup as [Ha Hb].
    apply N.leb_le in Ha, Hb. lia.
  - destruct (N.ltb_spec c 128%N) as [Hlt | Hge].
    + right. left. repeat split; assumption.
    + right. right. right. right. repeat split; try assumption.
      intros l. destruct (fixes_cases l) as [[_ ->] | [[_ ->] | [_ [_ ->]]]];
        [intros [H | []]; congruence | intros [H | []]; congruence | intros []].
Qed.

Lemma existsb_eqb_In (c : N) (l : list N) : existsb (N.eqb c) l = true <-> In c l.
Proof.
  rewrite existsb_exists. split.
  - intros [x [Hx Hc]]. apply N.eqb_eq in Hc. now subst.
  - intros H. exists c. split; [exact H | apply N.eqb_refl].
Qed.

(** A literal of a phrase (ASCII, not a capital) accepts the code points
    that fold to it. *)
Lemma literal_ignorecase_fold (p c : N) :
  (p < 128)%N -> Unicode.is_ascii_upper p = false ->
  Unicode.literal_ignorecase p c = (fold c =? p)%N.
Proof.
  intros Hp Hup.
  unfold Unicode.literal_ignorecase, Unicode.iscased. rewrite Hup. cbv beta iota zeta.
  cbn [orb].
  assert (Hlow : Unicode.is_ascii_lower p = true <-> (97 <= p <= 122)%N).
  { unfold Unicode.is_ascii_lower. rewrite andb_true_iff, !N.leb_le. tauto. }
  assert (Hup' : ~ (65 <= p <= 90)%N).
  { unfold Unicode.is_ascii_upper in Hup. apply andb_false_iff in Hup.
    rewrite !N.leb_gt in Hup. lia. }
  assert (Hnot : Unicode.is_ascii_lower p = false -> ~ (97 <= p <= 122)%N).
  { intros E H. apply Hlow in H. congruence. }
  apply bool_eq_of_iff. rewrite N.eqb_eq.
  destruct (fold_cases c) as [[Hc [Ht Hf]] | [[Hc [Hcu [Ht Hf]]] | [[Hc [Hl Ht]]
                             | [[Hc [Hl [Ht Hin]]] | [Hc [Ht [Hno Hf]]]]]]];
    rewrite Ht; destruct (Unicode.is_ascii_lower p) eqn:E;
    rewrite ?N.eqb_eq, ?existsb_eqb_In; try specialize (Hnot eq_refl).
  - rewrite Hf. tauto.
  - rewrite Hf. lia.
  - rewrite Hf. tauto.
  - rewrite Hf. tauto.
  - tauto.
  - lia.
  - rewrite Hin. split; congruence.
  - lia.
  - rewrite Hf. split; [intros H; now apply Hno in H | lia].
  - rewrite Hf. lia.
Qed.

Lemma match_here_fold (p s : Unicode.str) :
  plain_phrase p = true ->
  Unicode.match_here p s = Unicode.startswith p (map fold s).
Proof.
  revert s. induction p as [|a p IH]; intros s Hp; [reflexivity |].
  cbn [plain_phrase forallb] in Hp. apply andb_true_iff in Hp as [Ha Hp].
  apply andb_true_iff in Ha as [Ha1 Ha2].
  apply N.ltb_lt in Ha1. apply negb_true_iff in Ha2.
  destruct s as [|b s]; [reflexivity |].
  cbn [Unicode.match_here Unicode.startswith map].
  now rewrite literal_ignorecase_fold, IH.
Qed.

(** The search of a phrase is the plain search in the folded text. *)
Lemma search_from_fold (p s : Unicode.str) :
  plain_phrase p = true ->
  Unicode.search_from p s = Unicode.contains p (map fold s).
Proof.
  intros Hp. induction s as [|b s IH].
  - cbn [Unicode.search_from Unicode.contains map]. now rewrite match_here_fold.
  - cbn [Unicode.search_from Unicode.contains]. rewrite match_here_fold by exact Hp.
    cbn [map]. now rewrite IH.
Qed.

Lemma unicode_startswith_spec (p s : Unicode.str) :
  Unicode.startswith p s = true <-> exists post, s = p ++ post.
Proof.
  revert s; induction p as [|a p IH]; intros s; cbn [Unicode.startswith].
  - split; [intros _; now exists s | reflexivity].
  - destruct s as [|b s].
    + split; [discriminate | intros [post H]; discriminate].
    + rewrite andb_true_iff, N.eqb_eq, IH. split.
      * intros [-> [post ->]]. now exists post.
      * intros [post H]. injection H as -> ->. split; [reflexivity | now exists post].
Qed.

Lemma unicode_contains_spec (p s : Unicode.str) :
  Unicode.contains p s = true <-> exists pre post, s = pre ++ p ++ post.
Proof.
  induction s as [|c s IH].
  - cbn [Unicode.contains]. rewrite orb_false_r, unicode_startswith_spec. split.
    + intros [post H]. now exists [], post.
    + intros [pre [post H]]. destruct pre; [now exists post | discriminate].
  - cbn [Unicode.contains]. rewrite orb_true_iff, unicode_startswith_spec, IH. split.
    + intros [[post H] | [pre [post H]]].
      * now exists [], post.
      * exists (c :: pre), post. simpl. now rewrite H.
    + intros [pre [post H]]. destruct pre as [|c' pre].
      * left. now exists post.
      * right. injection H as _ H. now exists pre, post.
Qed.

(** Every trigger phrase is ASCII and written in lower case. *)
Lemma trigger_phrases_plain :
  forallb (fun p => plain_phrase (Unicode.of_string p))
    Prompts.ESCALATION_TRIGGER_PHRASES = true.
Proof. vm_compute. reflexivity. Qed.

(** The verdict over any text: the plain search of the phrases in the
    folded text. *)
Lemma unicode_verdict (lower : Unicode.str -> Unicode.str) (text : Unicode.str) :
  fst (Unicode.is_unsatisfactory lower text) =
  existsb (fun p => Unicode.contains (Unicode.of_string p) (map fold text))
    Prompts.ESCALATION_TRIGGER_PHRASES.
Proof.
  unfold Unicode.is_unsatisfactory, Prompts.ESCALATION_TRIGGER_PATTERNS.
  rewrite existsb_map.
  rewrite (existsb_ext_in _
             (fun p => Unicode.contains (Unicode.of_string p) (map fold text))).
  - destruct (existsb _ Prompts.ESCALATION_TRIGGER_PHRASES); [reflexivity |].
    destruct (existsb _ Prompts.fallback_indicators); reflexivity.
  - intros p Hp. unfold Unicode.pattern_search, Prompts.re_compile_ignorecase.
    cbn [Prompts.pattern_source]. apply search_from_fold.
    pose proof trigger_phrases_plain as H. rewrite forallb_forall in H. now apply H.
Qed.

(** *** The two embeddings of the detector *)








(** ** Loops over [range(0, len(history), 2)] *)

Lemma list_pair_ind {A} (P : list A -> Prop) :
  P [] -> (forall x, P [x]) -> (forall x y l, P l -> P (x :: y :: l)) ->
  forall l, P l.
Proof.
  intros H0 H1 H2.
  assert (H : forall l, P l /\ forall x, P (x :: l)).
  { induction l as [|y l [IH1 IH2]]; split; auto. }
  intros l. apply H.
Qed.

Section PairLoop.

Context {B : Type}.
Variable step : list string -> Outcome (list B) -> nat -> Outcome (list B).
Variable g2 : string -> string -> list B.
Variable g1 : string -> list B.

Hypothesis step_pair : forall h acc i x y,
  h !! i = Some x -> h !! (i + 1)%nat = Some y ->
  step h (Ret acc) i = Ret (acc ++ g2 x y).

Hypothesis step_last : forall h acc i x,
  h !! i = Some x -> length h = (i + 1)%nat ->
  step h (Ret acc) i = Ret (acc ++ g1 x).

Lemma fold_pairs_from (rest : list string) :
  forall pre acc k, length pre = (2 * k)%nat ->
    fold_left (step (pre ++ rest))
      (map (fun k => (2 * k)%nat) (seq k (Nat.div2 (length rest + 1))))
      (Ret acc)
    = Ret (acc ++ by_pairs g2 g1 rest).
Proof.
  induction rest as [| x | x y rest IH] using list_pair_ind; intros pre acc k Hk.
  - simpl. now rewrite app_nil_r.
  - simpl. apply step_last.
    + now apply list_lookup_middle.
    + rewrite length_app. simpl. lia.
  - replace (length (x :: y :: rest) + 1)%nat
      with (S (S (length rest + 1))) by (simpl; lia).
    cbn [Nat.div2 seq map fold_left].
    rewrite (step_pair _ acc (2 * k)%nat x y).
    + replace (pre ++ x :: y :: rest) with ((pre ++ [x; y]) ++ rest)
        by now rewrite <- app_assoc.
      rewrite (IH (pre ++ [x; y]) (acc ++ g2 x y) (S k)).
      * simpl. now rewrite <- app_assoc.
      * rewrite length_app. simpl. lia.
    + now apply list_lookup_middle.
    + replace (pre ++ x :: y :: rest) with ((pre ++ [x]) ++ y :: rest)
        by now rewrite <- app_assoc.
      apply list_lookup_middle. rewrite length_app. simpl. lia.
Qed.

Lemma fold_pairs (h : list string) (acc : list B) :
  fold_left (step h) (Py.range_step2 (length h)) (Ret acc)
  = Ret (acc ++ by_pairs g2 g1 h).
Proof. apply (fold_pairs_from h [] acc 0%nat). reflexivity. Qed.

End PairLoop.

(** ** The context assembler *)

Lemma prompt_step_pair (h : list string) acc i x y :
  h !! i = Some x -> h !! (i + 1)%nat = Some y ->
  Prompts.prompt_step h (Ret acc) i =
  Ret (acc ++ [ {| Prompts.role := "user"; Prompts.content := x |};
                {| Prompts.role := "assistant"; Prompts.content := y |} ]).
Proof.
  intros Hx Hy. unfold Prompts.prompt_step, Py.index. simpl. rewrite Hx. simpl.
  apply lookup_lt_Some in Hy as Hlt.
  destruct (Nat.ltb_spec (i + 1) (length h)) as [_ | Hge]; [| lia].
  rewrite Hy. reflexivity.
Qed.

Lemma prompt_step_last (h : list string) acc i x :
  h !! i = Some x -> length h = (i + 1)%nat ->
  Prompts.prompt_step h (Ret acc) i =
  Ret (acc ++ [ {| Prompts.role := "user"; Prompts.content := x |} ]).
Proof.
  intros Hx Hlen. unfold Prompts.prompt_step, Py.index. simpl. rewrite Hx. simpl.
  destruct (Nat.ltb_spec (i + 1) (length h)) as [Hlt | _]; [lia | reflexivity].
Qed.

Lemma by_pairs_messages (h : list string) :
  by_pairs
    (fun x y => [ {| Prompts.role := "user"; Prompts.content := x |};
                  {| Prompts.role := "assistant"; Prompts.content := y |} ])
    (fun x => [ {| Prompts.role := "user"; Prompts.content := x |} ]) h
  = imap message_of_index h.
Proof.
  induction h as [| x | x y h IH] using list_pair_ind; [reflexivity .. |].
  cbn [by_pairs imap]. rewrite IH. reflexivity.
Qed.

(** The messages of the prompt, as a list. *)
Lemma prompt_messages (user_query : string) (conversation_history : list string) :
  Prompts.build_conversational_prompt user_query conversation_history =
  Ret ({| Prompts.role := "system"; Prompts.content := Prompts.system_content |}
         :: imap message_of_index conversation_history
         ++ [ {| Prompts.role := "user"; Prompts.content := user_query |} ]).
Proof.
  unfold Prompts.build_conversational_prompt.
  rewrite (fold_pairs Prompts.prompt_step _ _ prompt_step_pair prompt_step_last).
  now rewrite by_pairs_messages.
Qed.

(** C5: the prompt is the system message with the fixed persona block, then
    the items of the history in their order, the item at position [i] with
    the role "user" when [i] is even and "assistant" when it is odd, then the
    new query as a last "user" message. No item is dropped and none is added:
    the last item of a history of odd length is an unpaired "user" message. *)
Theorem build_conversational_prompt_correct (user_query : string)
    (conversation_history : list string) :
  Prompts.build_conversational_prompt user_query conversation_history =
  Ret ({| Prompts.role := "system"; Prompts.content := Prompts.system_content |}
         :: imap message_of_index conversation_history
         ++ [ {| Prompts.role := "user"; Prompts.content := user_query |} ]).
Proof.
  unfold Prompts.build_conversational_prompt.
  rewrite (fold_pairs Prompts.prompt_step _ _ prompt_step_pair prompt_step_last).
  rewrite by_pairs_messages. reflexivity.
Qed.

(** ** The escalation note *)

Lemma note_step_pair (h : list string) acc i x y :
  h !! i = Some x -> h !! (i + 1)%nat = Some y ->
  EscalationHandler.note_step h (Ret acc) i = Ret (acc ++ render_pair (x, y)).
Proof.
  intros Hx Hy. unfold EscalationHandler.note_step, Py.index. simpl. rewrite Hx. simpl.
  apply lookup_lt_Some in Hy as Hlt.
  destruct (Nat.ltb_spec (i + 1) (length h)) as [_ | Hge]; [| lia].
  rewrite Hy. reflexivity.
Qed.

Lemma note_step_last (h : list string) acc i x :
  h !! i = Some x -> length h = (i + 1)%nat ->
  EscalationHandler.note_step h (Ret acc) i =
  Ret (acc ++ render_pair (x, EscalationHandler.NO_REPLY)).
Proof.
  intros Hx Hlen. unfold EscalationHandler.note_step, Py.index. simpl. rewrite Hx. simpl.
  destruct (Nat.ltb_spec (i + 1) (length h)) as [Hlt | _]; [lia | reflexivity].
Qed.

Lemma by_pairs_render (h : list string) :
  by_pairs (fun x y => render_pair (x, y))
    (fun x => render_pair (x, EscalationHandler.NO_REPLY)) h
  = flat_map render_pair (pairs_with_sentinel h).
Proof.
  induction h as [| x | x y h IH] using list_pair_ind; [reflexivity .. |].
  cbn [by_pairs pairs_with_sentinel flat_map]. now rewrite IH.
Qed.

Lemma escalation_note_lines_correct (user_query : string) (h : list string) :
  EscalationHandler.escalation_note_lines user_query h =
  Ret (EscalationHandler.note_header user_query
         ++ flat_map render_pair (pairs_with_sentinel h)
         ++ EscalationHandler.note_footer).
Proof.
  unfold EscalationHandler.escalation_note_lines.
  rewrite (fold_pairs EscalationHandler.note_step _ _ note_step_pair note_step_last).
  rewrite by_pairs_render. cbn [obind]. now rewrite <- app_assoc.
Qed.

Lemma join_head (sep x : string) (rest : list string) :
  exists post, Py.join sep (x :: rest) = x +:+ post.
Proof.
  destruct rest as [|y rest].
  - exists EmptyString. simpl. now rewrite append_empty_r.
  - now exists (sep +:+ Py.join sep (y :: rest)).
Qed.

Lemma join_cons (sep x y : string) (rest : list string) :
  Py.join sep (x :: y :: rest) = x +:+ sep +:+ Py.join sep (y :: rest).
Proof. reflexivity. Qed.

(** A line of a joined text occurs in it. *)
Lemma occurs_join_line (sep a : string) (l1 l2 : list string) :
  occurs a (Py.join sep (l1 ++ a :: l2)).
Proof.
  induction l1 as [|c l1 IH].
  - destruct (join_head sep a l2) as [post H]. exists EmptyString, post. exact H.
  - destruct IH as [pre [post H]].
    destruct (l1 ++ a :: l2) as [|y rest] eqn:E.
    + destruct l1; discriminate.
    + cbn [app]. rewrite E, join_cons, H.
      exists (c +:+ sep +:+ pre), post. now rewrite !append_assoc.
Qed.

(** Two lines that follow each other occur in the joined text, the
    separator between them. *)
Lemma occurs_join_two_lines (sep a b : string) (l1 l2 : list string) :
  occurs (a +:+ sep +:+ b) (Py.join sep (l1 ++ a :: b :: l2)).
Proof.
  induction l1 as [|c l1 IH].
  - destruct (join_head sep b l2) as [post H]. exists EmptyString, post.
    cbn [app]. rewrite join_cons, H. simpl. now rewrite !append_assoc.
  - destruct IH as [pre [post H]].
    destruct (l1 ++ a :: b :: l2) as [|y rest] eqn:E.
    + destruct l1; discriminate.
    + cbn [app]. rewrite E, join_cons, H.
      exists (c +:+ sep +:+ pre), post. now rewrite !append_assoc.
Qed.

Lemma create_escalation_note_returns (user_query : string) (h : list string) :
  exists note, EscalationHandler.create_escalation_note user_query h = Ret note.
Proof.
  unfold EscalationHandler.create_escalation_note.
  rewrite escalation_note_lines_correct. cbn [obind]. now eexists.
Qed.

(** C8: the note is the header with the triggering query, then for each pair
    of the history the lines [User: <msg>] and [Bot: <reply>] (and an empty
    line), then the footer, joined by line feeds. The reply of the last
    message of a history of odd length is the sentinel [<No reply>]. The
    query and every such pair of lines occur in the note. With the query
    "Why is my order late?", the history ["Hi"; "Hello!"] gives a note that
    contains the query and [User: Hi] followed by [Bot: Hello!], and the
    history ["Hi"] a note that contains [Bot: <No reply>]. *)
Theorem create_escalation_note_correct :
  (forall user_query h,
     exists note,
       EscalationHandler.create_escalation_note user_query h = Ret note /\
       note = Py.join Py.LF
                (EscalationHandler.note_header user_query
                   ++ flat_map render_pair (pairs_with_sentinel h)
                   ++ EscalationHandler.note_footer) /\
       Py.contains user_query note = true /\
       Forall (fun p =>
                 Py.contains ("User: " +:+ fst p +:+ Py.LF +:+ "Bot: " +:+ snd p)
                   note = true)
         (pairs_with_sentinel h)) /\
  (forall h x,
     pairs_with_sentinel (h ++ [x]) =
       if Nat.even (length h)
       then pairs_with_sentinel h ++ [(x, "<No reply>")]
       else pairs_with_sentinel (removelast h) ++ [(List.last h EmptyString, x)]) /\
  (exists note,
     EscalationHandler.create_escalation_note "Why is my order late?"
       ["Hi"; "Hello!"] = Ret note /\
     Py.contains "Why is my order late?" note = true /\
     Py.contains ("User: Hi" +:+ Py.LF +:+ "Bot: Hello!") note = true) /\
  (exists note,
     EscalationHandler.create_escalation_note "Why is my order late?"
       ["Hi"] = Ret note /\
     Py.contains ("User: Hi" +:+ Py.LF +:+ "Bot: <No reply>") note = true).
Proof.
  split; [| split; [| split]].
  - intros q h. unfold EscalationHandler.create_escalation_note.
    rewrite escalation_note_lines_correct. cbn [obind].
    eexists. split; [reflexivity |]. split; [reflexivity |]. split.
    + apply contains_spec.
      apply (occurs_join_line Py.LF q
               [ "=== Escalation Alert ===";
                 "An AI customer support escalation has been triggered.";
                 EmptyString; "User Query:" ]).
    + apply Forall_forall. intros [u b] Hin. apply contains_spec.
      apply list_elem_of_split in Hin as [p1 [p2 ->]].
      rewrite flat_map_app. cbn [flat_map render_pair fst snd].
      rewrite <- !app_assoc, app_assoc. cbn [app].
      rewrite <- append_assoc.
      apply (occurs_join_two_lines Py.LF ("User: " +:+ u) ("Bot: " +:+ b)).
  - induction h as [| y | y z h IH] using list_pair_ind; intros x.
    + reflexivity.
    + reflexivity.
    + cbn [app pairs_with_sentinel]. rewrite IH.
      replace (Nat.even (length (y :: z :: h))) with (Nat.even (length h))
        by reflexivity.
      destruct (Nat.even (length h)) eqn:E; [reflexivity |].
      destruct h as [|a h]; [discriminate E |].
      reflexivity.
  - eexists. split; [vm_compute; reflexivity |]. split; vm_compute; reflexivity.
  - eexists. split; [vm_compute; reflexivity |]. vm_compute; reflexivity.
Qed.

(** ** Retries of the model call *)

(** C6: with the client of [get_llm_client] (3 attempts, base delay 2), a
    call that goes through [_retry_api_call] is made again after a failure,
    up to 3 attempts in all, after a sleep of 2 time units before the second
    attempt and of 4 before the third; the first answer ends the loop and is
    returned, and when the three attempts fail the exception of the last one
    is raised. [generate_response] calls the model in that way: the answer
    of the first attempt that succeeds makes the reply (the text of the model
    when the detector accepts it, the escalation text when it does not), and
    no further attempt is made. When the three attempts fail,
    [generate_response] does not raise: it returns the fixed apology with
    the escalated flag false. Whatever the model does, it returns a reply. *)
Theorem generate_response_retries :
  (forall func : nat -> LLMClient.CallResult,
     (forall t,
        func 1%nat = LLMClient.Responded t ->
        LLMClient._retry_api_call LLMClient.__init__ func =
        (Ret t, [LLMClient.EvCall 1])) /\
     (forall e1 t,
        func 1%nat = LLMClient.Failed e1 ->
        func 2%nat = LLMClient.Responded t ->
        LLMClient._retry_api_call LLMClient.__init__ func =
        (Ret t, [LLMClient.EvCall 1; LLMClient.EvSleep (2 # 1); LLMClient.EvCall 2])) /\
     (forall e1 e2 t,
        func 1%nat = LLMClient.Failed e1 ->
        func 2%nat = LLMClient.Failed e2 ->
        func 3%nat = LLMClient.Responded t ->
        LLMClient._retry_api_call LLMClient.__init__ func =
        (Ret t, [LLMClient.EvCall 1; LLMClient.EvSleep (2 # 1); LLMClient.EvCall 2;
                 LLMClient.EvSleep (4 # 1); LLMClient.EvCall 3])) /\
     (forall e1 e2 e3,
        func 1%nat = LLMClient.Failed e1 ->
        func 2%nat = LLMClient.Failed e2 ->
        func 3%nat = LLMClient.Failed e3 ->
        LLMClient._retry_api_call LLMClient.__init__ func =
        (Raise e3, [LLMClient.EvCall 1; LLMClient.EvSleep (2 # 1); LLMClient.EvCall 2;
                    LLMClient.EvSleep (4 # 1); LLMClient.EvCall 3]))) /\
  (forall (model : string -> nat -> LLMClient.CallResult)
          (user_query : string) (h : list string),
     (forall t,
        model (prompt_text user_query h) 1%nat = LLMClient.Responded t ->
        LLMClient.generate_response LLMClient.__init__ model user_query h =
        (Ret (reply_for t), [LLMClient.EvCall 1] ++ printed_for t)) /\
     (forall e1 t,
        model (prompt_text user_query h) 1%nat = LLMClient.Failed e1 ->
        model (prompt_text user_query h) 2%nat = LLMClient.Responded t ->
        LLMClient.generate_response LLMClient.__init__ model user_query h =
        (Ret (reply_for t),
         [LLMClient.EvCall 1; LLMClient.EvSleep (2 # 1); LLMClient.EvCall 2]
           ++ printed_for t)) /\
     (forall e1 e2 t,
        model (prompt_text user_query h) 1%nat = LLMClient.Failed e1 ->
        model (prompt_text user_query h) 2%nat = LLMClient.Failed e2 ->
        model (prompt_text user_query h) 3%nat = LLMClient.Responded t ->
        LLMClient.generate_response LLMClient.__init__ model user_query h =
        (Ret (reply_for t),
         [LLMClient.EvCall 1; LLMClient.EvSleep (2 # 1); LLMClient.EvCall 2;
          LLMClient.EvSleep (4 # 1); LLMClient.EvCall 3] ++ printed_for t)) /\
     (forall e1 e2 e3,
        model (prompt_text user_query h) 1%nat = LLMClient.Failed e1 ->
        model (prompt_text user_query h) 2%nat = LLMClient.Failed e2 ->
        model (prompt_text user_query h) 3%nat = LLMClient.Failed e3 ->
        LLMClient.generate_response LLMClient.__init__ model user_query h =
        (Ret {| LLMClient.text := LLMClient.APOLOGY; LLMClient.escalated := false |},
         [LLMClient.EvCall 1; LLMClient.EvSleep (2 # 1); LLMClient.EvCall 2;
          LLMClient.EvSleep (4 # 1); LLMClient.EvCall 3])) /\
     exists reply log,
       LLMClient.generate_response LLMClient.__init__ model user_query h =
       (Ret reply, log)).
Proof.
  split.
  - intros func.
    unfold LLMClient._retry_api_call, LLMClient.__init__.
    cbn [LLMClient.max_retries LLMClient.retry_delay seq LLMClient.retry_loop
         Nat.ltb Nat.leb].
    split; [| split; [| split]].
    + intros t ->. reflexivity.
    + intros e1 t -> ->. reflexivity.
    + intros e1 e2 t -> -> ->. reflexivity.
    + intros e1 e2 e3 -> -> ->. reflexivity.
  - intros model user_query h.
    assert (Hreply : forall (t : option string) (log0 : list LLMClient.Event),
      match t with
      | Some response_text =>
          let '(verdict, printed) := Prompts.is_unsatisfactory response_text in
          if verdict
          then (Ret {| LLMClient.text := LLMClient.ESCALATED_TEXT;
                       LLMClient.escalated := true |},
                log0 ++ map LLMClient.EvPrint printed)
          else (Ret {| LLMClient.text := response_text;
                       LLMClient.escalated := false |},
                log0 ++ map LLMClient.EvPrint printed)
      | None => (Ret {| LLMClient.text := LLMClient.APOLOGY;
                        LLMClient.escalated := false |}, log0)
      end = (Ret (reply_for t), log0 ++ printed_for t)).
    { intros [t |] log0; unfold reply_for, printed_for.
      - destruct (Prompts.is_unsatisfactory t) as [[|] printed]; reflexivity.
      - now rewrite app_nil_r. }
    unfold LLMClient.generate_response.
    rewrite prompt_messages.
    fold (prompt_text user_query h).
    set (f := model (prompt_text user_query h)).
    unfold LLMClient._retry_api_call, LLMClient.__init__.
    cbn [LLMClient.max_retries LLMClient.retry_delay seq LLMClient.retry_loop
         Nat.ltb Nat.leb].
    split; [| split; [| split; [| split]]].
    + intros t ->. apply Hreply.
    + intros e1 t -> ->. apply Hreply.
    + intros e1 e2 t -> -> ->. apply Hreply.
    + intros e1 e2 e3 -> -> ->. reflexivity.
    + destruct (f 1%nat) as [t1 | e1]; [rewrite Hreply; now eexists _, _ |].
      destruct (f 2%nat) as [t2 | e2]; [rewrite Hreply; now eexists _, _ |].
      destruct (f 3%nat) as [t3 | e3]; [rewrite Hreply; now eexists _, _ |].
      now eexists _, _.
Qed.

(** ** The FAQ matcher *)

Lemma get_In (d : FAQHandler.Dict) (k v : string) :
  FAQHandler.get d k = Some v -> In (k, v) d.
Proof.
  induction d as [|[k' v'] d IH]; simpl; [discriminate |].
  destruct (String.eqb_spec k' k) as [-> | Hne].
  - intros [= ->]. now left.
  - intros H. right. now apply IH.
Qed.

Lemma get_of_key (d : FAQHandler.Dict) (k : string) :
  In k (FAQHandler.keys d) -> exists v, FAQHandler.get d k = Some v.
Proof.
  induction d as [|[k' v'] d IH]; simpl; [tauto |].
  intros [-> | Hin].
  - rewrite String.eqb_refl. now exists v'.
  - destruct (String.eqb k' k); [now exists v' | now apply IH].
Qed.

Lemma load_wf (file : option FAQHandler.Dict) (self : FAQHandler.Handler) :
  handler_wf (FAQHandler.load file self).
Proof. destruct file; reflexivity. Qed.

Lemma initialize_wf (file : option FAQHandler.Dict) (self : FAQHandler.Handler) :
  handler_wf self -> handler_wf (FAQHandler.initialize file self).
Proof.
  intros H. unfold FAQHandler.initialize.
  destruct (negb (FAQHandler.initialized self)); [apply load_wf | exact H].
Qed.

(** C7: let [q] be the query without its surrounding blanks and [data] the
    questions and answers the handler has after its attempt to load them.
    - When a stored question equals [q] up to case, the answer stored for
      such a question is returned.
    - Otherwise, when there are stored questions, the answer of the best
      fuzzy match (one of the stored questions) is returned if its score is
      at least 75, and nothing is returned if the score is below 75.
    - Otherwise nothing is returned.
    - When the file cannot be loaded the call does not raise: it returns
      nothing, for every query, and the handler is left without data and
      not initialized. *)
Theorem get_faq_answer_correct
    (extractOne : string -> list string -> string * Q * nat)
    (file : option FAQHandler.Dict) (self : FAQHandler.Handler) (query : string) :
  handler_wf self ->
  let self' := FAQHandler.initialize file self in
  let data := FAQHandler.faq_data self' in
  let q := Py.strip query in
  let result := FAQHandler.get_faq_answer extractOne file self query in
  snd result = self' /\
  ((exists key, In key (FAQHandler.keys data) /\ Py.lower key = Py.lower q) ->
     exists key answer,
       In (key, answer) data /\ Py.lower key = Py.lower q /\
       fst result = Ret (Some answer)) /\
  ((forall key, In key (FAQHandler.keys data) -> Py.lower key <> Py.lower q) ->
     (FAQHandler.keys data = [] -> fst result = Ret None) /\
     (forall best score idx,
        FAQHandler.keys data <> [] ->
        extractOne q (FAQHandler.keys data) = (best, score, idx) ->
        In best (FAQHandler.keys data) ->
        exists answer,
          In (best, answer) data /\
          ((75 # 1 <= score)%Q -> fst result = Ret (Some answer)) /\
          (~ (75 # 1 <= score)%Q -> fst result = Ret None))) /\
  (FAQHandler.initialized self = false -> file = None ->
     result = (Ret None, {| FAQHandler.faq_data := [];
                            FAQHandler.question_list := [];
                            FAQHandler.initialized := false |})).
Proof.
  intros Hwf self' data q result.
  assert (Hwf' : handler_wf self') by now apply initialize_wf.
  unfold result, FAQHandler.get_faq_answer.
  fold (FAQHandler.initialize file self). fold self'. fold data. fold q.
  split; [| split; [| split]].
  - destruct (find _ (FAQHandler.keys data)); [reflexivity |].
    destruct (FAQHandler.question_list self'); [reflexivity |].
    destruct (extractOne q _) as [[best score] idx].
    destruct (Qle_bool _ score); reflexivity.
  - intros [key [Hin Hlow]].
    destruct (find _ (FAQHandler.keys data)) as [key' |] eqn:Efind.
    + apply find_some in Efind as [Hin' Heq]. apply String.eqb_eq in Heq.
      destruct (get_of_key data key' Hin') as [answer Hget].
      exists key', answer. split; [now apply get_In |]. split; [assumption |].
      cbn [fst]. unfold FAQHandler.getitem. now rewrite Hget.
    + exfalso. apply (find_none _ _ Efind) in Hin.
      rewrite Hlow, String.eqb_refl in Hin. discriminate.
  - intros Hnone.
    destruct (find _ (FAQHandler.keys data)) as [key' |] eqn:Efind.
    { exfalso. apply find_some in Efind as [Hin' Heq]. apply String.eqb_eq in Heq.
      now apply (Hnone key'). }
    rewrite Hwf'. fold data. split.
    + intros ->. reflexivity.
    + intros best score idx Hne Hext Hbest.
      destruct (FAQHandler.keys data) as [|k ks] eqn:Ekeys; [congruence |].
      rewrite Hext.
      destruct (get_of_key data best) as [answer Hget]; [now rewrite Ekeys |].
      exists answer. split; [now apply get_In |]. split.
      * intros Hle. apply Qle_bool_iff in Hle. unfold FAQHandler.THRESHOLD.
        rewrite Hle. cbn [fst]. now rewrite Hget.
      * intros Hlt. unfold FAQHandler.THRESHOLD.
        destruct (Qle_bool (75 # 1) score) eqn:E; [| reflexivity].
        exfalso. apply Hlt. now apply Qle_bool_iff.
  - intros Hinit ->. unfold self' in *. unfold data, FAQHandler.initialize in *.
    rewrite Hinit in *. cbn. rewrite Hinit. reflexivity.
Qed.

(** ** The session cache *)

Import SessionManager.

(** A turn on a session that is in the cache, the store answering: the pair
    is appended in the cache, one entry is written, the session document gets
    its new [last_active_at]; the store keeps both times in milliseconds. *)
Lemma add_to_conversation_cached (sid q r : string) (w : World) (s : Session) :
  _lock w = false ->
  _sessions w !! sid = Some s ->
  faults (env w) (store_calls w) = false ->
  faults (env w) (S (store_calls w)) = false ->
  exists w',
    add_to_conversation sid q r w = (Ret tt, w') /\
    _lock w' = false /\
    _sessions w' = alter (append_history r) sid (alter (append_history q) sid (_sessions w)) /\
    conversations_collection w' =
      conversations_collection w ++
      [ {| conv_session_id := sid; conv_user_query := Some q;
           conv_bot_response := Some r;
           conv_timestamp := bson_datetime (clock (env w) (clock_reads w)) |} ] /\
    sessions_collection w' =
      alter (set_last_active_at (bson_datetime (clock (env w) (S (clock_reads w))))) sid
        (sessions_collection w) /\
    env w' = env w /\
    clock_reads w' = S (S (clock_reads w)) /\
    uuid_reads w' = uuid_reads w /\
    store_calls w' = S (S (store_calls w)) /\
    _expiration_delta w' = _expiration_delta w.
Proof.
  intros Hlock Hcache Hf1 Hf2.
  unfold add_to_conversation, bind, with_lock. rewrite Hlock.
  unfold cache_get. simpl. rewrite Hcache. simpl.
  unfold conversations_insert_one, store_call. simpl. rewrite Hf1.
  unfold sessions_update_last_active, store_call. simpl. rewrite Hf2.
  eexists. split; [reflexivity |]. simpl. repeat split.
Qed.

Lemma lookup_alter_history (m : gmap string Session) sid c hist q r :
  m !! sid = Some {| session_id := sid; created_at := c; query_history := hist |} ->
  alter (append_history r) sid (alter (append_history q) sid m) !! sid =
  Some {| session_id := sid; created_at := c; query_history := hist ++ [q; r] |}.
Proof.
  intros H. rewrite !lookup_alter_eq, H. simpl. unfold append_history. simpl.
  now rewrite <- app_assoc.
Qed.

Lemma of_session_refl (sid : string) (q r : option string) (t : Z) :
  of_session sid {| conv_session_id := sid; conv_user_query := q;
                    conv_bot_response := r; conv_timestamp := t |} = true.
Proof. unfold of_session. simpl. apply String.eqb_refl. Qed.

Lemma turn_times_cons (e : Env) (first n : nat) :
  turn_times e first (S n) = clock e first :: turn_times e (S (S first)) n.
Proof.
  unfold turn_times. cbn [seq map]. f_equal.
  - f_equal. lia.
  - rewrite <- seq_shift, map_map. apply map_ext. intros i. f_equal. lia.
Qed.

Lemma stamped_turns_cons (e : Env) (first : nat) (t : string * string)
    (turns : list (string * string)) :
  stamped_turns e first (t :: turns) =
  (t, cut_to_milliseconds (clock e first)) :: stamped_turns e (S (S first)) turns.
Proof.
  unfold stamped_turns. cbn [length]. now rewrite turn_times_cons.
Qed.

Lemma stamped_turns_fst (e : Env) (turns : list (string * string)) :
  forall first, map fst (stamped_turns e first turns) = turns.
Proof.
  induction turns as [|t turns IH]; intros first; [reflexivity |].
  rewrite stamped_turns_cons. cbn [map fst]. now rewrite IH.
Qed.

(** Turns in a row on a session of the cache, the store answering: they all
    return, the cache has them in their order, and the store has one entry
    for each, in the order of the calls, under the time of its call. *)
Lemma add_turns_run (sid : string) (turns : list (string * string)) :
  forall (w : World) (c : Z) (hist : list string),
    _lock w = false ->
    healthy (env w) ->
    _sessions w !! sid =
      Some {| session_id := sid; created_at := c; query_history := hist |} ->
    exists w',
      add_turns sid turns w = (Ret tt, w') /\
      _lock w' = false /\
      _sessions w' !! sid =
        Some {| session_id := sid; created_at := c;
                query_history := hist ++ flatten_turns turns |} /\
      conversations_collection w' =
        conversations_collection w ++
        map (entry_of_turn sid) (stamped_turns (env w) (clock_reads w) turns) /\
      (doc_created_at <$> sessions_collection w' !! sid) =
        (doc_created_at <$> sessions_collection w !! sid) /\
      env w' = env w.
Proof.
  induction turns as [|[q r] turns IH]; intros w c hist Hlock Hh Hcache.
  - exists w. cbn [add_turns flatten_turns flat_map stamped_turns]. simpl.
    rewrite !app_nil_r. repeat split; assumption.
  - destruct (add_to_conversation_cached sid q r w _ Hlock Hcache (Hh _) (Hh _))
      as [w1 [Hrun1 [Hl1 [Hs1 [Hc1 [Hd1 [He1 [Hk1 _]]]]]]]].
    destruct (IH w1 c (hist ++ [q; r])) as [w2 [Hrun2 [Hl2 [Hs2 [Hc2 [Hd2 He2]]]]]].
    + exact Hl1.
    + now rewrite He1.
    + rewrite Hs1. now apply lookup_alter_history.
    + exists w2. split; [| split; [| split; [| split; [| split]]]].
      * cbn [add_turns]. unfold bind. rewrite Hrun1. exact Hrun2.
      * exact Hl2.
      * rewrite Hs2. unfold flatten_turns. cbn [flat_map fst snd].
        now rewrite <- app_assoc.
      * rewrite Hc2, Hc1, He1, Hk1, stamped_turns_cons. cbn [map].
        rewrite <- app_assoc. reflexivity.
      * rewrite Hd2, Hd1, lookup_alter_eq.
        now destruct (sessions_collection w !! sid).
      * now rewrite He2.
Qed.

Lemma sort_by_timestamp_sorted (l : list ConversationDoc) :
  StronglySorted later l -> sort_by_timestamp l = l.
Proof.
  induction l as [|x l IH]; [reflexivity |].
  intros H. apply StronglySorted_cons in H as [Hx Hl].
  unfold sort_by_timestamp in *. cbn [fold_right]. rewrite (IH Hl).
  destruct l as [|y l]; [reflexivity |].
  cbn [insert_by_timestamp].
  apply Forall_cons in Hx as [Hxy _]. unfold later in Hxy.
  destruct (Z.leb_spec (conv_timestamp x) (conv_timestamp y)); [reflexivity | lia].
Qed.

(** The sort gives the same entries, by ascending timestamp. *)
Lemma insert_by_timestamp_perm (d : ConversationDoc) (l : list ConversationDoc) :
  insert_by_timestamp d l ≡ₚ d :: l.
Proof.
  induction l as [|x l IH]; [reflexivity |]. cbn [insert_by_timestamp].
  destruct (conv_timestamp d <=? conv_timestamp x); [reflexivity |].
  rewrite IH. apply Permutation_swap.
Qed.

Lemma sort_by_timestamp_perm (l : list ConversationDoc) : sort_by_timestamp l ≡ₚ l.
Proof.
  induction l as [|x l IH]; [reflexivity |].
  unfold sort_by_timestamp in *. cbn [fold_right].
  rewrite insert_by_timestamp_perm. now rewrite IH.
Qed.

Lemma insert_by_timestamp_ascending (d : ConversationDoc) (l : list ConversationDoc) :
  StronglySorted not_later l -> StronglySorted not_later (insert_by_timestamp d l).
Proof.
  induction l as [|x l IH]; intros H.
  - repeat constructor.
  - cbn [insert_by_timestamp].
    apply StronglySorted_cons in H as [Hx Hl].
    destruct (Z.leb_spec (conv_timestamp d) (conv_timestamp x)) as [Hle | Hgt].
    + apply StronglySorted_cons. split.
      * constructor; [exact Hle |].
        eapply Forall_impl; [exact Hx |]. unfold not_later. intros y Hy. simpl in *. lia.
      * now apply StronglySorted_cons.
    + apply StronglySorted_cons. split; [| now apply IH].
      rewrite insert_by_timestamp_perm. constructor; [| exact Hx].
      unfold not_later. lia.
Qed.

Lemma sort_by_timestamp_ascending (l : list ConversationDoc) :
  StronglySorted not_later (sort_by_timestamp l).
Proof.
  induction l as [|x l IH]; [constructor |].
  unfold sort_by_timestamp in *. cbn [fold_right].
  now apply insert_by_timestamp_ascending.
Qed.

(** The history that [get_session] builds from the entries of turns. *)
Lemma history_of_entries (sid : string) (l : list ((string * string) * Z)) :
  forall acc,
    fold_left history_step (map (entry_of_turn sid) l) acc =
    acc ++ flatten_turns (map fst l).
Proof.
  induction l as [|[[q r] t] l IH]; intros acc.
  - simpl. now rewrite app_nil_r.
  - cbn [map fold_left fst]. rewrite IH. unfold history_step, entry_of_turn. simpl.
    unfold flatten_turns. cbn [flat_map fst snd]. now rewrite <- !app_assoc.
Qed.

Lemma turn_of_entry_of_turn (sid : string) (x : (string * string) * Z) :
  turn_of_entry (entry_of_turn sid x) = x.
Proof. now destruct x as [[q r] t]. Qed.

Lemma filter_entries (sid : string) (l : list ((string * string) * Z)) :
  List.filter (of_session sid) (map (entry_of_turn sid) l) = map (entry_of_turn sid) l.
Proof.
  induction l as [|x l IH]; [reflexivity |]. cbn [map List.filter].
  unfold entry_of_turn at 1. rewrite of_session_refl. now rewrite IH.
Qed.

(** What the sort makes of the entries of turns: the same turns, by
    ascending stamp, and the history that is read from them. *)
Lemma sorted_entries_of_turns (sid : string) (l : list ((string * string) * Z)) :
  exists reordered,
    reordered ≡ₚ l /\
    StronglySorted by_stamp reordered /\
    fold_left history_step (sort_by_timestamp (map (entry_of_turn sid) l)) [] =
    flatten_turns (map fst reordered).
Proof.
  set (sorted := sort_by_timestamp (map (entry_of_turn sid) l)).
  assert (Hperm : sorted ≡ₚ map (entry_of_turn sid) l) by apply sort_by_timestamp_perm.
  assert (Himg : Forall (fun d => entry_of_turn sid (turn_of_entry d) = d) sorted).
  { rewrite Hperm. apply List.Forall_forall. intros d Hd.
    apply in_map_iff in Hd as [x [<- _]]. now rewrite turn_of_entry_of_turn. }
  exists (map turn_of_entry sorted). split; [| split].
  - rewrite Hperm, map_map.
    erewrite map_ext; [now rewrite map_id |].
    intros x. simpl. apply turn_of_entry_of_turn.
  - pose proof (sort_by_timestamp_ascending (map (entry_of_turn sid) l)) as Hs.
    fold sorted in Hs. clearbody sorted. clear Hperm Himg.
    induction Hs as [|d rest Hrest IH Hd]; [constructor |].
    cbn [map]. constructor; [exact IH |].
    apply List.Forall_forall. intros y Hy. apply in_map_iff in Hy as [d' [<- Hd']].
    rewrite List.Forall_forall in Hd. exact (Hd d' Hd').
  - assert (Hback : sorted = map (entry_of_turn sid) (map turn_of_entry sorted)).
    { clearbody sorted. clear Hperm.
      induction Himg as [|d rest Hd Hrest IH]; [reflexivity |].
      cbn [map]. now rewrite Hd, <- IH. }
    rewrite Hback at 1. now rewrite history_of_entries.
Qed.

Lemma get_session_load_run (sid : string) (w : World) (doc : SessionDoc) (c : Z) :
  _lock w = false ->
  _sessions w !! sid = None ->
  faults (env w) (store_calls w) = false ->
  faults (env w) (S (store_calls w)) = false ->
  sessions_collection w !! sid = Some doc ->
  doc_created_at doc = Some c ->
  let loaded := {| session_id := sid; created_at := c;
                   query_history := stored_history sid w |} in
  exists w',
    get_session sid w = (Ret (Some loaded), w') /\
    _lock w' = false /\
    _sessions w' = <[sid := loaded]> (_sessions w) /\
    sessions_collection w' = sessions_collection w /\
    conversations_collection w' = conversations_collection w /\
    env w' = env w /\
    clock_reads w' = clock_reads w /\
    store_calls w' = S (S (store_calls w)).
Proof.
  intros Hlock Hcache Hf1 Hf2 Hdoc Hc loaded.
  unfold get_session, bind, with_lock. rewrite Hlock.
  unfold cache_get. simpl. rewrite Hcache. simpl.
  unfold sessions_find_one, store_call. simpl. rewrite Hf1, Hdoc.
  unfold conversations_find_sorted, store_call. simpl. rewrite Hf2. simpl.
  rewrite Hc. simpl.
  eexists. split; [reflexivity |]. simpl. repeat split.
Qed.

(** [create_session] on a free lock, the store answering and the identifier
    being new: the session is in the cache and in the store, without
    history; the store has its time of creation in milliseconds. *)
Lemma create_session_fresh (w : World) :
  _lock w = false ->
  faults (env w) (store_calls w) = false ->
  sessions_collection w !! uuids (env w) (uuid_reads w) = None ->
  let sid := uuids (env w) (uuid_reads w) in
  let now := clock (env w) (clock_reads w) in
  let s := {| session_id := sid; created_at := now; query_history := [] |} in
  exists w',
    create_session w = (Ret s, w') /\
    _lock w' = false /\
    _sessions w' = <[sid := s]> (_sessions w) /\
    (exists doc, sessions_collection w' !! sid = Some doc /\
                 doc_created_at doc = Some (bson_datetime now)) /\
    conversations_collection w' = conversations_collection w /\
    env w' = env w /\
    clock_reads w' = S (clock_reads w).
Proof.
  intros Hlock Hf Hnew sid now s.
  unfold create_session, bind, with_lock. rewrite Hlock.
  unfold uuid4, utcnow, cache_set, sessions_insert_one, store_call. simpl.
  rewrite Hf, Hnew. simpl.
  eexists. split; [reflexivity |]. simpl. repeat split.
  eexists. split; [apply lookup_insert_eq | reflexivity].
Qed.

Lemma flatten_turns_length (turns : list (string * string)) :
  length (flatten_turns turns) = (2 * length turns)%nat.
Proof.
  unfold flatten_turns. induction turns as [|t turns IH]; [reflexivity |].
  cbn [flat_map app length]. rewrite IH. lia.
Qed.

(** C1, as stated, fails: the order in which [get_session] reads the
    entries back is the order of their timestamps, which are readings of
    the clock of the machine, not the order of the calls. Here the clock
    steps back between two turns (it reads 9000 and 9100 microseconds
    during the first turn, 4000 and 4100 during the second): the cache has
    the turns in the order of the calls, and the session that is read back
    after eviction has the second turn before the first. *)
Lemma clock_step_back_reorders_history :
  let e := {| clock := fun n => match n with
                                | 0%nat => 2000
                                | 1%nat => 9000
                                | 2%nat => 9100
                                | 3%nat => 4000
                                | _ => 4100
                                end;
              uuids := fun _ => "s1"; faults := fun _ => false |} in
  let w1 := snd (create_session (__init__ Config.default_settings ∅ [] e)) in
  let w2 := snd (add_turns "s1" [("first", "one"); ("second", "two")] w1) in
  fst (add_turns "s1" [("first", "one"); ("second", "two")] w1) = Ret tt /\
  query_history <$> (_sessions w2 !! "s1") = Some ["first"; "one"; "second"; "two"] /\
  fst (get_session "s1" (evict "s1" w2)) =
    Ret (Some {| session_id := "s1"; created_at := 2000;
                 query_history := ["second"; "two"; "first"; "one"] |}).
Proof. vm_compute. repeat split. Qed.

(** C1 (amended): a session is created, the store answering and the
    identifier being new; then any sequence of turns is added, whatever the
    clock reads. Every call returns, the history of the session in the cache
    is the turns in their order, each query followed by its response, and
    its length is twice the number of turns. When the session then leaves
    the cache, [get_session] reads it back from the store and puts it in the
    cache again: the same identifier, the time of creation cut to
    milliseconds, and as history the same turns, each one as its query then
    its response, by ascending timestamp, the timestamp of a turn being the
    reading of the clock at its call, cut to milliseconds. When these
    timestamps increase strictly from one turn to the next, that is the same
    ordered sequence as in the cache. *)
Theorem history_roundtrip (w : World) (turns : list (string * string)) :
  _lock w = false ->
  healthy (env w) ->
  sessions_collection w !! uuids (env w) (uuid_reads w) = None ->
  stored_entries (uuids (env w) (uuid_reads w)) w = [] ->
  let stamped := stamped_turns (env w) (S (clock_reads w)) turns in
  exists s0 w1 w2 s2 s3 w3,
    create_session w = (Ret s0, w1) /\
    query_history s0 = [] /\
    add_turns (session_id s0) turns w1 = (Ret tt, w2) /\
    _sessions w2 !! session_id s0 = Some s2 /\
    query_history s2 = flatten_turns turns /\
    length (query_history s2) = (2 * length turns)%nat /\
    get_session (session_id s0) (evict (session_id s0) w2) = (Ret (Some s3), w3) /\
    _sessions w3 !! session_id s0 = Some s3 /\
    session_id s3 = session_id s0 /\
    created_at s3 = cut_to_milliseconds (created_at s0) /\
    (exists reordered,
       reordered ≡ₚ stamped /\
       StronglySorted by_stamp reordered /\
       query_history s3 = flatten_turns (map fst reordered)) /\
    (StronglySorted Z.lt (map snd stamped) -> query_history s3 = query_history s2).
Proof.
  intros Hlock Hh Hnew Hnone stamped.
  destruct (create_session_fresh w Hlock (Hh _) Hnew)
    as [w1 [Hrun1 [Hl1 [Hs1 [[doc [Hdoc Hc]] [Hconv1 [Henv1 Hk1]]]]]]].
  set (sid := uuids (env w) (uuid_reads w)) in *.
  set (c := clock (env w) (clock_reads w)) in *.
  destruct (add_turns_run sid turns w1 c [])
    as [w2 [Hrun2 [Hl2 [Hs2 [Hconv2 [Hdoc2 Henv2]]]]]].
  { exact Hl1. }
  { now rewrite Henv1. }
  { rewrite Hs1. apply lookup_insert_eq. }
  cbn [app] in Hs2.
  rewrite Henv1, Hk1 in Hconv2. fold stamped in Hconv2.
  rewrite Hdoc in Hdoc2. cbn in Hdoc2.
  destruct (sessions_collection w2 !! sid) as [doc2 |] eqn:Hdoc2'; [| discriminate].
  cbn in Hdoc2. injection Hdoc2 as Hc2. rewrite Hc in Hc2.
  assert (Hstored : stored_entries sid w2 = map (entry_of_turn sid) stamped).
  { unfold stored_entries. rewrite Hconv2, Hconv1, List.filter_app.
    unfold stored_entries in Hnone. rewrite Hnone. apply filter_entries. }
  destruct (get_session_load_run sid (evict sid w2) doc2 (bson_datetime c))
    as [w3 [Hrun3 [_ [Hs3 _]]]].
  { exact Hl2. }
  { apply lookup_delete_eq. }
  { simpl. rewrite Henv2, Henv1. apply Hh. }
  { simpl. rewrite Henv2, Henv1. apply Hh. }
  { exact Hdoc2'. }
  { exact Hc2. }
  assert (Hhist : stored_history sid (evict sid w2) =
                  fold_left history_step
                    (sort_by_timestamp (map (entry_of_turn sid) stamped)) []).
  { unfold stored_history. now rewrite <- Hstored. }
  rewrite Hhist in Hrun3, Hs3.
  eexists _, w1, w2, _, _, w3.
  split; [exact Hrun1 |]. cbn [session_id query_history created_at].
  split; [reflexivity |]. split; [exact Hrun2 |]. split; [exact Hs2 |].
  split; [reflexivity |]. split; [apply flatten_turns_length |].
  split; [exact Hrun3 |].
  split; [rewrite Hs3; apply lookup_insert_eq |].
  split; [reflexivity |]. split; [reflexivity |]. split.
  - apply sorted_entries_of_turns.
  - intros Hstrict.
    rewrite sort_by_timestamp_sorted, history_of_entries.
    + unfold stamped. now rewrite stamped_turns_fst.
    + clear - Hstrict. induction stamped as [|x l IH]; [constructor |].
      cbn [map] in *. apply StronglySorted_cons in Hstrict as [Hx Hl].
      constructor; [now apply IH |].
      apply List.Forall_forall. intros d Hd. apply in_map_iff in Hd as [y [<- Hy]].
      unfold later. simpl. rewrite List.Forall_forall in Hx.
      apply Hx. now apply in_map.
Qed.

(** A turn on an identifier that the cache does not hold never returns:
    under the cache lock, [add_to_conversation] calls [get_session], which
    asks for the same lock. Nothing is appended, nothing is written, no
    [ValueError] is raised. *)
Lemma add_to_conversation_uncached (sid q r : string) (w : World) :
  _lock w = false ->
  _sessions w !! sid = None ->
  exists w',
    add_to_conversation sid q r w = (Hang, w') /\
    _lock w' = true /\
    _sessions w' = _sessions w /\
    sessions_collection w' = sessions_collection w /\
    conversations_collection w' = conversations_collection w /\
    store_calls w' = store_calls w.
Proof.
  intros Hlock Hcache.
  unfold add_to_conversation, bind, with_lock at 1. rewrite Hlock.
  unfold cache_get. simpl. rewrite Hcache.
  unfold get_session, bind, with_lock. simpl.
  eexists. split; [reflexivity |]. simpl. repeat split.
Qed.

(** C2: the failing input. On a manager that has just been built, over an
    empty store, a turn for an identifier that neither the cache nor the
    store knows hangs on the cache lock instead of raising
    [ValueError("Session not found")]; the store is never asked. *)
Theorem add_to_conversation_unknown_id_hangs :
  let e := {| clock := fun n => Z.of_nat n; uuids := fun _ => "s1";
              faults := fun _ => false |} in
  let w := __init__ Config.default_settings ∅ [] e in
  fst (add_to_conversation "no-such-session" "hello" "hi" w) = Hang /\
  fst (add_to_conversation "no-such-session" "hello" "hi" w)
    <> Raise (ValueError "Session not found") /\
  trace (snd (add_to_conversation "no-such-session" "hello" "hi" w)) = [Acquire].
Proof.
  intros e w.
  destruct (add_to_conversation_uncached "no-such-session" "hello" "hi" w)
    as [w' [Hrun _]]; [reflexivity | apply lookup_empty |].
  rewrite Hrun. cbn [fst]. split; [reflexivity |]. split; [discriminate |].
  unfold add_to_conversation, bind, with_lock, get_session, cache_get in Hrun.
  simpl in Hrun. injection Hrun as <-. reflexivity.
Qed.

(** ** The expiration window never changes *)

Lemma keeps_bind {A B} (m : M A) (k : A -> M B) :
  keeps_window m -> (forall a, keeps_window (k a)) -> keeps_window (bind m k).
Proof.
  intros Hm Hk w. unfold bind. specialize (Hm w).
  destruct (m w) as [[a | e |] w']; simpl in *; [rewrite Hk |..]; exact Hm.
Qed.

Lemma keeps_with_lock {A} (body : M A) :
  keeps_window body -> keeps_window (with_lock body).
Proof.
  intros H w. unfold with_lock. destruct (_lock w); [reflexivity |].
  specialize (H (log Acquire (set_lock true w))).
  destruct (body _) as [[a | e |] w']; simpl in *; exact H.
Qed.

Lemma keeps_store_call {A} (name : string) (action : M A) :
  keeps_window action -> keeps_window (store_call name action).
Proof.
  intros H w. unfold store_call. destruct (faults (env w) (store_calls w)); [reflexivity |].
  now rewrite H.
Qed.

Ltac keeps_window :=
  repeat match goal with
    | |- keeps_window (bind _ _) => apply keeps_bind
    | |- keeps_window (with_lock _) => apply keeps_with_lock
    | |- keeps_window (store_call _ _) => apply keeps_store_call
    | |- forall _, _ => intro
    | |- keeps_window (match ?x with _ => _ end) => destruct x
    | |- keeps_window _ => solve [intros w; simpl; repeat case_match; reflexivity]
    end.

Lemma keeps_delete_session (sid : string) : keeps_window (delete_session sid).
Proof.
  unfold delete_session, sessions_delete_one, conversations_delete_many.
  keeps_window.
Qed.

Lemma keeps_create_session : keeps_window create_session.
Proof. unfold create_session, sessions_insert_one. keeps_window. Qed.

Lemma keeps_get_session (sid : string) : keeps_window (get_session sid).
Proof.
  unfold get_session, sessions_find_one, conversations_find_sorted.
  keeps_window. apply keeps_delete_session.
Qed.

Lemma keeps_add_to_conversation (sid q r : string) :
  keeps_window (add_to_conversation sid q r).
Proof.
  unfold add_to_conversation, conversations_insert_one, sessions_update_last_active.
  keeps_window. apply keeps_get_session.
Qed.

(** ** Expiration *)

(** C3, as stated, fails: the window is not the one of the settings. With
    the default settings (1440 minutes), a session created at time 0 and
    asked for two days later is older than the configured window, and
    [get_session] still returns it and leaves it in the cache. *)
Lemma expiration_ignores_settings :
  let e := {| clock := fun n => match n with O => 0 | _ => timedelta_days 2 end;
              uuids := fun _ => "s1"; faults := fun _ => false |} in
  let w := __init__ Config.default_settings ∅ [] e in
  let s := {| session_id := "s1"; created_at := 0; query_history := [] |} in
  fst (create_session w) = Ret s /\
  clock e 1 - created_at s >
    timedelta_minutes (Config.session_expiration_minutes Config.default_settings) /\
  fst (get_session "s1" (snd (create_session w))) = Ret (Some s) /\
  _sessions (snd (get_session "s1" (snd (create_session w)))) !! "s1" = Some s.
Proof. vm_compute. repeat split. Qed.

(** C3 (amended): in a manager built by [__init__], whatever the settings,
    the expiration window is the constant ten years (3650 days), and a
    session of the cache is expired exactly when [now - created_at] exceeds
    that window: [get_session] returns a cached session, and leaves the cache
    and the store as they are, exactly when the session has not expired. *)
Theorem get_session_expiration_window (settings : Config.Settings)
    (sessions : gmap string SessionDoc) (conversations : list ConversationDoc)
    (e : Env) (w : World) (sid : string) (s : Session) :
  _expiration_delta w = _expiration_delta (__init__ settings sessions conversations e) ->
  _lock w = false ->
  _sessions w !! sid = Some s ->
  _expiration_delta w = timedelta_days 3650 /\
  ((exists w',
      get_session sid w = (Ret (Some s), w') /\
      _lock w' = false /\
      _sessions w' = _sessions w /\
      sessions_collection w' = sessions_collection w /\
      conversations_collection w' = conversations_collection w) <->
   ~ (clock (env w) (clock_reads w) - created_at s > timedelta_days 3650)).
Proof.
  intros Hinit Hlock Hcache.
  assert (Hdelta : _expiration_delta w = timedelta_days 3650) by exact Hinit.
  split; [exact Hdelta |].
  unfold get_session, bind, with_lock. rewrite Hlock.
  unfold cache_get. simpl. rewrite Hcache. simpl. rewrite Hdelta, Z.gtb_ltb.
  destruct (Z.ltb_spec (timedelta_days 3650)
              (clock (env w) (clock_reads w) - created_at s)) as [Hlt | Hge].
  - (* expired *)
    unfold delete_session, bind, with_lock. simpl.
    split; [| lia]. intros [w' [Hrun _]]. discriminate Hrun.
  - split; [lia |]. intros _.
    eexists. split; [reflexivity |]. simpl. repeat split.
Qed.

(** ** The lock and the store *)

(** [delete_session] follows the discipline: the cache is changed under the
    lock, the store is called after the lock is released. *)
Lemma delete_session_discipline (sid : string) (w : World) :
  _lock w = false ->
  exists tr,
    trace (snd (delete_session sid w)) = trace w ++ tr /\
    no_store_under_lock false tr = true /\
    cache_under_lock false tr = true.
Proof.
  intros Hlock.
  unfold delete_session, bind, with_lock. rewrite Hlock.
  unfold cache_get. simpl.
  destruct (_sessions w !! sid); simpl;
    unfold sessions_delete_one, conversations_delete_many, store_call; simpl;
    destruct (faults (env w) (store_calls w)); simpl;
    try destruct (faults (env w) (S (store_calls w))); simpl;
    rewrite <- ?app_assoc; eexists; (split; [reflexivity |]); split; reflexivity.
Qed.

(** So does a turn on a session of the cache: both appends under the lock,
    both store calls after it. *)
Lemma add_to_conversation_discipline (sid q r : string) (w : World) (s : Session) :
  _lock w = false ->
  _sessions w !! sid = Some s ->
  exists tr,
    trace (snd (add_to_conversation sid q r w)) = trace w ++ tr /\
    no_store_under_lock false tr = true /\
    cache_under_lock false tr = true.
Proof.
  intros Hlock Hcache.
  unfold add_to_conversation, bind, with_lock. rewrite Hlock.
  unfold cache_get. simpl. rewrite Hcache. simpl.
  unfold conversations_insert_one, sessions_update_last_active, store_call. simpl.
  destruct (faults (env w) (store_calls w)); simpl;
    try destruct (faults (env w) (S (store_calls w))); simpl;
    rewrite <- ?app_assoc; eexists; (split; [reflexivity |]); split; reflexivity.
Qed.

(** C9: the failing input is any call of [create_session]. Whatever the
    store answers, the call inserts the session in the cache under the
    lock and then calls [sessions_collection.insert_one] before the lock is
    released: a store call is executed while the cache lock is held. *)
Theorem create_session_store_call_under_lock (w : World) :
  _lock w = false ->
  trace (snd (create_session w)) =
    trace w ++ [Acquire; CacheMutation; StoreOp "sessions.insert_one"; Release] /\
  cache_under_lock false
    [Acquire; CacheMutation; StoreOp "sessions.insert_one"; Release] = true /\
  no_store_under_lock false
    [Acquire; CacheMutation; StoreOp "sessions.insert_one"; Release] = false.
Proof.
  intros Hlock. split; [| split; reflexivity].
  unfold create_session, bind, with_lock. rewrite Hlock.
  unfold uuid4, utcnow, cache_set, sessions_insert_one, store_call. simpl.
  destruct (faults (env w) (store_calls w)); simpl.
  - now rewrite <- !app_assoc.
  - destruct (sessions_collection w !! uuids (env w) (uuid_reads w)); simpl;
      now rewrite <- !app_assoc.
Qed.

(** ** Turns and store failures *)

(** C10, as stated, fails when only the update of [last_active_at] fails:
    the entry has been written by then, so the store does contain the
    turn. Here the third call to the store fails (the first one creates the
    session, the second one inserts the entry). *)
Lemma last_active_failure_keeps_entry :
  let e := {| clock := fun n => Z.of_nat n; uuids := fun _ => "s1";
              faults := fun n => (n =? 2)%nat |} in
  let w := snd (create_session (__init__ Config.default_settings ∅ [] e)) in
  let w' := snd (add_to_conversation "s1" "hello" "hi" w) in
  fst (add_to_conversation "s1" "hello" "hi" w) = Raise StoreUnavailable /\
  query_history <$> (_sessions w' !! "s1") = Some ["hello"; "hi"] /\
  exists stamp,
    conversations_collection w' =
      [ {| conv_session_id := "s1"; conv_user_query := Some "hello";
           conv_bot_response := Some "hi"; conv_timestamp := stamp |} ].
Proof.
  vm_compute. split; [reflexivity |]. split; [reflexivity |].
  eexists. reflexivity.
Qed.

(** C10 (amended): a turn on a cached session is not atomic. The pair is
    appended to the history in the cache before the store is written, and is
    not taken back. When the insertion of the entry fails, the call raises,
    the cache has the turn and the store has nothing of it. When the
    insertion succeeds and the update of [last_active_at] fails, the call
    raises, the cache has the turn, the store has the entry of the turn
    (under the timestamp that the store made of the time of the call), and
    the session document keeps its old [last_active_at]. *)
Theorem add_to_conversation_not_atomic (sid q r : string) (w : World) (s : Session) :
  _lock w = false ->
  _sessions w !! sid = Some s ->
  (faults (env w) (store_calls w) = true ->
   exists w',
     add_to_conversation sid q r w = (Raise StoreUnavailable, w') /\
     _sessions w' !! sid = Some (append_history r (append_history q s)) /\
     query_history (append_history r (append_history q s)) = query_history s ++ [q; r] /\
     conversations_collection w' = conversations_collection w /\
     sessions_collection w' = sessions_collection w) /\
  (faults (env w) (store_calls w) = false ->
   faults (env w) (S (store_calls w)) = true ->
   exists w',
     add_to_conversation sid q r w = (Raise StoreUnavailable, w') /\
     _sessions w' !! sid = Some (append_history r (append_history q s)) /\
     query_history (append_history r (append_history q s)) = query_history s ++ [q; r] /\
     (exists stamp,
        conversations_collection w' =
          conversations_collection w ++
          [ {| conv_session_id := sid; conv_user_query := Some q;
               conv_bot_response := Some r; conv_timestamp := stamp |} ]) /\
     sessions_collection w' = sessions_collection w).
Proof.
  intros Hlock Hcache.
  assert (Hhist : query_history (append_history r (append_history q s))
                  = query_history s ++ [q; r]).
  { simpl. now rewrite <- app_assoc. }
  split.
  - intros Hf1.
    unfold add_to_conversation, bind, with_lock. rewrite Hlock.
    unfold cache_get. simpl. rewrite Hcache. simpl.
    unfold conversations_insert_one, store_call. simpl. rewrite Hf1.
    eexists. split; [reflexivity |]. simpl.
    split; [now rewrite !lookup_alter_eq, Hcache |]. now split.
  - intros Hf1 Hf2.
    unfold add_to_conversation, bind, with_lock. rewrite Hlock.
    unfold cache_get. simpl. rewrite Hcache. simpl.
    unfold conversations_insert_one, store_call. simpl. rewrite Hf1.
    unfold sessions_update_last_active, store_call. simpl. rewrite Hf2.
    eexists. split; [reflexivity |]. simpl.
    split; [now rewrite !lookup_alter_eq, Hcache |].
    split; [exact Hhist |]. split; [| reflexivity].
    eexists. reflexivity.
Qed.

(** ** The properties at sample inputs *)

Lemma history_roundtrip_witness :
  exists s0 w1 w2 s2 s3 w3,
    create_session steady_world = (Ret s0, w1) /\
    add_turns (session_id s0) [("hello", "hi"); ("bye", "goodbye")] w1 = (Ret tt, w2) /\
    _sessions w2 !! session_id s0 = Some s2 /\
    query_history s2 = flatten_turns [("hello", "hi"); ("bye", "goodbye")] /\
    get_session (session_id s0) (evict (session_id s0) w2) = (Ret (Some s3), w3) /\
    created_at s3 = cut_to_milliseconds (created_at s0) /\
    query_history s3 = query_history s2.
Proof.
  destruct (history_roundtrip steady_world [("hello", "hi"); ("bye", "goodbye")])
    as (s0 & w1 & w2 & s2 & s3 & w3 & H1 & _ & H3 & H4 & H5 & _ & H7 & _ & _ & H10 & _ & Hsame).
  - reflexivity.
  - intros n. reflexivity.
  - vm_compute. reflexivity.
  - reflexivity.
  - exists s0, w1, w2, s2, s3, w3.
    split; [exact H1 |]. split; [exact H3 |]. split; [exact H4 |].
    split; [exact H5 |]. split; [exact H7 |]. split; [exact H10 |].
    apply Hsame. cbv. repeat constructor.
Defined.

Lemma get_session_expiration_window_witness :
  _lock (sample_world_with_session (fun _ => false)) = false /\
  _sessions (sample_world_with_session (fun _ => false)) !! "s1" = Some sample_session /\
  _expiration_delta (sample_world_with_session (fun _ => false)) = timedelta_days 3650 /\
  ((exists w',
      get_session "s1" (sample_world_with_session (fun _ => false))
        = (Ret (Some sample_session), w') /\
      _lock w' = false /\
      _sessions w' = _sessions (sample_world_with_session (fun _ => false)) /\
      sessions_collection w' =
        sessions_collection (sample_world_with_session (fun _ => false)) /\
      conversations_collection w' =
        conversations_collection (sample_world_with_session (fun _ => false))) <->
   ~ (clock (env (sample_world_with_session (fun _ => false)))
        (clock_reads (sample_world_with_session (fun _ => false)))
      - created_at sample_session > timedelta_days 3650)).
Proof.
  assert (H1 : _lock (sample_world_with_session (fun _ => false)) = false)
    by (vm_compute; reflexivity).
  assert (H2 : _sessions (sample_world_with_session (fun _ => false)) !! "s1"
               = Some sample_session) by (vm_compute; reflexivity).
  split; [exact H1 |]. split; [exact H2 |].
  apply (get_session_expiration_window Config.default_settings ∅ []
           (sample_env (fun _ => false))); [vm_compute; reflexivity | exact H1 | exact H2].
Defined.

Lemma generate_response_retries_witness :
  (exists reply log,
     LLMClient.generate_response LLMClient.__init__ (fun _ => slow_model)
       "hello" ["hi"; "hey"] = (Ret reply, log) /\
     reply = {| LLMClient.text := "ok"; LLMClient.escalated := false |} /\
     log = [LLMClient.EvCall 1; LLMClient.EvSleep (2 # 1); LLMClient.EvCall 2;
            LLMClient.EvSleep (4 # 1); LLMClient.EvCall 3]) /\
  LLMClient.generate_response LLMClient.__init__ failing_model "hello" ["hi"; "hey"] =
    (Ret {| LLMClient.text := LLMClient.APOLOGY; LLMClient.escalated := false |},
     [LLMClient.EvCall 1; LLMClient.EvSleep (2 # 1); LLMClient.EvCall 2;
      LLMClient.EvSleep (4 # 1); LLMClient.EvCall 3]).
Proof.
  split.
  - eexists _, _. split.
    + apply (proj1 (proj2 (proj2 (proj2 generate_response_retries
                                     (fun _ => slow_model) "hello" ["hi"; "hey"])))
               ModelCallFailed ModelCallFailed (Some "ok")); reflexivity.
    + split; vm_compute; reflexivity.
  - apply (proj1 (proj2 (proj2 (proj2 (proj2 generate_response_retries
                                          failing_model "hello" ["hi"; "hey"]))))
             ModelCallFailed ModelCallFailed ModelCallFailed); reflexivity.
Defined.

Lemma get_faq_answer_correct_witness :
  handler_wf FAQHandler.__init__ /\
  (exists key answer,
     In (key, answer) sample_faq /\
     Py.lower key = Py.lower (Py.strip "  where do you STUDY? ") /\
     fst (FAQHandler.get_faq_answer (sample_scorer (0 # 1)) (Some sample_faq)
            FAQHandler.__init__ "  where do you STUDY? ") = Ret (Some answer)) /\
  (exists answer,
     In ("What are your skills?", answer) sample_faq /\
     fst (FAQHandler.get_faq_answer (sample_scorer (80 # 1)) (Some sample_faq)
            FAQHandler.__init__ "your skills") = Ret (Some answer)) /\
  fst (FAQHandler.get_faq_answer (sample_scorer (74 # 1)) (Some sample_faq)
         FAQHandler.__init__ "your skills") = Ret None /\
  FAQHandler.get_faq_answer (sample_scorer (100 # 1)) None
    FAQHandler.__init__ "your skills"
  = (Ret None, FAQHandler.__init__).
Proof.
  assert (Hwf : handler_wf FAQHandler.__init__) by reflexivity.
  assert (Hmiss : forall key,
            In key (FAQHandler.keys sample_faq) ->
            Py.lower key <> Py.lower (Py.strip "your skills")).
  { intros key [<- | [<- | []]]; vm_compute; discriminate. }
  split; [exact Hwf |]. split; [| split; [| split]].
  - destruct (get_faq_answer_correct (sample_scorer (0 # 1)) (Some sample_faq)
                FAQHandler.__init__ "  where do you STUDY? " Hwf)
      as [_ [Hexact _]].
    apply Hexact. exists "Where do you study?". split; [right; now left |].
    vm_compute. reflexivity.
  - destruct (get_faq_answer_correct (sample_scorer (80 # 1)) (Some sample_faq)
                FAQHandler.__init__ "your skills" Hwf)
      as [_ [_ [Hfuzzy _]]].
    destruct (proj2 (Hfuzzy Hmiss) "What are your skills?" (80 # 1) 0%nat)
      as [answer [Hin [Hyes _]]];
      [discriminate | reflexivity | now left |].
    exists answer. split; [exact Hin |]. apply Hyes. vm_compute. discriminate.
  - destruct (get_faq_answer_correct (sample_scorer (74 # 1)) (Some sample_faq)
                FAQHandler.__init__ "your skills" Hwf)
      as [_ [_ [Hfuzzy _]]].
    destruct (proj2 (Hfuzzy Hmiss) "What are your skills?" (74 # 1) 0%nat)
      as [answer [_ [_ Hno]]];
      [discriminate | reflexivity | now left |].
    apply Hno. vm_compute. intros H. apply H. reflexivity.
  - destruct (get_faq_answer_correct (sample_scorer (100 # 1)) None
                FAQHandler.__init__ "your skills" Hwf)
      as [_ [_ [_ Hload]]].
    apply Hload; reflexivity.
Defined.

Lemma create_session_store_call_under_lock_witness :
  _lock (sample_world (fun _ => false)) = false /\
  trace (snd (create_session (sample_world (fun _ => false)))) =
    trace (sample_world (fun _ => false))
    ++ [Acquire; CacheMutation; StoreOp "sessions.insert_one"; Release] /\
  cache_under_lock false
    [Acquire; CacheMutation; StoreOp "sessions.insert_one"; Release] = true /\
  no_store_under_lock false
    [Acquire; CacheMutation; StoreOp "sessions.insert_one"; Release] = false.
Proof.
  split; [reflexivity |].
  apply (create_session_store_call_under_lock (sample_world (fun _ => false))).
  reflexivity.
Defined.

Lemma add_to_conversation_not_atomic_witness :
  (exists w',
     add_to_conversation "s1" "hello" "hi"
       (sample_world_with_session (fun n => (n =? 1)%nat))
     = (Raise StoreUnavailable, w') /\
     _sessions w' !! "s1" =
       Some (append_history "hi" (append_history "hello" sample_session)) /\
     query_history (append_history "hi" (append_history "hello" sample_session))
       = query_history sample_session ++ ["hello"; "hi"] /\
     conversations_collection w' =
       conversations_collection (sample_world_with_session (fun n => (n =? 1)%nat)) /\
     sessions_collection w' =
       sessions_collection (sample_world_with_session (fun n => (n =? 1)%nat))) /\
  (exists w',
     add_to_conversation "s1" "hello" "hi"
       (sample_world_with_session (fun n => (n =? 2)%nat))
     = (Raise StoreUnavailable, w') /\
     _sessions w' !! "s1" =
       Some (append_history "hi" (append_history "hello" sample_session)) /\
     query_history (append_history "hi" (append_history "hello" sample_session))
       = query_history sample_session ++ ["hello"; "hi"] /\
     (exists stamp,
        conversations_collection w' =
          conversations_collection (sample_world_with_session (fun n => (n =? 2)%nat)) ++
          [ {| conv_session_id := "s1"; conv_user_query := Some "hello";
               conv_bot_response := Some "hi"; conv_timestamp := stamp |} ]) /\
     sessions_collection w' =
       sessions_collection (sample_world_with_session (fun n => (n =? 2)%nat))).
Proof.
  split.
  - apply (add_to_conversation_not_atomic "s1" "hello" "hi"
             (sample_world_with_session (fun n => (n =? 1)%nat)) sample_session);
      vm_compute; reflexivity.
  - apply (add_to_conversation_not_atomic "s1" "hello" "hi"
             (sample_world_with_session (fun n => (n =? 2)%nat)) sample_session);
      vm_compute; reflexivity.
Defined.

(** * Further properties of the code *)

(** ** Stripping and cleaning texts *)

Lemma lstrip_clean (s : string) : starts_clean s = true -> Py.lstrip s = s.
Proof.
  destruct s as [|c s]; [reflexivity |]. simpl.
  destruct (Py.isspace c); [discriminate | reflexivity].
Qed.

Lemma lstrip_starts_clean (s : string) : starts_clean (Py.lstrip s) = true.
Proof.
  induction s as [|c s IH]; [reflexivity |]. simpl.
  destruct (Py.isspace c) eqn:E; [exact IH |]. simpl. now rewrite E.
Qed.

Lemma rstrip_clean (s : string) : ends_clean s = true -> Py.rstrip s = s.
Proof.
  induction s as [|c s IH]; [reflexivity |].
  cbn [ends_clean Py.rstrip]. destruct s as [|d s].
  - simpl. intros H. now destruct (Py.isspace c).
  - intros H. rewrite (IH H). reflexivity.
Qed.

Lemma rstrip_ends_clean (s : string) : ends_clean (Py.rstrip s) = true.
Proof.
  induction s as [|c s IH]; [reflexivity |].
  cbn [Py.rstrip]. destruct (Py.rstrip s) as [|d t] eqn:E.
  - destruct (Py.isspace c) eqn:Ec; [reflexivity |]. simpl. now rewrite Ec.
  - exact IH.
Qed.

Lemma rstrip_starts_clean (s : string) :
  starts_clean s = true -> starts_clean (Py.rstrip s) = true.
Proof.
  destruct s as [|c s]; [reflexivity |]. cbn [Py.rstrip starts_clean].
  intros H. destruct (Py.rstrip s); [| exact H].
  destruct (Py.isspace c) eqn:E; [reflexivity | simpl; now rewrite E].
Qed.

Lemma lstrip_forall (P : ascii -> bool) (s : string) :
  string_forall P s = true -> string_forall P (Py.lstrip s) = true.
Proof.
  induction s as [|c s IH]; [reflexivity |]. simpl.
  intros H. apply andb_true_iff in H as [Hc Hs].
  destruct (Py.isspace c); [now apply IH |]. simpl. now rewrite Hc, Hs.
Qed.

Lemma rstrip_forall (P : ascii -> bool) (s : string) :
  string_forall P s = true -> string_forall P (Py.rstrip s) = true.
Proof.
  induction s as [|c s IH]; [reflexivity |]. cbn [Py.rstrip string_forall].
  intros H. apply andb_true_iff in H as [Hc Hs]. specialize (IH Hs).
  destruct (Py.rstrip s) as [|d t].
  - destruct (Py.isspace c); [reflexivity |]. simpl. now rewrite Hc.
  - cbn [string_forall] in *. now rewrite Hc, IH.
Qed.





(** The result of [strip] has no white space at either end, and [strip]
    leaves such a text as it is. *)
Lemma strip_clean (s : string) :
  starts_clean (Py.strip s) = true /\ ends_clean (Py.strip s) = true.
Proof.
  unfold Py.strip. split.
  - apply rstrip_starts_clean, lstrip_starts_clean.
  - apply rstrip_ends_clean.
Qed.

Lemma strip_fixed (s : string) :
  starts_clean s = true -> ends_clean s = true -> Py.strip s = s.
Proof.
  intros H1 H2. unfold Py.strip. rewrite (lstrip_clean s H1). now apply rstrip_clean.
Qed.

Lemma strip_idempotent (s : string) : Py.strip (Py.strip s) = Py.strip s.
Proof. destruct (strip_clean s). now apply strip_fixed. Qed.







(** ** Lines of a text *)

Lemma split_lf_cons (s : string) : exists x rest, Py.split_lf s = x :: rest.
Proof.
  induction s as [|c s [x [rest IH]]]; simpl; [now eexists _, _ |].
  destruct (Ascii.eqb c (ascii_of_nat 10)); [now eexists _, _ |].
  rewrite IH. now eexists _, _.
Qed.

Lemma split_lf_no_lf (s : string) :
  Forall (fun y => string_forall (fun c => negb (is_lf c)) y = true) (Py.split_lf s).
Proof.
  induction s as [|c s IH]; simpl; [repeat constructor |].
  destruct (Ascii.eqb c (ascii_of_nat 10)) eqn:E.
  - constructor; [reflexivity | exact IH].
  - destruct (Py.split_lf s) as [|x rest].
    + constructor; [| constructor]. simpl. unfold is_lf. now rewrite E.
    + apply Forall_cons in IH as [Hx Hrest]. constructor; [| exact Hrest].
      simpl. unfold is_lf at 1. now rewrite E, Hx.
Qed.

(** Joining the pieces of [split] with the separator gives the text back. *)
Lemma join_split_lf (s : string) : Py.join Py.LF (Py.split_lf s) = s.
Proof.
  induction s as [|c s IH]; [reflexivity |]. simpl.
  destruct (split_lf_cons s) as [x [rest E]]. rewrite E in *.
  destruct (Ascii.eqb_spec c (ascii_of_nat 10)) as [-> | Hne].
  - change (String (ascii_of_nat 10) (Py.join Py.LF (x :: rest))
            = String (ascii_of_nat 10) s).
    now rewrite IH.
  - destruct rest as [|y rest].
    + simpl in *. now rewrite IH.
    + change (String c (Py.join Py.LF (x :: y :: rest)) = String c s).
      now rewrite IH.
Qed.

Lemma split_lf_one_line (y : string) :
  string_forall (fun c => negb (is_lf c)) y = true -> Py.split_lf y = [y].
Proof.
  induction y as [|c y IH]; [reflexivity |]. cbn [string_forall Py.split_lf].
  intros H. apply andb_true_iff in H as [Hc Hy]. unfold is_lf in Hc.
  apply negb_true_iff in Hc. rewrite Hc, (IH Hy). reflexivity.
Qed.

Lemma split_lf_first_line (y rest : string) :
  string_forall (fun c => negb (is_lf c)) y = true ->
  Py.split_lf (y +:+ Py.LF +:+ rest) = y :: Py.split_lf rest.
Proof.
  induction y as [|c y IH]; intros H.
  - reflexivity.
  - cbn [string_forall] in H. apply andb_true_iff in H as [Hc Hy].
    unfold is_lf in Hc. apply negb_true_iff in Hc.
    change (String c y +:+ Py.LF +:+ rest) with (String c (y +:+ Py.LF +:+ rest)).
    cbn [Py.split_lf]. rewrite Hc, (IH Hy). reflexivity.
Qed.

(** The pieces of [split] on the lines joined by line feeds are the lines. *)
Lemma split_lf_join (x : string) (lines : list string) :
  Forall (fun y => string_forall (fun c => negb (is_lf c)) y = true) (x :: lines) ->
  Py.split_lf (Py.join Py.LF (x :: lines)) = x :: lines.
Proof.
  revert x. induction lines as [|y lines IH]; intros x H.
  - apply Forall_cons in H as [Hx _]. now apply split_lf_one_line.
  - apply Forall_cons in H as [Hx H].
    change (Py.join Py.LF (x :: y :: lines))
      with (x +:+ Py.LF +:+ Py.join Py.LF (y :: lines)).
    rewrite (split_lf_first_line _ _ Hx), (IH y H). reflexivity.
Qed.

Lemma map_filter_strip (l : list string) :
  map Py.strip
    (List.filter (fun s => negb (String.eqb (Py.strip s) EmptyString)) l) =
  List.filter (fun x => negb (String.eqb x EmptyString)) (map Py.strip l).
Proof.
  induction l as [|y l IH]; [reflexivity |]. cbn [List.filter map].
  destruct (negb (String.eqb (Py.strip y) EmptyString)); cbn [map]; now rewrite IH.
Qed.

(** X2: the suggestions that [get_suggestions] builds from the text of the
    model are the lines of that text without their surrounding white space,
    in the order of the text, the lines that are blank being left out: for
    lines joined by line feeds, the suggestions are exactly the stripped
    lines that are not empty. So none is empty, none begins or ends with
    white space, none holds a line feed, and a text of white space only
    gives no suggestion. *)
Theorem suggestion_lines_clean :
  (forall lines : list string,
     Forall (fun y => string_forall (fun c => negb (is_lf c)) y = true) lines ->
     LLMClient.suggestion_lines (Py.join Py.LF lines) =
     List.filter (fun x => negb (String.eqb x EmptyString)) (map Py.strip lines)) /\
  (forall suggested : string,
     exists lines,
       Forall (fun y => string_forall (fun c => negb (is_lf c)) y = true) lines /\
       suggested = Py.join Py.LF lines) /\
  (forall suggested : string,
     Forall (fun x =>
               x <> EmptyString /\
               Py.strip x = x /\
               string_forall (fun c => negb (is_lf c)) x = true)
       (LLMClient.suggestion_lines suggested)) /\
  (forall suggested : string,
     string_forall Py.isspace suggested = true ->
     LLMClient.suggestion_lines suggested = []).
Proof.
  split; [| split; [| split]].
  - intros [|x lines] H; [reflexivity |].
    unfold LLMClient.suggestion_lines.
    rewrite (split_lf_join x lines H). apply map_filter_strip.
  - intros suggested. exists (Py.split_lf suggested).
    split; [apply split_lf_no_lf | symmetry; apply join_split_lf].
  - intros suggested. apply List.Forall_forall. intros x Hx.
    unfold LLMClient.suggestion_lines in Hx.
    apply in_map_iff in Hx as [y [<- Hy]].
    apply List.filter_In in Hy as [Hin Hne].
    split; [| split].
    + intros E. rewrite E in Hne. discriminate.
    + apply strip_idempotent.
    + pose proof (split_lf_no_lf suggested) as Hall.
      rewrite List.Forall_forall in Hall. specialize (Hall y Hin).
      unfold Py.strip. now apply rstrip_forall, lstrip_forall.
  - intros suggested Hblank.
    unfold LLMClient.suggestion_lines.
    assert (Hstrip : forall y, string_forall Py.isspace y = true -> Py.strip y = EmptyString).
    { intros y Hy. unfold Py.strip.
      assert (Hl : Py.lstrip y = EmptyString).
      { induction y as [|c y IH]; [reflexivity |]. simpl in *.
        apply andb_true_iff in Hy as [Hc Hy]. rewrite Hc. now apply IH. }
      now rewrite Hl. }
    assert (Hpieces : Forall (fun y => string_forall Py.isspace y = true)
                        (Py.split_lf suggested)).
    { clear Hstrip. induction suggested as [|c s IH]; simpl; [repeat constructor |].
      simpl in Hblank. apply andb_true_iff in Hblank as [Hc Hs]. specialize (IH Hs).
      destruct (Ascii.eqb c (ascii_of_nat 10)); [now constructor |].
      destruct (Py.split_lf s) as [|x rest].
      - constructor; [| constructor]. simpl. now rewrite Hc.
      - apply Forall_cons in IH as [Hx Hrest]. constructor; [| exact Hrest].
        simpl. now rewrite Hc, Hx. }
    induction Hpieces as [|y l Hy Hl IH]; [reflexivity |].
    cbn [List.filter]. rewrite (Hstrip y Hy). simpl. exact IH.
Qed.

(** ** More on the escalation detector *)

Lemma occurs_trans (a b c : string) : occurs a b -> occurs b c -> occurs a c.
Proof.
  intros [p1 [q1 ->]] [p2 [q2 ->]].
  exists (p2 +:+ p1), (q1 +:+ q2). now rewrite !append_assoc.
Qed.

Lemma occurs_ignorecase_within (p s t : string) :
  occurs_ignorecase p s -> occurs s t -> occurs_ignorecase p t.
Proof.
  intros [mid [Hocc Hlow]] Hst. exists mid. split; [| exact Hlow].
  now apply (occurs_trans mid s t).
Qed.

(** X3: over any text, the verdict of [is_unsatisfactory] depends on the
    folded text only (two texts that differ in the case of ASCII letters get
    the same verdict), and a text that contains an unsatisfactory text is
    unsatisfactory: nothing that is put before or after an answer can make
    the detector accept it. The verdict is not the one of the lowered text,
    though: "İ don't know" (with U+0130) is unsatisfactory, and its
    [lower()], which is i, the combining dot U+0307 and " don't know", is
    not. *)
Theorem is_unsatisfactory_stable :
  (forall (lower : Unicode.str -> Unicode.str) (s t : Unicode.str),
     map fold s = map fold t ->
     fst (Unicode.is_unsatisfactory lower s) =
     fst (Unicode.is_unsatisfactory lower t)) /\
  (forall (lower : Unicode.str -> Unicode.str) (pre s post : Unicode.str),
     implb (fst (Unicode.is_unsatisfactory lower s))
       (fst (Unicode.is_unsatisfactory lower (pre ++ s ++ post))) = true) /\
  (forall lower : Unicode.str -> Unicode.str,
     fst (Unicode.is_unsatisfactory lower
            (304%N :: Unicode.of_string " don't know")) = true /\
     fst (Unicode.is_unsatisfactory lower
            (105%N :: 775%N :: Unicode.of_string " don't know")) = false).
Proof.
  split; [| split].
  - intros lower s t H. now rewrite !unicode_verdict, H.
  - intros lower pre s post.
    destruct (fst (Unicode.is_unsatisfactory lower s)) eqn:E; [| reflexivity].
    cbn [implb]. rewrite unicode_verdict in *.
    apply existsb_exists in E as [p [Hin Hc]].
    apply existsb_exists. exists p. split; [exact Hin |].
    apply unicode_contains_spec in Hc as [a [b Hc]].
    apply unicode_contains_spec.
    exists (map fold pre ++ a), (b ++ map fold post).
    rewrite !map_app, Hc, <- !app_assoc. reflexivity.
  - intros lower. rewrite !unicode_verdict. split; vm_compute; reflexivity.
Qed.

(** X4: every escalation note is itself an unsatisfactory text for the
    detector (its footer says "Escalate"), whatever the query and the
    history: the notes that [handle_query] stores as bot responses would be
    escalated again if they were judged. *)
Theorem escalation_note_is_unsatisfactory (user_query : string) (h : list string) :
  exists note,
    EscalationHandler.create_escalation_note user_query h = Ret note /\
    fst (Prompts.is_unsatisfactory note) = true.
Proof.
  unfold EscalationHandler.create_escalation_note.
  rewrite escalation_note_lines_correct. cbn [obind].
  eexists. split; [reflexivity |].
  apply is_unsatisfactory_verdict. exists "escalate".
  split; [vm_compute; tauto |].
  apply (occurs_ignorecase_within "escalate"
           "Recommended Action: Escalate this issue to a human customer support agent.").
  - exists "Escalate". split; [| reflexivity].
    exists "Recommended Action: ",
      " this issue to a human customer support agent.". reflexivity.
  - rewrite app_assoc.
    apply (occurs_join_line Py.LF
             "Recommended Action: Escalate this issue to a human customer support agent."
             _ ["======================="]).
Qed.

(** ** The retry loop of the model client, for every client *)

Lemma backoff_log_cons (a b : nat) (rest : list nat) (delay : Q) :
  backoff_log (a :: b :: rest) delay =
  LLMClient.EvCall a :: LLMClient.EvSleep delay
    :: backoff_log (b :: rest) (Qmult delay (2 # 1)).
Proof. reflexivity. Qed.

Lemma retry_loop_success (func : nat -> LLMClient.CallResult) (n k : nat)
    (t : option string) :
  func k = LLMClient.Responded t ->
  forall m a delay,
    (a + m = n + 1)%nat -> (a <= k <= n)%nat ->
    model_fails_between func a k ->
    LLMClient.retry_loop func n (seq a m) delay =
    (Ret t, backoff_log (seq a (k - a + 1)) delay).
Proof.
  intros Hk. induction m as [|m IH]; intros a delay Ham Hak Hfail; [lia |].
  cbn [seq LLMClient.retry_loop].
  destruct (Nat.eq_dec a k) as [-> | Hne].
  - rewrite Hk. replace (k - k + 1)%nat with 1%nat by lia. reflexivity.
  - destruct (Hfail a) as [e He]; [lia |]. rewrite He.
    destruct (Nat.ltb_spec a n) as [_ | Hge]; [| lia].
    rewrite (IH (S a) (Qmult delay (2 # 1))); [| lia | lia |].
    + replace (k - a + 1)%nat with (S (S (k - S a))) by lia.
      replace (k - S a + 1)%nat with (S (k - S a)) by lia.
      reflexivity.
    + intros j Hj. apply Hfail. lia.
Qed.

Lemma retry_loop_failure (func : nat -> LLMClient.CallResult) (n : nat) (e : Exn) :
  func n = LLMClient.Failed e ->
  forall m a delay,
    (a + m = n + 1)%nat -> (a <= n)%nat ->
    model_fails_between func a n ->
    LLMClient.retry_loop func n (seq a m) delay =
    (Raise e, backoff_log (seq a (n - a + 1)) delay).
Proof.
  intros Hn. induction m as [|m IH]; intros a delay Ham Han Hfail; [lia |].
  cbn [seq LLMClient.retry_loop].
  destruct (Nat.eq_dec a n) as [-> | Hne].
  - rewrite Hn, Nat.ltb_irrefl. replace (n - n + 1)%nat with 1%nat by lia. reflexivity.
  - destruct (Hfail a) as [e' He]; [lia |]. rewrite He.
    destruct (Nat.ltb_spec a n) as [_ | Hge]; [| lia].
    rewrite (IH (S a) (Qmult delay (2 # 1))); [| lia | lia |].
    + replace (n - a + 1)%nat with (S (S (n - S a))) by lia.
      replace (n - S a + 1)%nat with (S (n - S a)) by lia.
      reflexivity.
    + intros j Hj. apply Hfail. lia.
Qed.

(** What a returned value of the loop is: the answer of some attempt, or
    [None] when there was no attempt to make. *)
Lemma retry_loop_ret (func : nat -> LLMClient.CallResult) (n : nat) :
  forall m a delay r,
    (a + m = n + 1)%nat ->
    fst (LLMClient.retry_loop func n (seq a m) delay) = Ret r ->
    (m = 0%nat /\ r = None) \/
    exists k, (a <= k <= n)%nat /\ func k = LLMClient.Responded r.
Proof.
  induction m as [|m IH]; intros a delay r Ham.
  - simpl. intros [= <-]. now left.
  - cbn [seq LLMClient.retry_loop]. destruct (func a) as [t | e] eqn:E.
    + cbn [fst]. intros [= <-]. right. exists a. split; [lia | exact E].
    + destruct (Nat.ltb_spec a n) as [Hlt | Hge]; [| discriminate].
      specialize (IH (S a) (Qmult delay (2 # 1)) r).
      destruct (LLMClient.retry_loop func n (seq (S a) m) (Qmult delay (2 # 1)))
        as [o log].
      cbn [fst] in *. intros Hr.
      destruct IH as [[Hm _] | [k [Hk Hf]]]; [lia | exact Hr | lia |].
      right. exists k. split; [lia | exact Hf].
Qed.

Lemma retry_loop_no_hang (func : nat -> LLMClient.CallResult) (n : nat) :
  forall attempts delay,
    fst (LLMClient.retry_loop func n attempts delay) <> Hang.
Proof.
  induction attempts as [|a rest IH]; intros delay; [discriminate |].
  cbn [LLMClient.retry_loop]. destruct (func a); [discriminate |].
  destruct (a <? n)%nat; [| discriminate].
  specialize (IH (Qmult delay (2 # 1))).
  destruct (LLMClient.retry_loop func n rest (Qmult delay (2 # 1))). exact IH.
Qed.

(** X5: [_retry_api_call], for every client. With no attempt allowed
    ([max_retries = 0]) the function is not called and [None] is returned.
    When the call answers at attempt [k] after failing at the attempts
    before, that answer is returned after exactly [k] calls. When it fails at
    all the [max_retries] attempts, the exception of the last attempt is
    raised. In both cases a sleep precedes each new attempt, the first of
    [retry_delay], each next one twice as long. *)
Theorem retry_api_call_outcome (self : LLMClient.Client)
    (func : nat -> LLMClient.CallResult) :
  (LLMClient.max_retries self = 0%nat ->
   LLMClient._retry_api_call self func = (Ret None, [])) /\
  (forall k t,
     (1 <= k <= LLMClient.max_retries self)%nat ->
     model_fails_between func 1 k ->
     func k = LLMClient.Responded t ->
     LLMClient._retry_api_call self func =
     (Ret t, backoff_log (seq 1 k) (LLMClient.retry_delay self))) /\
  (forall e,
     (1 <= LLMClient.max_retries self)%nat ->
     model_fails_between func 1 (LLMClient.max_retries self) ->
     func (LLMClient.max_retries self) = LLMClient.Failed e ->
     LLMClient._retry_api_call self func =
     (Raise e, backoff_log (seq 1 (LLMClient.max_retries self))
                 (LLMClient.retry_delay self))).
Proof.
  unfold LLMClient._retry_api_call. split; [| split].
  - intros ->. reflexivity.
  - intros k t Hk Hfail Hresp.
    rewrite (retry_loop_success func _ k t Hresp); [| lia | lia | exact Hfail].
    now replace (k - 1 + 1)%nat with k by lia.
  - intros e Hn Hfail Hlast.
    rewrite (retry_loop_failure func _ e Hlast); [| lia | lia | exact Hfail].
    now replace (LLMClient.max_retries self - 1 + 1)%nat
      with (LLMClient.max_retries self) by lia.
Qed.

(** [generate_response] returns a reply for every client. *)
Lemma generate_response_returns (self : LLMClient.Client)
    (model : string -> nat -> LLMClient.CallResult)
    (user_query : string) (h : list string) :
  exists reply log,
    LLMClient.generate_response self model user_query h = (Ret reply, log).
Proof.
  unfold LLMClient.generate_response. rewrite prompt_messages.
  pose proof (retry_loop_no_hang
                (model (Py.join Py.LF (map LLMClient.render
                   ({| Prompts.role := "system"; Prompts.content := Prompts.system_content |}
                      :: imap message_of_index h
                      ++ [ {| Prompts.role := "user"; Prompts.content := user_query |} ]))))
                (LLMClient.max_retries self)
                (seq 1 (LLMClient.max_retries self)) (LLMClient.retry_delay self)) as Hhang.
  unfold LLMClient._retry_api_call.
  destruct (LLMClient.retry_loop _ _ _ _) as [[[t |] | e |] log]; cbn [fst] in *.
  - destruct (Prompts.is_unsatisfactory t) as [[|] printed]; now eexists _, _.
  - now eexists _, _.
  - now eexists _, _.
  - congruence.
Qed.

(** X6: [generate_response] returns a reply for every client, every model,
    every query and every history: no configuration makes it raise. An
    escalated reply carries the fixed escalation text and comes from an
    answer of the model that the detector rejects; a reply that is not
    escalated is the apology or an answer of the model that the detector
    accepts. *)
Theorem generate_response_total_any_client (self : LLMClient.Client)
    (model : string -> nat -> LLMClient.CallResult)
    (user_query : string) (h : list string) :
  exists reply log,
    LLMClient.generate_response self model user_query h = (Ret reply, log) /\
    if LLMClient.escalated reply
    then LLMClient.text reply = LLMClient.ESCALATED_TEXT /\
         exists k t, model (prompt_text user_query h) k = LLMClient.Responded (Some t) /\
                     fst (Prompts.is_unsatisfactory t) = true
    else LLMClient.text reply = LLMClient.APOLOGY \/
         exists k, model (prompt_text user_query h) k =
                     LLMClient.Responded (Some (LLMClient.text reply)) /\
                   fst (Prompts.is_unsatisfactory (LLMClient.text reply)) = false.
Proof.
  unfold LLMClient.generate_response.
  rewrite prompt_messages.
  fold (prompt_text user_query h).
  set (f := model (prompt_text user_query h)).
  pose proof (retry_loop_ret f (LLMClient.max_retries self)
                (LLMClient.max_retries self) 1 (LLMClient.retry_delay self)) as Hret.
  pose proof (retry_loop_no_hang f (LLMClient.max_retries self)
                (seq 1 (LLMClient.max_retries self)) (LLMClient.retry_delay self)) as Hhang.
  unfold LLMClient._retry_api_call.
  destruct (LLMClient.retry_loop f (LLMClient.max_retries self)
              (seq 1 (LLMClient.max_retries self)) (LLMClient.retry_delay self))
    as [[[t |] | e |] log]; cbn [fst] in *.
  - destruct (Hret (Some t)) as [[_ Hnone] | [k [_ Hk]]]; [lia | reflexivity | discriminate |].
    destruct (Prompts.is_unsatisfactory t) as [verdict printed] eqn:E.
    destruct verdict; eexists _, _; (split; [reflexivity |]); cbn.
    + split; [reflexivity |]. exists k, t. now rewrite E.
    + right. exists k. now rewrite E.
  - eexists _, _. split; [reflexivity |]. cbn. now left.
  - eexists _, _. split; [reflexivity |]. cbn. now left.
  - congruence.
Qed.

(** X7: [summarize_session], for every client. The first attempt at which
    the model answers ends the loop: its text is the summary when it is not
    empty, and "No summary available." stands for a text that is missing or
    empty. When the [max_retries] attempts fail, the exception is not
    raised: the summary is "Unable to generate summary at this time.". A
    client that is allowed no attempt gets [None]. The call never raises,
    and a summary that it returns is never the empty text. *)
Theorem summarize_session_never_empty (self : LLMClient.Client)
    (model : string -> nat -> LLMClient.CallResult) (conversation : string) :
  (LLMClient.max_retries self = 0%nat ->
   LLMClient.summarize_session self model conversation = (Ret None, [])) /\
  (forall k c text,
     (1 <= k <= LLMClient.max_retries self)%nat ->
     model_fails_between (model (Prompts.build_summary_prompt conversation)) 1 k ->
     model (Prompts.build_summary_prompt conversation) k =
       LLMClient.Responded (Some (String c text)) ->
     LLMClient.summarize_session self model conversation =
     (Ret (Some (String c text)),
      backoff_log (seq 1 k) (LLMClient.retry_delay self))) /\
  (forall k,
     (1 <= k <= LLMClient.max_retries self)%nat ->
     model_fails_between (model (Prompts.build_summary_prompt conversation)) 1 k ->
     model (Prompts.build_summary_prompt conversation) k = LLMClient.Responded None \/
     model (Prompts.build_summary_prompt conversation) k =
       LLMClient.Responded (Some EmptyString) ->
     LLMClient.summarize_session self model conversation =
     (Ret (Some LLMClient.NO_SUMMARY),
      backoff_log (seq 1 k) (LLMClient.retry_delay self))) /\
  (forall e,
     (1 <= LLMClient.max_retries self)%nat ->
     model_fails_between (model (Prompts.build_summary_prompt conversation)) 1
       (LLMClient.max_retries self) ->
     model (Prompts.build_summary_prompt conversation) (LLMClient.max_retries self) =
       LLMClient.Failed e ->
     LLMClient.summarize_session self model conversation =
     (Ret (Some LLMClient.SUMMARY_FAILED),
      backoff_log (seq 1 (LLMClient.max_retries self)) (LLMClient.retry_delay self))) /\
  (exists r log,
     LLMClient.summarize_session self model conversation = (Ret r, log) /\
     r <> Some EmptyString).
Proof.
  unfold LLMClient.summarize_session. cbv zeta.
  set (f := model (Prompts.build_summary_prompt conversation)).
  set (call := fun attempt : nat =>
         match f attempt with
         | LLMClient.Responded t =>
             LLMClient.Responded (Some (LLMClient.or_default t LLMClient.NO_SUMMARY))
         | LLMClient.Failed e => LLMClient.Failed e
         end).
  assert (Hfails : forall a b, model_fails_between f a b -> model_fails_between call a b).
  { intros a b H j Hj. destruct (H j Hj) as [e He]. exists e. unfold call. now rewrite He. }
  assert (Hanswer : forall k t,
    (1 <= k <= LLMClient.max_retries self)%nat ->
    model_fails_between f 1 k ->
    f k = LLMClient.Responded t ->
    LLMClient._retry_api_call self call =
    (Ret (Some (LLMClient.or_default t LLMClient.NO_SUMMARY)),
     backoff_log (seq 1 k) (LLMClient.retry_delay self))).
  { intros k t Hk Hf Hr. unfold LLMClient._retry_api_call.
    rewrite (retry_loop_success call _ k
               (Some (LLMClient.or_default t LLMClient.NO_SUMMARY)));
      [| unfold call; now rewrite Hr | lia | lia | now apply Hfails].
    now replace (k - 1 + 1)%nat with k by lia. }
  split; [| split; [| split; [| split]]].
  - intros H0. unfold LLMClient._retry_api_call. rewrite H0. reflexivity.
  - intros k c text Hk Hf Hr. now rewrite (Hanswer k _ Hk Hf Hr).
  - intros k Hk Hf [Hr | Hr]; now rewrite (Hanswer k _ Hk Hf Hr).
  - intros e Hn Hf Hlast. unfold LLMClient._retry_api_call.
    rewrite (retry_loop_failure call _ e);
      [| unfold call; now rewrite Hlast | lia | lia | now apply Hfails].
    now replace (LLMClient.max_retries self - 1 + 1)%nat
      with (LLMClient.max_retries self) by lia.
  - pose proof (retry_loop_ret call (LLMClient.max_retries self)
                  (LLMClient.max_retries self) 1 (LLMClient.retry_delay self)) as Hret.
    pose proof (retry_loop_no_hang call (LLMClient.max_retries self)
                  (seq 1 (LLMClient.max_retries self)) (LLMClient.retry_delay self))
      as Hhang.
    unfold LLMClient._retry_api_call.
    destruct (LLMClient.retry_loop call (LLMClient.max_retries self)
                (seq 1 (LLMClient.max_retries self)) (LLMClient.retry_delay self))
      as [[r | e |] log]; cbn [fst] in *.
    + eexists _, _. split; [reflexivity |].
      destruct (Hret r) as [[_ ->] | [k [_ Hk]]]; [lia | reflexivity | discriminate |].
      unfold call in Hk. destruct (f k) as [[[|c t] |] |]; [| | | discriminate];
        injection Hk as <-; discriminate.
    + eexists _, _. split; [reflexivity | discriminate].
    + congruence.
Qed.

(** ** The retry helper of [helpers.py] *)

Lemma repeat_loop_success {A} (func : nat -> Exn + A) (n k : nat) (v : A) (d : Z) :
  func k = inr v ->
  forall m a,
    (a + m = n)%nat -> (a <= k < n)%nat ->
    fails_between func a k ->
    Helpers.repeat_loop func n (seq a m) d =
    (Ret (Some v), steady_log (seq a (k - a + 1)) d).
Proof.
  intros Hk. induction m as [|m IH]; intros a Ham Hak Hfail; [lia |].
  cbn [seq Helpers.repeat_loop].
  destruct (Nat.eq_dec a k) as [-> | Hne].
  - rewrite Hk. replace (k - k + 1)%nat with 1%nat by lia. reflexivity.
  - destruct (Hfail a) as [e He]; [lia |]. rewrite He.
    destruct (Nat.eqb_spec a (n - 1)) as [Heq | _]; [lia |].
    rewrite (IH (S a)); [| lia | lia |].
    + replace (k - a + 1)%nat with (S (S (k - S a))) by lia.
      replace (k - S a + 1)%nat with (S (k - S a)) by lia.
      reflexivity.
    + intros j Hj. apply Hfail. lia.
Qed.

Lemma repeat_loop_failure {A} (func : nat -> Exn + A) (n : nat) (e : Exn) (d : Z) :
  func (n - 1)%nat = inl e ->
  forall m a,
    (a + m = n)%nat -> (a < n)%nat ->
    fails_between func a (n - 1) ->
    Helpers.repeat_loop func n (seq a m) d =
    (Raise e, steady_log (seq a (n - a)) d).
Proof.
  intros Hn. induction m as [|m IH]; intros a Ham Han Hfail; [lia |].
  cbn [seq Helpers.repeat_loop].
  destruct (Nat.eqb_spec a (n - 1)) as [Heq | Hne].
  - subst a. rewrite Hn. replace (n - (n - 1))%nat with 1%nat by lia. reflexivity.
  - destruct (Hfail a) as [e' He]; [lia |]. rewrite He.
    rewrite (IH (S a)); [| lia | lia |].
    + replace (n - a)%nat with (S (S (n - S (S a)))) by lia.
      replace (n - S a)%nat with (S (n - S (S a))) by lia.
      reflexivity.
    + intros j Hj. apply Hfail. lia.
Qed.

(** X8: [async_repeat_retry]. With [retries = 0] the function is not called
    and [None] is returned. When the function succeeds at attempt [k]
    (counted from 0) after failing before, its value is returned after
    [k + 1] calls. When it fails at all the [retries] attempts, the
    exception of the last attempt is raised. The sleeps between attempts
    all last [delay_sec]: there is no back-off here. *)
Theorem async_repeat_retry_outcome {A} (func : nat -> Exn + A) (retries : nat)
    (delay_sec : Z) :
  (retries = 0%nat ->
   Helpers.async_repeat_retry func retries delay_sec = (Ret None, [])) /\
  (forall k v,
     (k < retries)%nat -> fails_between func 0 k -> func k = inr v ->
     Helpers.async_repeat_retry func retries delay_sec =
     (Ret (Some v), steady_log (seq 0 (S k)) delay_sec)) /\
  (forall e,
     (1 <= retries)%nat -> fails_between func 0 (retries - 1) ->
     func (retries - 1)%nat = inl e ->
     Helpers.async_repeat_retry func retries delay_sec =
     (Raise e, steady_log (seq 0 retries) delay_sec)).
Proof.
  unfold Helpers.async_repeat_retry. split; [| split].
  - intros ->. reflexivity.
  - intros k v Hk Hfail Hv.
    rewrite (repeat_loop_success func retries k v delay_sec Hv); [| lia | lia | exact Hfail].
    now replace (k - 0 + 1)%nat with (S k) by lia.
  - intros e Hn Hfail Hlast.
    rewrite (repeat_loop_failure func retries e delay_sec Hlast); [| lia | lia | exact Hfail].
    now replace (retries - 0)%nat with retries by lia.
Qed.

(** ** The lock is given back *)

Lemma neutral_bind {A B} (m : M A) (k : A -> M B) :
  lock_neutral m -> (forall a, lock_neutral (k a)) -> lock_neutral (bind m k).
Proof.
  intros Hm Hk w. unfold bind. specialize (Hm w).
  destruct (m w) as [[a | e |] w']; cbn [fst snd] in *.
  - intros H. rewrite (Hk a w' H). apply Hm. discriminate.
  - intros _. apply Hm. discriminate.
  - congruence.
Qed.

Lemma neutral_with_lock {A} (body : M A) : lock_neutral (with_lock body).
Proof.
  intros w. unfold with_lock. destruct (_lock w) eqn:E; [cbn; congruence |].
  destruct (body _) as [[a | e |] w']; cbn; congruence.
Qed.

Lemma neutral_store_call {A} (name : string) (action : M A) :
  lock_neutral action -> lock_neutral (store_call name action).
Proof.
  intros H w. unfold store_call.
  destruct (faults (env w) (store_calls w)); [reflexivity |].
  intros Hn. now rewrite (H _ Hn).
Qed.

Ltac lock_neutral :=
  repeat match goal with
    | |- lock_neutral (bind _ _) => apply neutral_bind
    | |- lock_neutral (with_lock _) => apply neutral_with_lock
    | |- lock_neutral (store_call _ _) => apply neutral_store_call
    | |- forall _, _ => intro
    | |- lock_neutral (match ?x with _ => _ end) => destruct x
    | |- lock_neutral _ =>
        solve [intros w Hw; simpl in *; repeat case_match; congruence]
    end.

Lemma neutral_delete_session (sid : string) : lock_neutral (delete_session sid).
Proof.
  unfold delete_session, sessions_delete_one, conversations_delete_many.
  lock_neutral.
Qed.

Lemma neutral_create_session : lock_neutral create_session.
Proof. unfold create_session. lock_neutral. Qed.

Lemma neutral_get_session (sid : string) : lock_neutral (get_session sid).
Proof.
  unfold get_session, sessions_find_one, conversations_find_sorted.
  lock_neutral.
Qed.

Lemma neutral_add_to_conversation (sid q r : string) :
  lock_neutral (add_to_conversation sid q r).
Proof.
  unfold add_to_conversation, conversations_insert_one, sessions_update_last_active.
  lock_neutral.
Qed.

Lemma neutral_get_conversation_history (sid : string) :
  lock_neutral (get_conversation_history sid).
Proof.
  unfold get_conversation_history, conversations_find_sorted. lock_neutral.
Qed.

Lemma neutral_get_contextual_memory (sid : string) :
  lock_neutral (get_contextual_memory sid).
Proof. unfold get_contextual_memory, sessions_find_one. lock_neutral. Qed.

Lemma neutral_store_session_summary (sid t : string) :
  lock_neutral (store_session_summary sid t).
Proof.
  unfold store_session_summary, store_contextual_memory,
    sessions_upsert_contextual_memory.
  lock_neutral. apply neutral_get_contextual_memory.
Qed.

(** X9: whenever an operation of the session manager returns or raises, the
    cache lock is as the operation found it: a store failure, a duplicate
    key or a missing field never leaves the lock held. (A call that hangs is
    the only one that keeps it.) *)
Theorem operations_give_the_lock_back :
  lock_neutral create_session /\
  (forall sid, lock_neutral (get_session sid)) /\
  (forall sid q r, lock_neutral (add_to_conversation sid q r)) /\
  (forall sid, lock_neutral (delete_session sid)) /\
  (forall sid, lock_neutral (get_conversation_history sid)) /\
  (forall sid, lock_neutral (get_contextual_memory sid)) /\
  (forall sid t, lock_neutral (store_session_summary sid t)).
Proof.
  split; [exact neutral_create_session |].
  split; [exact neutral_get_session |].
  split; [exact neutral_add_to_conversation |].
  split; [exact neutral_delete_session |].
  split; [exact neutral_get_conversation_history |].
  split; [exact neutral_get_contextual_memory |].
  exact neutral_store_session_summary.
Qed.

(** ** Deleting a session *)

Lemma delete_session_run (sid : string) (w : World) :
  _lock w = false ->
  faults (env w) (store_calls w) = false ->
  faults (env w) (S (store_calls w)) = false ->
  exists w',
    delete_session sid w = (Ret tt, w') /\
    _lock w' = false /\
    _sessions w' = delete sid (_sessions w) /\
    sessions_collection w' = delete sid (sessions_collection w) /\
    conversations_collection w' =
      List.filter (fun d => negb (of_session sid d)) (conversations_collection w) /\
    env w' = env w /\
    store_calls w' = S (S (store_calls w)).
Proof.
  intros Hlock Hf1 Hf2.
  unfold delete_session, bind, with_lock. rewrite Hlock.
  unfold cache_get. simpl.
  destruct (_sessions w !! sid) eqn:Hcache; simpl;
    unfold sessions_delete_one, conversations_delete_many, store_call; simpl;
    rewrite Hf1; simpl; rewrite Hf2; simpl;
    (eexists; split; [reflexivity |]); simpl; repeat split.
  symmetry. now apply delete_id.
Qed.

Lemma filter_other_session (sid other : string) (l : list ConversationDoc) :
  other <> sid ->
  List.filter (of_session other) (List.filter (fun d => negb (of_session sid d)) l)
  = List.filter (of_session other) l.
Proof.
  intros Hne. induction l as [|d l IH]; [reflexivity |]. simpl.
  destruct (of_session sid d) eqn:Es; destruct (of_session other d) eqn:Eo;
    simpl; rewrite ?Eo, ?IH; try reflexivity.
  unfold of_session in Es, Eo.
  apply String.eqb_eq in Es. apply String.eqb_eq in Eo. congruence.
Qed.

Lemma filter_same_session (sid : string) (l : list ConversationDoc) :
  List.filter (of_session sid) (List.filter (fun d => negb (of_session sid d)) l) = [].
Proof.
  induction l as [|d l IH]; [reflexivity |]. simpl.
  destruct (of_session sid d) eqn:E; simpl; [exact IH |]. now rewrite E.
Qed.

Lemma filter_negb_twice (sid : string) (l : list ConversationDoc) :
  List.filter (fun d => negb (of_session sid d))
    (List.filter (fun d => negb (of_session sid d)) l)
  = List.filter (fun d => negb (of_session sid d)) l.
Proof.
  induction l as [|d l IH]; [reflexivity |]. simpl.
  destruct (of_session sid d) eqn:E; simpl; [exact IH |]. now rewrite E, IH.
Qed.

(** X10: with the store answering, [delete_session] removes the session
    from the cache, its document and all its conversation entries from the
    store, and touches no other session. Deleting again returns without
    error and changes nothing: the operation is idempotent, and does not
    need the session to exist. *)
Theorem delete_session_removes (sid : string) (w : World) :
  _lock w = false ->
  healthy (env w) ->
  exists w' w'',
    delete_session sid w = (Ret tt, w') /\
    _sessions w' !! sid = None /\
    sessions_collection w' !! sid = None /\
    stored_entries sid w' = [] /\
    (forall other, other <> sid ->
       _sessions w' !! other = _sessions w !! other /\
       sessions_collection w' !! other = sessions_collection w !! other /\
       stored_entries other w' = stored_entries other w) /\
    delete_session sid w' = (Ret tt, w'') /\
    _sessions w'' = _sessions w' /\
    sessions_collection w'' = sessions_collection w' /\
    conversations_collection w'' = conversations_collection w'.
Proof.
  intros Hlock Hh.
  destruct (delete_session_run sid w Hlock (Hh _) (Hh _))
    as [w' [Hrun [Hl [Hs [Hd [Hc [He _]]]]]]].
  destruct (delete_session_run sid w' Hl) as [w'' [Hrun' [_ [Hs' [Hd' [Hc' _]]]]]];
    [rewrite He; apply Hh | rewrite He; apply Hh |].
  exists w', w''. split; [exact Hrun |].
  split; [rewrite Hs; apply lookup_delete_eq |].
  split; [rewrite Hd; apply lookup_delete_eq |].
  split; [unfold stored_entries; rewrite Hc; apply filter_same_session |].
  split.
  { intros other Hne. rewrite Hs, Hd. unfold stored_entries. rewrite Hc.
    split; [now apply lookup_delete_ne |].
    split; [now apply lookup_delete_ne | now apply filter_other_session]. }
  split; [exact Hrun' |].
  split; [rewrite Hs', Hs; apply delete_id, lookup_delete_eq |].
  split; [rewrite Hd', Hd; apply delete_id, lookup_delete_eq |].
  rewrite Hc', Hc. apply filter_negb_twice.
Qed.

(** ** Reading a session that is not in the cache *)

Lemma get_session_unknown_run (sid : string) (w : World) :
  _lock w = false ->
  _sessions w !! sid = None ->
  faults (env w) (store_calls w) = false ->
  sessions_collection w !! sid = None ->
  exists w',
    get_session sid w = (Ret None, w') /\
    _lock w' = false /\
    _sessions w' = _sessions w /\
    sessions_collection w' = sessions_collection w /\
    conversations_collection w' = conversations_collection w /\
    env w' = env w /\
    store_calls w' = S (store_calls w).
Proof.
  intros Hlock Hcache Hf Hdoc.
  unfold get_session, bind, with_lock. rewrite Hlock.
  unfold cache_get. simpl. rewrite Hcache. simpl.
  unfold sessions_find_one, store_call. simpl. rewrite Hf, Hdoc.
  eexists. split; [reflexivity |]. simpl. repeat split.
Qed.

(** X11: [get_session] on an identifier that neither the cache nor the
    store knows returns [None] after one read of the store, and leaves the
    cache and the store as they are: the miss is not remembered. *)
Theorem get_session_unknown (sid : string) (w : World) :
  _lock w = false ->
  _sessions w !! sid = None ->
  faults (env w) (store_calls w) = false ->
  sessions_collection w !! sid = None ->
  exists w',
    get_session sid w = (Ret None, w') /\
    _lock w' = false /\
    _sessions w' = _sessions w /\
    sessions_collection w' = sessions_collection w /\
    conversations_collection w' = conversations_collection w /\
    store_calls w' = S (store_calls w).
Proof.
  intros Hlock Hcache Hf Hdoc.
  destruct (get_session_unknown_run sid w Hlock Hcache Hf Hdoc)
    as [w' [H1 [H2 [H3 [H4 [H5 [_ H7]]]]]]].
  exists w'. repeat split; assumption.
Qed.

(** X12: a session that is in the store and not in the cache is loaded by
    [get_session] (its history is the entries of the store by timestamp) and
    put in the cache; a turn added after that returns, and leaves the pair at
    the end of the history in the cache and one more entry for the session
    in the store: the call of [get_session] that [handle_query] makes first
    is what keeps [add_to_conversation] from waiting for the lock it
    holds. *)
Theorem get_session_then_add_to_conversation (sid q r : string) (w : World)
    (doc : SessionDoc) (c : Z) :
  _lock w = false ->
  healthy (env w) ->
  _sessions w !! sid = None ->
  sessions_collection w !! sid = Some doc ->
  doc_created_at doc = Some c ->
  exists w1 w2,
    get_session sid w =
      (Ret (Some {| session_id := sid; created_at := c;
                    query_history := stored_history sid w |}), w1) /\
    _sessions w1 !! sid =
      Some {| session_id := sid; created_at := c;
              query_history := stored_history sid w |} /\
    add_to_conversation sid q r w1 = (Ret tt, w2) /\
    _sessions w2 !! sid =
      Some {| session_id := sid; created_at := c;
              query_history := stored_history sid w ++ [q; r] |} /\
    exists stamp,
      stored_entries sid w2 =
        stored_entries sid w ++
        [ {| conv_session_id := sid; conv_user_query := Some q;
             conv_bot_response := Some r; conv_timestamp := stamp |} ].
Proof.
  intros Hlock Hh Hcache Hdoc Hc.
  destruct (get_session_load_run sid w doc c Hlock Hcache (Hh _) (Hh _) Hdoc Hc)
    as [w1 [Hrun1 [Hl1 [Hs1 [Hd1 [Hc1 [He1 [Hk1 _]]]]]]]].
  assert (Hlook : _sessions w1 !! sid =
            Some {| session_id := sid; created_at := c;
                    query_history := stored_history sid w |}).
  { rewrite Hs1. apply lookup_insert_eq. }
  destruct (add_to_conversation_cached sid q r w1 _ Hl1 Hlook)
    as [w2 [Hrun2 [_ [Hs2 [Hc2 _]]]]];
    [rewrite He1; apply Hh | rewrite He1; apply Hh |].
  exists w1, w2. split; [exact Hrun1 |]. split; [exact Hlook |].
  split; [exact Hrun2 |]. split.
  - rewrite Hs2. now apply lookup_alter_history.
  - eexists. unfold stored_entries. rewrite Hc2, Hc1, List.filter_app. simpl.
    now rewrite of_session_refl.
Qed.

(** ** The contextual memory *)

Lemma get_contextual_memory_run (sid : string) (w : World) :
  faults (env w) (store_calls w) = false ->
  exists w',
    get_contextual_memory sid w =
      (Ret (memory_of (sessions_collection w !! sid)), w') /\
    _lock w' = _lock w /\
    _sessions w' = _sessions w /\
    sessions_collection w' = sessions_collection w /\
    conversations_collection w' = conversations_collection w /\
    env w' = env w /\
    clock_reads w' = clock_reads w /\
    store_calls w' = S (store_calls w).
Proof.
  intros Hf. unfold get_contextual_memory, bind, sessions_find_one, store_call.
  simpl. rewrite Hf.
  destruct (sessions_collection w !! sid) as [doc |]; simpl.
  - destruct (doc_contextual_memory doc); simpl;
      (eexists; split; [reflexivity |]); simpl; repeat split.
  - eexists. split; [reflexivity |]. simpl. repeat split.
Qed.

Lemma store_session_summary_run (sid t : string) (w : World) :
  faults (env w) (store_calls w) = false ->
  faults (env w) (S (store_calls w)) = false ->
  exists w',
    store_session_summary sid t w = (Ret tt, w') /\
    _lock w' = _lock w /\
    _sessions w' = _sessions w /\
    sessions_collection w' =
      <[sid := set_contextual_memory
                 (memory_of (sessions_collection w !! sid) ++ ["Summary: " +:+ t])
                 (default empty_doc (sessions_collection w !! sid))]>
        (sessions_collection w) /\
    conversations_collection w' = conversations_collection w /\
    env w' = env w /\
    store_calls w' = S (S (store_calls w)).
Proof.
  intros Hf1 Hf2.
  destruct (get_contextual_memory_run sid w Hf1)
    as [w1 [Hrun [Hl [Hs [Hd [Hc [He [_ Hn]]]]]]]].
  unfold store_session_summary, bind. rewrite Hrun.
  unfold store_contextual_memory, sessions_upsert_contextual_memory, store_call.
  simpl. rewrite He, Hn, Hf2.
  eexists. split; [reflexivity |]. simpl.
  split; [exact Hl |]. split; [exact Hs |]. split.
  { rewrite Hd. destruct (sessions_collection w !! sid); reflexivity. }
  split; [exact Hc |]. split; [exact He |]. reflexivity.
Qed.

Lemma memory_of_set (items : list string) (doc : SessionDoc) :
  memory_of (Some (set_contextual_memory items doc)) = items.
Proof. reflexivity. Qed.

(** X13: summaries stored one after the other with [store_session_summary]
    are all kept, in their order, after the memory that was there, each one
    behind the label "Summary: "; [get_contextual_memory] then returns
    exactly that list. The cache and the conversation entries are not
    touched, nor the documents of the other sessions. *)
Theorem store_summaries_accumulate (sid : string) (summaries : list string) :
  forall w,
    healthy (env w) ->
    exists w' w'',
      store_summaries sid summaries w = (Ret tt, w') /\
      get_contextual_memory sid w' =
        (Ret (memory_of (sessions_collection w !! sid)
                ++ map (fun t => "Summary: " +:+ t) summaries), w'') /\
      _sessions w' = _sessions w /\
      conversations_collection w' = conversations_collection w /\
      (forall other, other <> sid ->
         sessions_collection w' !! other = sessions_collection w !! other).
Proof.
  induction summaries as [|t rest IH]; intros w Hh.
  - destruct (get_contextual_memory_run sid w (Hh _)) as [w'' [Hrun _]].
    exists w, w''. cbn [store_summaries map]. rewrite app_nil_r.
    split; [reflexivity |]. split; [exact Hrun |]. repeat split.
  - destruct (store_session_summary_run sid t w (Hh _) (Hh _))
      as [w1 [Hrun1 [_ [Hs1 [Hd1 [Hc1 [He1 _]]]]]]].
    destruct (IH w1) as [w' [w'' [Hrun [Hget [Hs [Hc Hother]]]]]];
      [now rewrite He1 |].
    exists w', w''. split; [| split; [| split; [| split]]].
    + cbn [store_summaries]. unfold bind. rewrite Hrun1. exact Hrun.
    + rewrite Hget, Hd1, lookup_insert_eq, memory_of_set.
      cbn [map]. now rewrite <- app_assoc.
    + now rewrite Hs.
    + now rewrite Hc.
    + intros other Hne. rewrite (Hother other Hne), Hd1.
      apply lookup_insert_ne. congruence.
Qed.

(** X14: a summary stored for an identifier that the store does not know
    creates a document that has a memory and no [created_at]
    ([update_one] with [upsert=True]); from then on [get_session] on that
    identifier does not answer [None] any more: it raises
    [KeyError('created_at')]. *)
Theorem summary_of_unknown_session_breaks_get_session (sid t : string) (w : World) :
  _lock w = false ->
  healthy (env w) ->
  _sessions w !! sid = None ->
  sessions_collection w !! sid = None ->
  exists w0 w1 w2,
    get_session sid w = (Ret None, w0) /\
    store_session_summary sid t w = (Ret tt, w1) /\
    sessions_collection w1 !! sid =
      Some (set_contextual_memory ["Summary: " +:+ t] empty_doc) /\
    get_session sid w1 = (Raise (KeyError "created_at"), w2).
Proof.
  intros Hlock Hh Hcache Hdoc.
  destruct (get_session_unknown_run sid w Hlock Hcache (Hh _) Hdoc) as [w0 [Hrun0 _]].
  destruct (store_session_summary_run sid t w (Hh _) (Hh _))
    as [w1 [Hrun1 [Hl1 [Hs1 [Hd1 [Hc1 [He1 Hn1]]]]]]].
  assert (Hnew : sessions_collection w1 !! sid =
                 Some (set_contextual_memory ["Summary: " +:+ t] empty_doc)).
  { rewrite Hd1, lookup_insert_eq, Hdoc. reflexivity. }
  exists w0, w1. eexists. split; [exact Hrun0 |]. split; [exact Hrun1 |].
  split; [exact Hnew |].
  unfold get_session, bind, with_lock. rewrite Hl1, Hlock.
  unfold cache_get. simpl. rewrite Hs1, Hcache. simpl.
  unfold sessions_find_one, store_call. simpl. rewrite He1, (Hh _), Hnew.
  unfold conversations_find_sorted, store_call. simpl. rewrite He1, (Hh _). simpl.
  reflexivity.
Qed.

(** ** The history of a conversation *)

Lemma get_conversation_history_cached_run (sid : string) (w : World) (s : Session) :
  _lock w = false ->
  _sessions w !! sid = Some s ->
  exists w',
    get_conversation_history sid w = (Ret (query_history s), w') /\
    _lock w' = false /\
    _sessions w' = _sessions w /\
    sessions_collection w' = sessions_collection w /\
    conversations_collection w' = conversations_collection w /\
    env w' = env w /\
    clock_reads w' = clock_reads w /\
    store_calls w' = store_calls w.
Proof.
  intros Hlock Hcache.
  unfold get_conversation_history, bind, with_lock. rewrite Hlock.
  unfold cache_get. simpl. rewrite Hcache. simpl.
  eexists. split; [reflexivity |]. simpl. repeat split.
Qed.



(** ** A session that the store refuses *)

(** X16: [create_session] puts the new session in the cache before it
    writes to the store and does not take it back: when the store fails, or
    when it already has a document with that identifier, the call raises,
    the lock is released, the store is as it was, and the cache holds the
    new, empty session (in place of the one it held under that identifier,
    if any). *)
Theorem create_session_not_atomic (w : World) :
  _lock w = false ->
  let sid := uuids (env w) (uuid_reads w) in
  let fresh := {| session_id := sid; created_at := clock (env w) (clock_reads w);
                  query_history := [] |} in
  (faults (env w) (store_calls w) = true ->
   exists w',
     create_session w = (Raise StoreUnavailable, w') /\
     _lock w' = false /\
     _sessions w' !! sid = Some fresh /\
     sessions_collection w' = sessions_collection w) /\
  (faults (env w) (store_calls w) = false ->
   is_Some (sessions_collection w !! sid) ->
   exists w',
     create_session w = (Raise DuplicateKeyError, w') /\
     _lock w' = false /\
     _sessions w' !! sid = Some fresh /\
     sessions_collection w' = sessions_collection w).
Proof.
  intros Hlock sid fresh. split.
  - intros Hf. unfold create_session, bind, with_lock. rewrite Hlock.
    unfold uuid4, utcnow, cache_set, sessions_insert_one, store_call. simpl.
    rewrite Hf. eexists. split; [reflexivity |]. simpl.
    split; [reflexivity |]. split; [apply lookup_insert_eq | reflexivity].
  - intros Hf [doc Hdoc]. unfold create_session, bind, with_lock. rewrite Hlock.
    unfold uuid4, utcnow, cache_set, sessions_insert_one, store_call. simpl.
    fold sid. rewrite Hf, Hdoc. eexists. split; [reflexivity |]. simpl.
    split; [reflexivity |]. split; [apply lookup_insert_eq | reflexivity].
Qed.

(** ** The query handler *)

Import Routes.

Lemma get_session_cached_run (sid : string) (w : World) (s : Session) :
  _lock w = false ->
  _sessions w !! sid = Some s ->
  ~ (clock (env w) (clock_reads w) - created_at s > _expiration_delta w) ->
  exists w',
    get_session sid w = (Ret (Some s), w') /\
    _lock w' = false /\
    _sessions w' = _sessions w /\
    sessions_collection w' = sessions_collection w /\
    conversations_collection w' = conversations_collection w /\
    env w' = env w /\
    store_calls w' = store_calls w.
Proof.
  intros Hlock Hcache Hfresh.
  unfold get_session, bind, with_lock. rewrite Hlock.
  unfold cache_get. simpl. rewrite Hcache. simpl. rewrite Z.gtb_ltb.
  destruct (Z.ltb_spec (_expiration_delta w)
              (clock (env w) (clock_reads w) - created_at s)) as [Hlt | Hge]; [lia |].
  eexists. split; [reflexivity |]. simpl. repeat split.
Qed.

(** The FAQ handler never raises, whatever the scorer answers. *)
Lemma get_faq_answer_returns
    (extractOne : string -> list string -> string * Q * nat)
    (file : option FAQHandler.Dict) (self : FAQHandler.Handler) (query : string) :
  exists answer,
    fst (FAQHandler.get_faq_answer extractOne file self query) = Ret answer.
Proof.
  unfold FAQHandler.get_faq_answer.
  set (self' := if negb (FAQHandler.initialized self) then FAQHandler.load file self else self).
  destruct (find _ (FAQHandler.keys (FAQHandler.faq_data self'))) as [key |] eqn:E.
  - apply find_some in E as [Hin _].
    destruct (get_of_key _ _ Hin) as [v Hv].
    exists (Some v). cbn [fst]. unfold FAQHandler.getitem. now rewrite Hv.
  - destruct (FAQHandler.question_list self'); [now exists None |].
    destruct (extractOne _ _) as [[best score] idx].
    destruct (Qle_bool _ score); eexists; reflexivity.
Qed.

(** The last step of the handler: the turn is added, the answer returned. *)
Lemma persist_run (request : QueryRequest) (s : Session) (w1 w : World)
    (text : string) (handled : Handled) (resp : QueryResponse) :
  reply handled = Ok resp ->
  response resp = text ->
  response_session_id resp = session_id s ->
  _lock w = false ->
  healthy (env w) ->
  _sessions w !! session_id s = Some s ->
  conversations_collection w = conversations_collection w1 ->
  exists w',
    bind (add_to_conversation (session_id s) (query request) text)
      (fun _ => ret handled) w = (Ret handled, w') /\
    turn_persisted request s w1 handled w'.
Proof.
  intros Hreply Htext Hsid Hlock Hh Hcache Hconv.
  destruct (add_to_conversation_cached (session_id s) (query request) text w s
              Hlock Hcache (Hh _) (Hh _))
    as [w' [Hrun [Hl [Hs [Hc _]]]]].
  exists w'. split; [unfold bind; now rewrite Hrun |].
  exists resp. split; [exact Hreply |]. split; [exact Hsid |]. split; [exact Hl |].
  split.
  - rewrite Hs, !lookup_alter_eq, Hcache, Htext. simpl. unfold append_history. simpl.
    now rewrite <- app_assoc.
  - eexists. rewrite Hc, Hconv, Htext. reflexivity.
Qed.

(** Once the session is resolved, the handler answers and keeps the turn. *)
Lemma handle_query_resolved
    (extractOne : string -> list string -> string * Q * nat)
    (faq_file : option FAQHandler.Dict)
    (model : string -> nat -> LLMClient.CallResult)
    (request : QueryRequest) (w w1 : World) (s : Session) :
  match request_session_id request with
  | Some session_id_str => get_session session_id_str
  | None => bind create_session (fun s => ret (Some s))
  end w = (Ret (Some s), w1) ->
  _lock w1 = false ->
  healthy (env w1) ->
  _sessions w1 !! session_id s = Some s ->
  exists handled w' faq,
    handle_query extractOne faq_file model request w = (Ret handled, w') /\
    fst (FAQHandler.get_faq_answer extractOne faq_file FAQHandler.__init__
           (query request)) = Ret faq /\
    turn_persisted request s w1 handled w' /\
    answer_explained request s faq handled.
Proof.
  intros Hresolve Hlock Hh Hcache.
  destruct (get_faq_answer_returns extractOne faq_file FAQHandler.__init__ (query request))
    as [faq Hfaq].
  unfold handle_query. unfold bind at 1. rewrite Hresolve.
  unfold bind at 1. unfold lift at 1. rewrite Hfaq.
  destruct (truthy faq) eqn:Etruthy.
  - (* the FAQ answers *)
    destruct faq as [[|c a] |]; try discriminate. cbn [default].
    destruct (persist_run request s w1 w1 (String c a)
                {| reply := Ok {| response := String c a;
                                  response_session_id := session_id s;
                                  response_escalated := false |};
                   llm_log := []; notified := [] |} _
                eq_refl eq_refl eq_refl Hlock Hh Hcache eq_refl)
      as [w' [Hrun Hpers]].
    eexists _, w', _. split; [exact Hrun |]. split; [reflexivity |].
    split; [exact Hpers |].
    eexists. split; [reflexivity |]. cbn. repeat split.
  - (* the model answers *)
    destruct (get_conversation_history_cached_run (session_id s) w1 s Hlock Hcache)
      as [w2 [Hrun2 [Hl2 [Hs2 [_ [Hc2 [He2 _]]]]]]].
    unfold bind at 1. rewrite Hrun2.
    destruct (get_contextual_memory_run (session_id s) w2)
      as [w3 [Hrun3 [Hl3 [Hs3 [_ [Hc3 [He3 _]]]]]]]; [rewrite He2; apply Hh |].
    unfold bind at 1. rewrite Hrun3.
    set (memory := memory_of (sessions_collection w2 !! session_id s)).
    destruct (generate_response_returns LLMClient.__init__ model
                (query request) (memory ++ query_history s))
      as [llm_result [log Hgen]].
    rewrite Hgen. unfold bind at 1. unfold lift at 1.
    assert (Hlock3 : _lock w3 = false) by now rewrite Hl3.
    assert (Hh3 : healthy (env w3)) by now rewrite He3, He2.
    assert (Hcache3 : _sessions w3 !! session_id s = Some s) by now rewrite Hs3, Hs2.
    assert (Hconv3 : conversations_collection w3 = conversations_collection w1)
      by now rewrite Hc3, Hc2.
    destruct (LLMClient.escalated llm_result) eqn:Eesc.
    + destruct (create_escalation_note_returns (query request) (query_history s))
        as [note Hnote].
      unfold bind at 1. unfold lift at 1. rewrite Hnote.
      destruct (persist_run request s w1 w3 note
                  {| reply := Ok {| response := note;
                                    response_session_id := session_id s;
                                    response_escalated := true |};
                     llm_log := log; notified := [note] |} _
                  eq_refl eq_refl eq_refl Hlock3 Hh3 Hcache3 Hconv3)
        as [w' [Hrun Hpers]].
      eexists _, w', _. split; [exact Hrun |]. split; [reflexivity |].
      split; [exact Hpers |].
      eexists. split; [reflexivity |]. rewrite Etruthy. cbn. now split.
    + destruct (persist_run request s w1 w3 (LLMClient.text llm_result)
                  {| reply := Ok {| response := LLMClient.text llm_result;
                                    response_session_id := session_id s;
                                    response_escalated := false |};
                     llm_log := log; notified := [] |} _
                  eq_refl eq_refl eq_refl Hlock3 Hh3 Hcache3 Hconv3)
        as [w' [Hrun Hpers]].
      eexists _, w', _. split; [exact Hrun |]. split; [reflexivity |].
      split; [exact Hpers |].
      eexists. split; [reflexivity |]. rewrite Etruthy. cbn. reflexivity.
Qed.

Lemma turn_persisted_from (request : QueryRequest) (s : Session) (w w1 : World)
    (handled : Handled) (w' : World) :
  conversations_collection w1 = conversations_collection w ->
  turn_persisted request s w1 handled w' ->
  turn_persisted request s w handled w'.
Proof.
  intros Hc [resp [H1 [H2 [H3 [H4 [t H5]]]]]].
  exists resp. repeat (split; [assumption |]). exists t. now rewrite <- Hc.
Qed.

(** X17: a query for a session that exists is always answered and always
    kept, with the store answering. Whether the session is in the cache (and
    has not expired) or only in the store, [handle_query] returns an answer
    for that session, never hangs and never raises, and the pair (query,
    final response) is appended to the history in the cache and written as
    one entry in the store, on the FAQ path, the model path and the
    escalation path alike. An FAQ answer is given without a call to the
    model; an escalated answer is the escalation note built from the history
    of the session, and it is the only case in which the support team is
    notified. *)
Theorem handle_query_existing_session
    (extractOne : string -> list string -> string * Q * nat)
    (faq_file : option FAQHandler.Dict)
    (model : string -> nat -> LLMClient.CallResult)
    (request : QueryRequest) (sid : string) (w : World) :
  request_session_id request = Some sid ->
  _lock w = false ->
  healthy (env w) ->
  (forall s,
     _sessions w !! sid = Some s ->
     session_id s = sid ->
     ~ (clock (env w) (clock_reads w) - created_at s > _expiration_delta w) ->
     exists handled w' faq,
       handle_query extractOne faq_file model request w = (Ret handled, w') /\
       fst (FAQHandler.get_faq_answer extractOne faq_file FAQHandler.__init__
              (query request)) = Ret faq /\
       turn_persisted request s w handled w' /\
       answer_explained request s faq handled) /\
  (forall doc c,
     _sessions w !! sid = None ->
     sessions_collection w !! sid = Some doc ->
     doc_created_at doc = Some c ->
     let s := {| session_id := sid; created_at := c;
                 query_history := stored_history sid w |} in
     exists handled w' faq,
       handle_query extractOne faq_file model request w = (Ret handled, w') /\
       fst (FAQHandler.get_faq_answer extractOne faq_file FAQHandler.__init__
              (query request)) = Ret faq /\
       turn_persisted request s w handled w' /\
       answer_explained request s faq handled).
Proof.
  intros Hreq Hlock Hh. split.
  - intros s Hcache Hsid Hfresh.
    destruct (get_session_cached_run sid w s Hlock Hcache Hfresh)
      as [w1 [Hrun [Hl [Hs [_ [Hc [He _]]]]]]].
    destruct (handle_query_resolved extractOne faq_file model request w w1 s)
      as [handled [w' [faq [H1 [H2 [H3 H4]]]]]].
    + now rewrite Hreq.
    + exact Hl.
    + now rewrite He.
    + now rewrite Hsid, Hs.
    + exists handled, w', faq. repeat split; try assumption.
      now apply (turn_persisted_from request s w w1).
  - intros doc c Hcache Hdoc Hc s.
    destruct (get_session_load_run sid w doc c Hlock Hcache (Hh _) (Hh _) Hdoc Hc)
      as [w1 [Hrun [Hl [Hs [_ [Hcv [He _]]]]]]].
    destruct (handle_query_resolved extractOne faq_file model request w w1 s)
      as [handled [w' [faq [H1 [H2 [H3 H4]]]]]].
    + now rewrite Hreq.
    + exact Hl.
    + now rewrite He.
    + rewrite Hs. apply lookup_insert_eq.
    + exists handled, w', faq. repeat split; try assumption.
      now apply (turn_persisted_from request s w w1).
Qed.

(** X18: a query without a session identifier opens a session: with the
    store answering and the identifier new, [handle_query] creates the
    session, answers, and leaves a session whose history is exactly the
    query and the response. *)
Theorem handle_query_new_session
    (extractOne : string -> list string -> string * Q * nat)
    (faq_file : option FAQHandler.Dict)
    (model : string -> nat -> LLMClient.CallResult)
    (request : QueryRequest) (w : World) :
  request_session_id request = None ->
  _lock w = false ->
  healthy (env w) ->
  sessions_collection w !! uuids (env w) (uuid_reads w) = None ->
  let s := {| session_id := uuids (env w) (uuid_reads w);
              created_at := clock (env w) (clock_reads w);
              query_history := [] |} in
  exists handled w' faq,
    handle_query extractOne faq_file model request w = (Ret handled, w') /\
    fst (FAQHandler.get_faq_answer extractOne faq_file FAQHandler.__init__
           (query request)) = Ret faq /\
    turn_persisted request s w handled w' /\
    answer_explained request s faq handled.
Proof.
  intros Hreq Hlock Hh Hnew s.
  destruct (create_session_fresh w Hlock (Hh _) Hnew)
    as [w1 [Hrun [Hl [Hs [_ [Hc [He _]]]]]]].
  destruct (handle_query_resolved extractOne faq_file model request w w1 s)
    as [handled [w' [faq [H1 [H2 [H3 H4]]]]]].
  - rewrite Hreq. unfold bind. now rewrite Hrun.
  - exact Hl.
  - now rewrite He.
  - rewrite Hs. apply lookup_insert_eq.
  - exists handled, w', faq. repeat split; try assumption.
    now apply (turn_persisted_from request s w w1).
Qed.

(** X19: a query for a session identifier that neither the cache nor the
    store knows is refused with the HTTP error 404 "Session not found.":
    the model is not called, nobody is notified, and nothing is written in
    the cache or in the store. *)
Theorem handle_query_unknown_session
    (extractOne : string -> list string -> string * Q * nat)
    (faq_file : option FAQHandler.Dict)
    (model : string -> nat -> LLMClient.CallResult)
    (request : QueryRequest) (sid : string) (w : World) :
  request_session_id request = Some sid ->
  _lock w = false ->
  _sessions w !! sid = None ->
  faults (env w) (store_calls w) = false ->
  sessions_collection w !! sid = None ->
  exists w',
    handle_query extractOne faq_file model request w =
      (Ret {| reply := HTTPException 404 "Session not found.";
              llm_log := []; notified := [] |}, w') /\
    _lock w' = false /\
    _sessions w' = _sessions w /\
    sessions_collection w' = sessions_collection w /\
    conversations_collection w' = conversations_collection w.
Proof.
  intros Hreq Hlock Hcache Hf Hdoc.
  destruct (get_session_unknown_run sid w Hlock Hcache Hf Hdoc)
    as [w' [Hrun [H1 [H2 [H3 [H4 _]]]]]].
  exists w'. split; [| repeat split; assumption].
  unfold handle_query, bind. now rewrite Hreq, Hrun.
Qed.

(** X20: [create_session_with_greeting], with the store answering and the
    identifier new, returns the identifier of a session whose history is an
    empty user message followed by the greeting of the bot, kept as one
    entry of the store: the first "user" turn of such a session is the empty
    text. *)
Theorem create_session_with_greeting_history (w : World) :
  _lock w = false ->
  healthy (env w) ->
  sessions_collection w !! uuids (env w) (uuid_reads w) = None ->
  let sid := uuids (env w) (uuid_reads w) in
  exists w',
    create_session_with_greeting w = (Ret sid, w') /\
    _lock w' = false /\
    _sessions w' !! sid =
      Some {| session_id := sid; created_at := clock (env w) (clock_reads w);
              query_history := [EmptyString; BOT_GREETING] |} /\
    exists stamp,
      conversations_collection w' =
        conversations_collection w ++
        [ {| conv_session_id := sid; conv_user_query := Some EmptyString;
             conv_bot_response := Some BOT_GREETING; conv_timestamp := stamp |} ].
Proof.
  intros Hlock Hh Hnew sid.
  unfold create_session_with_greeting, bind.
  unfold create_session, bind, with_lock. rewrite Hlock.
  unfold uuid4, utcnow, cache_set, sessions_insert_one, store_call. simpl.
  rewrite (Hh _), Hnew. simpl.
  unfold add_to_conversation, bind, with_lock, cache_get. simpl.
  rewrite lookup_insert_eq. simpl.
  unfold conversations_insert_one, sessions_update_last_active, store_call. simpl.
  rewrite !(Hh _). simpl.
  eexists. split; [reflexivity |]. simpl. split; [reflexivity |]. split.
  - rewrite !lookup_alter_eq, lookup_insert_eq. reflexivity.
  - eexists. reflexivity.
Qed.

(** ** A turn on a session of the cache *)

(** X21: for a session that is in the cache, with the store answering,
    [add_to_conversation] returns; the two strings are appended to the
    history of that session, in that order; exactly one entry is added to
    the store, its timestamp being the first reading of the clock cut to
    milliseconds; the session document, when the store has one, gets the
    second reading cut to milliseconds as [last_active_at]; the other
    sessions of the cache and of the store are not touched and the lock is
    free again. *)
Theorem add_to_conversation_known_session (sid q r : string) (w : World) (s : Session) :
  _lock w = false ->
  healthy (env w) ->
  _sessions w !! sid = Some s ->
  exists w',
    add_to_conversation sid q r w = (Ret tt, w') /\
    _lock w' = false /\
    _sessions w' !! sid =
      Some {| session_id := session_id s; created_at := created_at s;
              query_history := query_history s ++ [q; r] |} /\
    (forall other, other <> sid -> _sessions w' !! other = _sessions w !! other) /\
    conversations_collection w' =
      conversations_collection w ++
      [ {| conv_session_id := sid; conv_user_query := Some q;
           conv_bot_response := Some r;
           conv_timestamp := clock (env w) (clock_reads w) / 1000 * 1000 |} ] /\
    (doc_last_active_at <$> sessions_collection w' !! sid) =
      ((fun _ => Some (clock (env w) (S (clock_reads w)) / 1000 * 1000))
         <$> sessions_collection w !! sid) /\
    (forall other, other <> sid ->
       sessions_collection w' !! other = sessions_collection w !! other).
Proof.
  intros Hlock Hh Hcache.
  destruct (add_to_conversation_cached sid q r w s Hlock Hcache (Hh _) (Hh _))
    as [w' [Hrun [Hl [Hs [Hc [Hd _]]]]]].
  exists w'. split; [exact Hrun |]. split; [exact Hl |]. split; [| split; [| split; [| split]]].
  - rewrite Hs, !lookup_alter_eq, Hcache. simpl. unfold append_history. simpl.
    now rewrite <- app_assoc.
  - intros other Hne. rewrite Hs. rewrite !lookup_alter_ne by congruence. reflexivity.
  - exact Hc.
  - rewrite Hd, lookup_alter_eq. now destruct (sessions_collection w !! sid).
  - intros other Hne. rewrite Hd. apply lookup_alter_ne. congruence.
Qed.

(** ** The FAQ handler, once more *)

(** X22: [get_faq_answer] never raises, whatever the file holds and
    whatever the scorer answers (a best match that is not a stored question
    gives no answer). A handler that has loaded its file does not read it
    again: its answers do not depend on the file any more and it is left as
    it is. A handler that has not, loads the file at the first query, and is
    then initialized with the questions of the file. *)
Theorem faq_handler_loads_once
    (extractOne : string -> list string -> string * Q * nat)
    (file : option FAQHandler.Dict) (self : FAQHandler.Handler) (query : string) :
  (exists answer,
     fst (FAQHandler.get_faq_answer extractOne file self query) = Ret answer) /\
  (if FAQHandler.initialized self
   then forall other_file,
          FAQHandler.get_faq_answer extractOne other_file self query =
          FAQHandler.get_faq_answer extractOne file self query /\
          snd (FAQHandler.get_faq_answer extractOne file self query) = self
   else match file with
        | Some d =>
            snd (FAQHandler.get_faq_answer extractOne file self query) =
            {| FAQHandler.faq_data := d;
               FAQHandler.question_list := FAQHandler.keys d;
               FAQHandler.initialized := true |}
        | None =>
            FAQHandler.initialized
              (snd (FAQHandler.get_faq_answer extractOne file self query)) = false
        end).
Proof.
  split; [apply get_faq_answer_returns |].
  assert (Hsnd : forall f,
            snd (FAQHandler.get_faq_answer extractOne f self query) =
            if negb (FAQHandler.initialized self) then FAQHandler.load f self else self).
  { intros f. unfold FAQHandler.get_faq_answer.
    destruct (find _ _); [reflexivity |].
    destruct (FAQHandler.question_list _); [reflexivity |].
    destruct (extractOne _ _) as [[best score] idx].
    destruct (Qle_bool _ score); reflexivity. }
  destruct (FAQHandler.initialized self) eqn:E.
  - intros other_file. split.
    + unfold FAQHandler.get_faq_answer. rewrite ?E. reflexivity.
    + rewrite Hsnd, ?E. reflexivity.
  - rewrite Hsnd, ?E. destruct file; [reflexivity |]. exact E.
Qed.

(** ** The further properties at sample inputs *)

Lemma sample_world_healthy : healthy (env (sample_world (fun _ => false))).
Proof. intros n. reflexivity. Qed.

Lemma sample_world_with_session_healthy :
  healthy (env (sample_world_with_session (fun _ => false))).
Proof. intros n. vm_compute. reflexivity. Qed.

Lemma suggestion_lines_clean_witness :
  LLMClient.suggestion_lines
    (Py.join Py.LF ["  Write to him "; "   "; "Star the repository"; EmptyString]) =
  ["Write to him"; "Star the repository"].
Proof.
  transitivity
    (List.filter (fun x => negb (String.eqb x EmptyString))
       (map Py.strip ["  Write to him "; "   "; "Star the repository"; EmptyString])).
  - apply (proj1 suggestion_lines_clean). repeat constructor.
  - vm_compute. reflexivity.
Defined.

Lemma is_unsatisfactory_stable_witness :
  map fold (Unicode.of_string "I DON'T KNOW") =
    map fold (Unicode.of_string "i don't know") /\
  fst (Unicode.is_unsatisfactory (fun t => t) (Unicode.of_string "I DON'T KNOW")) =
  fst (Unicode.is_unsatisfactory (fun t => t) (Unicode.of_string "i don't know")).
Proof.
  split; [vm_compute; reflexivity |].
  apply (proj1 is_unsatisfactory_stable). vm_compute. reflexivity.
Defined.

Lemma retry_api_call_outcome_witness :
  LLMClient._retry_api_call LLMClient.__init__ slow_model =
    (Ret (Some "ok"), backoff_log (seq 1 3) (2 # 1)) /\
  LLMClient._retry_api_call LLMClient.__init__ (failing_model EmptyString) =
    (Raise ModelCallFailed, backoff_log (seq 1 3) (2 # 1)) /\
  LLMClient._retry_api_call {| LLMClient.max_retries := 0; LLMClient.retry_delay := 2 # 1 |}
    slow_model = (Ret None, []).
Proof.
  split; [| split].
  - apply (proj1 (proj2 (retry_api_call_outcome LLMClient.__init__ slow_model)) 3%nat).
    + simpl. lia.
    + intros j Hj. exists ModelCallFailed.
      assert (Hj' : j = 1%nat \/ j = 2%nat) by lia.
      destruct Hj' as [-> | ->]; reflexivity.
    + reflexivity.
  - apply (proj2 (proj2 (retry_api_call_outcome LLMClient.__init__
                           (failing_model EmptyString)))).
    + simpl. lia.
    + intros j Hj. now exists ModelCallFailed.
    + reflexivity.
  - apply (proj1 (retry_api_call_outcome
                    {| LLMClient.max_retries := 0; LLMClient.retry_delay := 2 # 1 |}
                    slow_model)).
    reflexivity.
Defined.

Lemma summarize_session_never_empty_witness :
  LLMClient.summarize_session LLMClient.__init__ (fun _ => slow_model) "hello" =
    (Ret (Some "ok"), backoff_log (seq 1 3) (2 # 1)) /\
  LLMClient.summarize_session LLMClient.__init__
    (fun _ _ => LLMClient.Responded None) "hello" =
    (Ret (Some LLMClient.NO_SUMMARY), backoff_log (seq 1 1) (2 # 1)) /\
  LLMClient.summarize_session LLMClient.__init__ failing_model "hello" =
    (Ret (Some LLMClient.SUMMARY_FAILED), backoff_log (seq 1 3) (2 # 1)) /\
  LLMClient.summarize_session
    {| LLMClient.max_retries := 0; LLMClient.retry_delay := 2 # 1 |}
    failing_model "hello" = (Ret None, []).
Proof.
  split; [| split; [| split]].
  - apply (proj1 (proj2 (summarize_session_never_empty LLMClient.__init__
                           (fun _ => slow_model) "hello")) 3%nat).
    + simpl. lia.
    + intros j Hj. exists ModelCallFailed.
      assert (Hj' : j = 1%nat \/ j = 2%nat) by lia.
      destruct Hj' as [-> | ->]; reflexivity.
    + reflexivity.
  - apply (proj1 (proj2 (proj2 (summarize_session_never_empty LLMClient.__init__
                                  (fun _ _ => LLMClient.Responded None) "hello")))
             1%nat).
    + simpl. lia.
    + intros j Hj. lia.
    + now left.
  - apply (proj1 (proj2 (proj2 (proj2 (summarize_session_never_empty LLMClient.__init__
                                         failing_model "hello")))) ModelCallFailed).
    + simpl. lia.
    + intros j Hj. now exists ModelCallFailed.
    + reflexivity.
  - apply (proj1 (summarize_session_never_empty
                    {| LLMClient.max_retries := 0; LLMClient.retry_delay := 2 # 1 |}
                    failing_model "hello")).
    reflexivity.
Defined.

Lemma async_repeat_retry_outcome_witness :
  Helpers.async_repeat_retry slow_function 3 2 =
    (Ret (Some 7), steady_log (seq 0 3) 2) /\
  Helpers.async_repeat_retry (fun _ => inl ModelCallFailed : Exn + Z) 3 2 =
    (Raise ModelCallFailed, steady_log (seq 0 3) 2) /\
  Helpers.async_repeat_retry slow_function 0 2 = (Ret None, []).
Proof.
  split; [| split].
  - apply (proj1 (proj2 (async_repeat_retry_outcome slow_function 3 2)) 2%nat).
    + lia.
    + intros j Hj. exists ModelCallFailed.
      assert (Hj' : j = 0%nat \/ j = 1%nat) by lia.
      destruct Hj' as [-> | ->]; reflexivity.
    + reflexivity.
  - apply (proj2 (proj2 (async_repeat_retry_outcome
                           (fun _ => inl ModelCallFailed : Exn + Z) 3 2))).
    + lia.
    + intros j Hj. now exists ModelCallFailed.
    + reflexivity.
  - apply (proj1 (async_repeat_retry_outcome slow_function 0 2)). reflexivity.
Defined.

Lemma delete_session_removes_witness :
  exists w' w'',
    delete_session "s1" (sample_world_with_session (fun _ => false)) = (Ret tt, w') /\
    _sessions w' !! "s1" = None /\
    sessions_collection w' !! "s1" = None /\
    delete_session "s1" w' = (Ret tt, w'') /\
    _sessions w'' = _sessions w'.
Proof.
  destruct (delete_session_removes "s1" (sample_world_with_session (fun _ => false)))
    as [w' [w'' [H1 [H2 [H3 [_ [_ [H6 [H7 _]]]]]]]]].
  - vm_compute. reflexivity.
  - exact sample_world_with_session_healthy.
  - exists w', w''. split; [exact H1 |]. split; [exact H2 |]. split; [exact H3 |].
    split; [exact H6 | exact H7].
Defined.

Lemma get_session_unknown_witness :
  exists w',
    get_session "no-such-session" (sample_world (fun _ => false)) = (Ret None, w') /\
    _sessions w' = _sessions (sample_world (fun _ => false)).
Proof.
  destruct (get_session_unknown "no-such-session" (sample_world (fun _ => false)))
    as [w' [H1 [_ [H3 _]]]]; try reflexivity.
  exists w'. split; [exact H1 | exact H3].
Defined.

Lemma get_session_then_add_to_conversation_witness :
  exists w1 w2 s,
    get_session "s1" (evict "s1" (sample_world_with_session (fun _ => false)))
      = (Ret (Some s), w1) /\
    add_to_conversation "s1" "hello" "hi" w1 = (Ret tt, w2) /\
    _sessions w2 !! "s1" =
      Some {| session_id := "s1"; created_at := 0;
              query_history :=
                stored_history "s1"
                  (evict "s1" (sample_world_with_session (fun _ => false)))
                ++ ["hello"; "hi"] |}.
Proof.
  destruct (get_session_then_add_to_conversation "s1" "hello" "hi"
              (evict "s1" (sample_world_with_session (fun _ => false)))
              sample_doc 0)
    as [w1 [w2 [H1 [_ [H3 [H4 _]]]]]].
  - vm_compute. reflexivity.
  - intros n. vm_compute. reflexivity.
  - vm_compute. reflexivity.
  - vm_compute. reflexivity.
  - reflexivity.
  - eexists w1, w2, _. split; [exact H1 |]. split; [exact H3 | exact H4].
Defined.

Lemma store_summaries_accumulate_witness :
  exists w' w'',
    store_summaries "s1" ["first"; "second"]
      (sample_world_with_session (fun _ => false)) = (Ret tt, w') /\
    get_contextual_memory "s1" w' =
      (Ret (memory_of (sessions_collection (sample_world_with_session (fun _ => false))
                         !! "s1")
              ++ map (fun t => "Summary: " +:+ t) ["first"; "second"]), w'').
Proof.
  destruct (store_summaries_accumulate "s1" ["first"; "second"]
              (sample_world_with_session (fun _ => false))
              sample_world_with_session_healthy)
    as [w' [w'' [H1 [H2 _]]]].
  exists w', w''. split; [exact H1 | exact H2].
Defined.

Lemma summary_of_unknown_session_breaks_get_session_witness :
  exists w0 w1 w2,
    get_session "ghost" (sample_world (fun _ => false)) = (Ret None, w0) /\
    store_session_summary "ghost" "nothing" (sample_world (fun _ => false))
      = (Ret tt, w1) /\
    get_session "ghost" w1 = (Raise (KeyError "created_at"), w2).
Proof.
  destruct (summary_of_unknown_session_breaks_get_session "ghost" "nothing"
              (sample_world (fun _ => false)))
    as [w0 [w1 [w2 [H1 [H2 [_ H4]]]]]]; try reflexivity.
  - exact sample_world_healthy.
  - exists w0, w1, w2. split; [exact H1 |]. split; [exact H2 | exact H4].
Defined.


Lemma create_session_not_atomic_witness :
  exists w',
    create_session (sample_world (fun _ => true)) = (Raise StoreUnavailable, w') /\
    _lock w' = false /\
    _sessions w' !! "s1" = Some sample_session /\
    sessions_collection w' = sessions_collection (sample_world (fun _ => true)).
Proof.
  apply (proj1 (create_session_not_atomic (sample_world (fun _ => true)) eq_refl)).
  reflexivity.
Defined.

Lemma handle_query_existing_session_witness :
  (exists handled w' faq,
     handle_query (sample_scorer (0 # 1)) (Some sample_faq) failing_model
       (sample_request (Some "s1")) (sample_world_with_session (fun _ => false))
     = (Ret handled, w') /\
     turn_persisted (sample_request (Some "s1")) sample_session
       (sample_world_with_session (fun _ => false)) handled w' /\
     answer_explained (sample_request (Some "s1")) sample_session faq handled) /\
  (exists handled w' faq,
     handle_query (sample_scorer (0 # 1)) (Some sample_faq) failing_model
       (sample_request (Some "s1"))
       (evict "s1" (sample_world_with_session (fun _ => false)))
     = (Ret handled, w') /\
     answer_explained (sample_request (Some "s1"))
       {| session_id := "s1"; created_at := 0;
          query_history :=
            stored_history "s1"
              (evict "s1" (sample_world_with_session (fun _ => false))) |}
       faq handled).
Proof.
  split.
  - destruct (proj1 (handle_query_existing_session (sample_scorer (0 # 1))
                       (Some sample_faq) failing_model (sample_request (Some "s1"))
                       "s1" (sample_world_with_session (fun _ => false))
                       eq_refl ltac:(vm_compute; reflexivity)
                       sample_world_with_session_healthy) sample_session)
      as [handled [w' [faq [H1 [_ [H3 H4]]]]]].
    + vm_compute. reflexivity.
    + reflexivity.
    + vm_compute. discriminate.
    + exists handled, w', faq. split; [exact H1 |]. split; [exact H3 | exact H4].
  - destruct (proj2 (handle_query_existing_session (sample_scorer (0 # 1))
                       (Some sample_faq) failing_model (sample_request (Some "s1"))
                       "s1" (evict "s1" (sample_world_with_session (fun _ => false)))
                       eq_refl ltac:(vm_compute; reflexivity)
                       ltac:(intros n; vm_compute; reflexivity)) sample_doc 0)
      as [handled [w' [faq [H1 [_ [_ H4]]]]]].
    + vm_compute. reflexivity.
    + vm_compute. reflexivity.
    + reflexivity.
    + exists handled, w', faq. split; [exact H1 | exact H4].
Defined.

Lemma handle_query_new_session_witness :
  exists handled w' faq,
    handle_query (sample_scorer (0 # 1)) (Some sample_faq) failing_model
      (sample_request None) (sample_world (fun _ => false))
    = (Ret handled, w') /\
    turn_persisted (sample_request None) sample_session
      (sample_world (fun _ => false)) handled w' /\
    answer_explained (sample_request None) sample_session faq handled.
Proof.
  destruct (handle_query_new_session (sample_scorer (0 # 1)) (Some sample_faq)
              failing_model (sample_request None) (sample_world (fun _ => false)))
    as [handled [w' [faq [H1 [_ [H3 H4]]]]]]; try reflexivity.
  - exact sample_world_healthy.
  - exists handled, w', faq. split; [exact H1 |]. split; [exact H3 | exact H4].
Defined.

Lemma handle_query_unknown_session_witness :
  exists w',
    handle_query (sample_scorer (0 # 1)) (Some sample_faq) failing_model
      (sample_request (Some "no-such-session")) (sample_world (fun _ => false))
    = (Ret {| reply := HTTPException 404 "Session not found.";
              llm_log := []; notified := [] |}, w') /\
    conversations_collection w' = [].
Proof.
  destruct (handle_query_unknown_session (sample_scorer (0 # 1)) (Some sample_faq)
              failing_model (sample_request (Some "no-such-session"))
              "no-such-session" (sample_world (fun _ => false)))
    as [w' [H1 [_ [_ [_ H5]]]]]; try reflexivity.
  exists w'. split; [exact H1 | exact H5].
Defined.

Lemma create_session_with_greeting_history_witness :
  exists w',
    create_session_with_greeting (sample_world (fun _ => false)) = (Ret "s1", w') /\
    _sessions w' !! "s1" =
      Some {| session_id := "s1"; created_at := 0;
              query_history := [EmptyString; BOT_GREETING] |}.
Proof.
  destruct (create_session_with_greeting_history (sample_world (fun _ => false)))
    as [w' [H1 [_ [H3 _]]]]; try reflexivity.
  - exact sample_world_healthy.
  - exists w'. split; [exact H1 | exact H3].
Defined.

Lemma add_to_conversation_known_session_witness :
  exists w',
    add_to_conversation "s1" "hello" "hi" (snd (create_session steady_world))
      = (Ret tt, w') /\
    _sessions w' !! "s1" =
      Some {| session_id := "s1"; created_at := 7; query_history := ["hello"; "hi"] |} /\
    conversations_collection w' =
      conversations_collection (snd (create_session steady_world)) ++
      [ {| conv_session_id := "s1"; conv_user_query := Some "hello";
           conv_bot_response := Some "hi";
           conv_timestamp :=
             clock (env (snd (create_session steady_world)))
               (clock_reads (snd (create_session steady_world))) / 1000 * 1000 |} ] /\
    clock (env (snd (create_session steady_world)))
      (clock_reads (snd (create_session steady_world))) = 1007 /\
    1007 / 1000 * 1000 = 1000.
Proof.
  destruct (add_to_conversation_known_session "s1" "hello" "hi"
              (snd (create_session steady_world))
              {| session_id := "s1"; created_at := 7; query_history := [] |})
    as [w' [H1 [_ [H3 [_ [H5 _]]]]]].
  - vm_compute. reflexivity.
  - intros n. vm_compute. reflexivity.
  - vm_compute. reflexivity.
  - exists w'. split; [exact H1 |]. split; [exact H3 |]. split; [exact H5 |].
    split; vm_compute; reflexivity.
Defined.
